(** * Treasury report pipeline and synthetic data generator

    A shallow embedding of [reporte_tesoreria.py] (load, clean, aggregate,
    export) and of [generar_datos.py] (the synthetic data generator),
    followed by the properties of the two programs.

    Modelling conventions.
    - Amounts are decimals with two places, kept as an exact integer number
      of céntimos ([Z]).  The program holds them as binary64 numbers, whose
      sums round; [Binary64] gives that reading of the daily flow.  The two
      agree on the tables whose amounts binary64 adds without rounding
      ([montos_exactos]), and a property that equates sums added up in
      different orders is stated for those tables.
    - Text is a string of bytes.  [str_lower], [str_upper] and [str_strip]
      are [str.lower], [str.upper] and [str.strip] on ASCII text; a property
      that depends on what they return is stated for ASCII text
      ([texto_ascii]).
    - A data frame is the list of its rows in index order plus the list of
      its column names; frames live in a store and are passed by reference,
      as Python objects are.  A text column without any text, in a frame
      that has rows, is a column that [read_csv] typed [float64]: the [.str]
      accessor raises on it ([es_texto]).
    - [sort_values] is given by a stable sort.  The default algorithm of
      pandas leaves the order of rows with equal keys open, so no property
      relies on that order; [es_orden] is what any algorithm guarantees.
    - [groupby] leaves out the rows whose key is missing and lists the groups
      in ascending key order (pandas defaults [dropna=True], [sort=True]). *)

From Stdlib Require Import ZArith Lia Sorted Permutation Ascii String.
From Stdlib Require SpecFloat.
From stdpp Require Import base option list strings gmap.

Local Open Scope Z_scope.

(* ===================================================================== *)
(** * Text normalisation *)
(* ===================================================================== *)

Definition ascii_lower (c : ascii) : ascii :=
  let n := N_of_ascii c in
  if ((65 <=? n) && (n <=? 90))%N then ascii_of_N (n + 32) else c.

Definition ascii_upper (c : ascii) : ascii :=
  let n := N_of_ascii c in
  if ((97 <=? n) && (n <=? 122))%N then ascii_of_N (n - 32) else c.

(** White space as [str.strip] understands it, within ASCII. *)
Definition es_espacio (c : ascii) : bool :=
  let n := N_of_ascii c in
  (((9 <=? n) && (n <=? 13)) || ((28 <=? n) && (n <=? 32)))%N.

Fixpoint str_map (f : ascii → ascii) (s : string) : string :=
  match s with
  | EmptyString => EmptyString
  | String c s' => String (f c) (str_map f s')
  end.

Definition str_lower : string → string := str_map ascii_lower.
Definition str_upper : string → string := str_map ascii_upper.

Fixpoint str_lstrip (s : string) : string :=
  match s with
  | EmptyString => EmptyString
  | String c s' => if es_espacio c then str_lstrip s' else s
  end.

Fixpoint str_rstrip (s : string) : string :=
  match s with
  | EmptyString => EmptyString
  | String c s' =>
      match str_rstrip s' with
      | EmptyString => if es_espacio c then EmptyString else String c EmptyString
      | t => String c t
      end
  end.

Definition str_strip (s : string) : string := str_lstrip (str_rstrip s).

(** Text within ASCII, where the three functions above are Python's. *)
Fixpoint es_ascii (s : string) : bool :=
  match s with
  | EmptyString => true
  | String c s' => (N_of_ascii c <? 128)%N && es_ascii s'
  end.

(* ===================================================================== *)
(** * Keys that [groupby] and [sort_values] can order *)
(* ===================================================================== *)

Class Clave (K : Type) `{EqDecision K} := {
  cle : K → K → bool;
  cle_total : ∀ a b, cle a b = true ∨ cle b a = true;
  cle_trans : ∀ a b c, cle a b = true → cle b c = true → cle a c = true;
  cle_antisym : ∀ a b, cle a b = true → cle b a = true → a = b
}.

#[global] Program Instance Clave_Z : Clave Z := {| cle := Z.leb |}.
Next Obligation. intros a b. lia. Qed.
Next Obligation. intros a b c. lia. Qed.
Next Obligation. intros a b. lia. Qed.

#[global] Program Instance Clave_string : Clave string := {| cle := String.leb |}.
Next Obligation. intros a b. apply String.leb_total. Qed.
Next Obligation.
  intros a b c H1 H2.
  apply Is_true_true. apply Is_true_true in H1, H2.
  exact (transitivity (R := String.le) H1 H2).
Qed.
Next Obligation. intros a b. apply String.leb_antisym. Qed.

(** Lexicographic order on a pair of keys, as for a multi-column key. *)
Definition cle_par {K1 K2} `{Clave K1} `{Clave K2} (a b : K1 * K2) : bool :=
  if decide (a.1 = b.1) then cle a.2 b.2 else cle a.1 b.1.

#[global] Program Instance Clave_par {K1 K2} `{Clave K1} `{Clave K2} :
  Clave (K1 * K2) := {| cle := cle_par |}.
Next Obligation.
  intros K1 ? ? K2 ? ? [a1 a2] [b1 b2]. unfold cle_par; simpl.
  repeat case_decide; subst; try congruence; apply cle_total.
Qed.
Next Obligation.
  intros K1 ? ? K2 ? ? [a1 a2] [b1 b2] [c1 c2]. unfold cle_par; simpl.
  repeat case_decide; subst; try congruence; intros Hab Hbc;
    eauto using cle_trans.
  exfalso. eauto using cle_antisym.
Qed.
Next Obligation.
  intros K1 ? ? K2 ? ? [a1 a2] [b1 b2]. unfold cle_par; simpl.
  repeat case_decide; subst; try congruence; intros Hab Hba.
  - f_equal. apply cle_antisym; assumption.
  - exfalso. eauto using cle_antisym.
Qed.

(* ===================================================================== *)
(** * Stable sorting *)
(* ===================================================================== *)

Section Orden.
Context {A : Type} (le : A → A → bool).

(** [x] goes in front of the first element it does not exceed, hence in
    front of the elements equal to it: a row met earlier stays earlier. *)
Fixpoint insertar (x : A) (l : list A) : list A :=
  match l with
  | [] => [x]
  | y :: l' => if le x y then x :: y :: l' else y :: insertar x l'
  end.

Definition ordenar (l : list A) : list A := foldr insertar [] l.

(** The order of the sorted rows, [R] being the order the rows come in:
    a row stands before another when its key is not larger and, on equal
    keys, when it came first. *)
Definition antes (R : A → A → Prop) (a b : A) : Prop :=
  le a b = true ∧ (le b a = true → R a b).
End Orden.

(** [sort_values(col)] and [sort_values(col, ascending=False)]. *)
Definition sort_values {A K} `{Clave K} (col : A → K) : list A → list A :=
  ordenar (λ a b, cle (col a) (col b)).

Definition sort_values_desc {A K} `{Clave K} (col : A → K) : list A → list A :=
  ordenar (λ a b, cle (col b) (col a)).

(** What a sort by [col] returns whatever the algorithm: the rows it was
    given, each as often, with keys that never decrease (never increase
    for a descending sort).  Rows with equal keys may come in any order. *)
Definition es_orden {A K} `{Clave K} (col : A → K) (l l' : list A) : Prop :=
  l' ≡ₚ l ∧ StronglySorted (λ a b, cle (col a) (col b) = true) l'.

Definition es_orden_desc {A K} `{Clave K} (col : A → K) (l l' : list A) : Prop :=
  l' ≡ₚ l ∧ StronglySorted (λ a b, cle (col b) (col a) = true) l'.

Definition suma {A} (f : A → Z) (l : list A) : Z :=
  foldr (λ x s, f x + s) 0 l.

(** [groupby(key)]: one group per distinct non-missing key, in ascending key
    order, each holding its rows in frame order. *)
Definition claves {A K} `{Clave K} (key : A → option K) (l : list A) : list K :=
  ordenar cle (remove_dups (omap key l)).

Definition grupo {A K} `{EqDecision K} (key : A → option K) (k : K)
    (l : list A) : list A :=
  filter (λ r, key r = Some k) l.

Definition groupby {A K} `{Clave K} (key : A → option K) (l : list A)
    : list (K * list A) :=
  map (λ k, (k, grupo key k l)) (claves key l).

(* ===================================================================== *)
(** * Data model *)
(* ===================================================================== *)

(** A parsed [fecha]; only its calendar fields matter to the report. *)
Record Timestamp := { year : Z; month : Z; day : Z }.

#[global] Instance Timestamp_eq_dec : EqDecision Timestamp.
Proof. solve_decision. Defined.

Definition ts_tupla (t : Timestamp) : Z * (Z * Z) := (year t, (month t, day t)).

#[global] Program Instance Clave_Timestamp : Clave Timestamp :=
  {| cle a b := cle (ts_tupla a) (ts_tupla b) |}.
Next Obligation. intros a b. apply cle_total. Qed.
Next Obligation. intros a b c. apply cle_trans. Qed.
Next Obligation.
  intros [y1 m1 d1] [y2 m2 d2] H1 H2.
  pose proof (cle_antisym _ _ H1 H2) as E. unfold ts_tupla in E; simpl in E.
  congruence.
Qed.

(** A monthly period, the value behind the text [YYYY-MM]. *)
Definition Periodo : Type := Z * Z.

Definition to_period_M (t : Timestamp) : Periodo := (year t, month t).

(** A cell of the [monto] column: missing, a value that [pd.to_numeric]
    reads as the given number of céntimos, or text that it cannot read. *)
Inductive Celda :=
| Nulo
| Numero (v : Z)
| NoNumerico (s : string).

#[global] Instance Celda_eq_dec : EqDecision Celda.
Proof. solve_decision. Defined.

(** One row of the transactions frame.  [None] is a missing value; the two
    derived columns are missing until they are computed. *)
Record Fila := {
  id_movimiento : option Z;
  fecha : option Timestamp;
  producto_id : option Z;
  tipo_operacion : option string;
  monto : Celda;
  moneda : option string;
  contraparte : option string;
  descripcion : option string;
  nombre_producto : option string;
  monto_neto : option Z;
  mes : option Periodo
}.

#[global] Instance Fila_eq_dec : EqDecision Fila.
Proof. solve_decision. Defined.

Record DataFrame := { columnas : list string; filas : list Fila }.

#[global] Instance DataFrame_eq_dec : EqDecision DataFrame.
Proof. solve_decision. Defined.

Record Producto := { p_producto_id : option Z; p_nombre_producto : option string }.

(** Column assignments, one field at a time. *)
Definition con_monto (v : Celda) (r : Fila) : Fila :=
  {| id_movimiento := id_movimiento r; fecha := fecha r;
     producto_id := producto_id r; tipo_operacion := tipo_operacion r;
     monto := v; moneda := moneda r; contraparte := contraparte r;
     descripcion := descripcion r; nombre_producto := nombre_producto r;
     monto_neto := monto_neto r; mes := mes r |}.

Definition con_fecha (v : option Timestamp) (r : Fila) : Fila :=
  {| id_movimiento := id_movimiento r; fecha := v;
     producto_id := producto_id r; tipo_operacion := tipo_operacion r;
     monto := monto r; moneda := moneda r; contraparte := contraparte r;
     descripcion := descripcion r; nombre_producto := nombre_producto r;
     monto_neto := monto_neto r; mes := mes r |}.

Definition con_tipo_operacion (v : option string) (r : Fila) : Fila :=
  {| id_movimiento := id_movimiento r; fecha := fecha r;
     producto_id := producto_id r; tipo_operacion := v;
     monto := monto r; moneda := moneda r; contraparte := contraparte r;
     descripcion := descripcion r; nombre_producto := nombre_producto r;
     monto_neto := monto_neto r; mes := mes r |}.

Definition con_moneda (v : option string) (r : Fila) : Fila :=
  {| id_movimiento := id_movimiento r; fecha := fecha r;
     producto_id := producto_id r; tipo_operacion := tipo_operacion r;
     monto := monto r; moneda := v; contraparte := contraparte r;
     descripcion := descripcion r; nombre_producto := nombre_producto r;
     monto_neto := monto_neto r; mes := mes r |}.

Definition con_nombre_producto (v : option string) (r : Fila) : Fila :=
  {| id_movimiento := id_movimiento r; fecha := fecha r;
     producto_id := producto_id r; tipo_operacion := tipo_operacion r;
     monto := monto r; moneda := moneda r; contraparte := contraparte r;
     descripcion := descripcion r; nombre_producto := v;
     monto_neto := monto_neto r; mes := mes r |}.

Definition con_monto_neto (v : option Z) (r : Fila) : Fila :=
  {| id_movimiento := id_movimiento r; fecha := fecha r;
     producto_id := producto_id r; tipo_operacion := tipo_operacion r;
     monto := monto r; moneda := moneda r; contraparte := contraparte r;
     descripcion := descripcion r; nombre_producto := nombre_producto r;
     monto_neto := v; mes := mes r |}.

Definition con_mes (v : option Periodo) (r : Fila) : Fila :=
  {| id_movimiento := id_movimiento r; fecha := fecha r;
     producto_id := producto_id r; tipo_operacion := tipo_operacion r;
     monto := monto r; moneda := moneda r; contraparte := contraparte r;
     descripcion := descripcion r; nombre_producto := nombre_producto r;
     monto_neto := monto_neto r; mes := v |}.

(** [df[c] = ...]: an existing column keeps its place, a new one goes last. *)
Definition con_columna (c : string) (cols : list string) : list string :=
  if decide (c ∈ cols) then cols else cols ++ [c].

(** [df[c] = f(row)] for every row of the frame, in place. *)
Definition asignar (c : string) (f : Fila → Fila) (d : DataFrame) : DataFrame :=
  {| columnas := con_columna c (columnas d); filas := map f (filas d) |}.

(** A frame with the same columns and a subset of the rows. *)
Definition con_filas (d : DataFrame) (l : list Fila) : DataFrame :=
  {| columnas := columnas d; filas := l |}.

(** The numeric value of a [monto] cell for [sum]: missing values are
    skipped; a cleaned frame holds numbers only. *)
Definition valor (c : Celda) : Z :=
  match c with Numero v => v | _ => 0 end.

Definition es_nulo (c : Celda) : bool :=
  match c with Nulo => true | _ => false end.

(* ===================================================================== *)
(** * Output artefacts *)
(* ===================================================================== *)

Inductive Valor :=
| VNulo
| VEntero (n : Z)
| VMonto (centimos : Z)
| VTexto (s : string)
| VFecha (t : Timestamp)
| VPeriodo (p : Periodo)
| VCelda (c : Celda).

Record Hoja := {
  sheet_name : string;
  encabezado : list string;
  cuerpo : list (list Valor)
}.

(** What the executive summary shows: the period, the counts, the totals
    of each currency, the number of alerts and the name of the report. *)
Record Resumen := {
  r_periodo_desde : option Timestamp;
  r_periodo_hasta : option Timestamp;
  r_total_operaciones : nat;
  r_dias_operativos : nat;
  r_pen_ingresos : Z;
  r_pen_egresos : Z;
  r_pen_flujo_neto : Z;
  r_usd_ingresos : Z;
  r_usd_egresos : Z;
  r_usd_flujo_neto : Z;
  r_alertas : nat;
  r_reporte : string
}.

(** What the program prints.  [MsgResumen] stands for the lines of the
    executive summary, [MsgTiempo] for the line with the elapsed time. *)
Inductive Mensaje :=
| MsgCargando
| MsgCargados (n : nat)
| MsgLimpiando
| MsgEliminados (n : Z)
| MsgCalculando
| MsgKpisCalculados
| MsgExportando (nombre : string)
| MsgExportado
| MsgResumen (r : Resumen)
| MsgTiempo
| MsgCompletado.

(* ===================================================================== *)
(** * The store of frames and the monad of the pipeline *)
(* ===================================================================== *)

(** Frames are objects: a variable holds a reference into [marcos].
    [consola] is what has been printed, oldest first; [archivos] the
    workbooks written, by file name. *)
Record Mundo := {
  marcos : list DataFrame;
  consola : list Mensaje;
  archivos : list (string * list Hoja)
}.

Definition ref := nat.

Definition M (A : Type) : Type := Mundo → option (A * Mundo).

#[global] Instance M_ret : MRet M := λ A a w, Some (a, w).

#[global] Instance M_bind : MBind M := λ A B k m w,
  match m w with
  | Some (a, w') => k a w'
  | None => None
  end.

(** An exception: the run stops and returns nothing. *)
Definition error {A} : M A := λ _, None.

(** A new frame object. *)
Definition nuevo (d : DataFrame) : M ref := λ w,
  Some (length (marcos w),
        {| marcos := marcos w ++ [d]; consola := consola w;
           archivos := archivos w |}).

Definition leer (r : ref) : M DataFrame := λ w,
  match marcos w !! r with
  | Some d => Some (d, w)
  | None => None
  end.

(** In-place update of the frame behind a reference. *)
Definition modificar (r : ref) (f : DataFrame → DataFrame) : M unit := λ w,
  match marcos w !! r with
  | Some d => Some (tt, {| marcos := <[r := f d]> (marcos w);
                           consola := consola w; archivos := archivos w |})
  | None => None
  end.

Definition print (m : Mensaje) : M unit := λ w,
  Some (tt, {| marcos := marcos w; consola := consola w ++ [m];
               archivos := archivos w |}).

Definition guardar (nombre : string) (hojas : list Hoja) : M unit := λ w,
  Some (tt, {| marcos := marcos w; consola := consola w;
               archivos := archivos w ++ [(nombre, hojas)] |}).

(* ===================================================================== *)
(** * 1. Loading: [cargar_datos] *)
(* ===================================================================== *)

Definition columnas_movimientos : list string :=
  ["id_movimiento"; "fecha"; "producto_id"; "tipo_operacion"; "monto";
   "moneda"; "contraparte"; "descripcion"]%string.

(** [df.merge(productos, on="producto_id", how="left")]: every transaction
    is kept, once per matching product, or once with a missing name. *)
Definition merge_left (movs : list Fila) (productos : list Producto) : list Fila :=
  flat_map
    (λ r, match filter (λ p, p_producto_id p = producto_id r) productos with
          | [] => [con_nombre_producto None r]
          | ps => map (λ p, con_nombre_producto (p_nombre_producto p) r) ps
          end)
    movs.

Definition cargar_datos (movimientos : list Fila) (productos : list Producto)
    : M ref :=
  (print MsgCargando ;;
   df ← nuevo {| columnas := columnas_movimientos ++ ["nombre_producto"%string];
                filas := merge_left movimientos productos |};
   d ← leer df;
   print (MsgCargados (length (filas d))) ;;
   mret df).

(* ===================================================================== *)
(** * 2. Cleaning: [limpiar_datos] *)
(* ===================================================================== *)

(** [drop_duplicates(subset="id_movimiento")]: the first row of every
    identifier is kept. *)
Fixpoint drop_duplicates_desde (vistos : list (option Z)) (l : list Fila)
    : list Fila :=
  match l with
  | [] => []
  | r :: l' =>
      if decide (id_movimiento r ∈ vistos) then drop_duplicates_desde vistos l'
      else r :: drop_duplicates_desde (id_movimiento r :: vistos) l'
  end.

Definition drop_duplicates (d : DataFrame) : DataFrame :=
  con_filas d (drop_duplicates_desde [] (filas d)).

(** [dropna(subset=["fecha", "monto", "tipo_operacion", "moneda"])]. *)
Definition criticas_presentes (r : Fila) : bool :=
  bool_decide (fecha r ≠ None) && negb (es_nulo (monto r))
  && bool_decide (tipo_operacion r ≠ None) && bool_decide (moneda r ≠ None).

Definition dropna_criticas (d : DataFrame) : DataFrame :=
  con_filas d (List.filter criticas_presentes (filas d)).

(** [pd.to_numeric(..., errors="coerce")]. *)
Definition to_numeric (c : Celda) : Celda :=
  match c with
  | Numero v => Numero v
  | _ => Nulo
  end.

(** [pd.to_datetime] on a column that is already parsed. *)
Definition to_datetime (t : option Timestamp) : option Timestamp := t.

(** [dropna(subset=["monto"])]. *)
Definition dropna_monto (d : DataFrame) : DataFrame :=
  con_filas d (List.filter (λ r, negb (es_nulo (monto r))) (filas d)).

(** The signed amount: [monto] for an [ingreso], [-monto] otherwise. *)
Definition signo (r : Fila) : Z :=
  if decide (tipo_operacion r = Some "ingreso"%string)
  then valor (monto r) else - valor (monto r).

(** Whether a text column has the dtype [object].  [read_csv] gives it to
    a column in which it finds text, and to every column of a file
    without rows; a column whose values are all missing it types
    [float64].  [.str.lower()] and [.str.upper()] return [object] columns,
    and a cleaned frame has no missing text, so the same test tells the
    dtype of the columns of a cleaned frame. *)
Definition es_texto (col : Fila → option string) (d : DataFrame) : bool :=
  match filas d with
  | [] => true
  | l => existsb (λ r, bool_decide (col r ≠ None)) l
  end.

(** [df[col].str]: [AttributeError] unless the column has the dtype
    [object].  [d] is the frame that fixed the dtype. *)
Definition accesor_str (col : Fila → option string) (d : DataFrame) : M unit :=
  if es_texto col d then mret tt else error.

(** [drop_duplicates] and [dropna] keep the dtype of every column, so at
    lines 57 and 58 the dtype of the two text columns is the one they have
    in the frame that was passed in. *)
Definition limpiar_datos (df : ref) : M ref :=
  (print MsgLimpiando ;;
   d0 ← leer df;
   let registros_antes := length (filas d0) in
   df1 ← nuevo (drop_duplicates d0);
   d1 ← leer df1;
   df2 ← nuevo (dropna_criticas d1);
   modificar df2 (asignar "monto" (λ r, con_monto (to_numeric (monto r)) r)) ;;
   modificar df2 (asignar "fecha" (λ r, con_fecha (to_datetime (fecha r)) r)) ;;
   d2 ← leer df2;
   df3 ← nuevo (dropna_monto d2);
   accesor_str tipo_operacion d0 ;;
   modificar df3 (asignar "tipo_operacion"
     (λ r, con_tipo_operacion (str_strip <$> (str_lower <$> tipo_operacion r)) r)) ;;
   accesor_str moneda d0 ;;
   modificar df3 (asignar "moneda"
     (λ r, con_moneda (str_strip <$> (str_upper <$> moneda r)) r)) ;;
   modificar df3 (asignar "monto_neto" (λ r, con_monto_neto (Some (signo r)) r)) ;;
   d3 ← leer df3;
   let registros_despues := length (filas d3) in
   let eliminados := Z.of_nat registros_antes - Z.of_nat registros_despues in
   print (MsgEliminados eliminados) ;;
   mret df3).

(** The frame that [limpiar_datos] builds when it returns, as a function
    of the frame it is given. *)
Definition limpiar (d : DataFrame) : DataFrame :=
  asignar "monto_neto" (λ r, con_monto_neto (Some (signo r)) r)
   (asignar "moneda" (λ r, con_moneda (str_strip <$> (str_upper <$> moneda r)) r)
    (asignar "tipo_operacion"
       (λ r, con_tipo_operacion (str_strip <$> (str_lower <$> tipo_operacion r)) r)
     (dropna_monto
      (asignar "fecha" (λ r, con_fecha (to_datetime (fecha r)) r)
       (asignar "monto" (λ r, con_monto (to_numeric (monto r)) r)
        (dropna_criticas (drop_duplicates d))))))).

(* ===================================================================== *)
(** * 3. Aggregation: [calcular_kpis] *)
(* ===================================================================== *)

(** ** Aggregation functions over the rows of one group *)

(** [x[df.loc[x.index, "tipo_operacion"] == t].sum()] on the [monto] column. *)
Definition total_tipo (t : string) (g : list Fila) : Z :=
  suma (λ r, valor (monto r)) (filter (λ r, tipo_operacion r = Some t) g).

(** [("monto_neto", "sum")], missing values skipped. *)
Definition sum_monto_neto (g : list Fila) : Z :=
  suma (λ r, default 0 (monto_neto r)) g.

(** [("monto", "sum")]. *)
Definition sum_monto (g : list Fila) : Z :=
  suma (λ r, valor (monto r)) g.

(** [("id_movimiento", "count")]: the identifiers that are present. *)
Definition count_id (g : list Fila) : nat :=
  length (filter (λ r, id_movimiento r ≠ None) g).

(** Nearest integer to [s / n], halves to the even neighbour, for [n > 0]. *)
Definition redondear_div (s n : Z) : Z :=
  let q := s / n in
  let r := s mod n in
  if 2 * r <? n then q
  else if n <? 2 * r then q + 1
  else if Z.even q then q else q + 1.

(** [("monto", "mean")] followed by [.round(2)]: the mean of the amounts
    present, to the céntimo; missing when the group has no amount. *)
Definition mean_monto (g : list Fila) : option Z :=
  let presentes := filter (λ r, es_nulo (monto r) = false) g in
  match presentes with
  | [] => None
  | _ => Some (redondear_div (sum_monto presentes) (Z.of_nat (length presentes)))
  end.

(** ** 3.1 and 3.2 Daily flow with the cumulative balance *)

Record FlujoBase := {
  fd_fecha : Timestamp;
  fd_moneda : string;
  fd_total_ingresos : Z;
  fd_total_egresos : Z;
  fd_flujo_neto : Z;
  fd_n_operaciones : nat
}.

(** A row of [flujo_diario] once [saldo_acumulado] has been assigned. *)
Record FlujoDiario := {
  fd_base : FlujoBase;
  fd_saldo_acumulado : Z
}.

Definition clave_fecha_moneda (r : Fila) : option (Timestamp * string) :=
  f ← fecha r; m ← moneda r; Some (f, m).

Definition agg_flujo (kg : (Timestamp * string) * list Fila) : FlujoBase :=
  {| fd_fecha := kg.1.1; fd_moneda := kg.1.2;
     fd_total_ingresos := total_tipo "ingreso" kg.2;
     fd_total_egresos := total_tipo "egreso" kg.2;
     fd_flujo_neto := sum_monto_neto kg.2;
     fd_n_operaciones := count_id kg.2 |}.

Definition flujo_diario_base (l : list Fila) : list FlujoBase :=
  sort_values (λ r, (fd_fecha r, fd_moneda r))
    (map agg_flujo (groupby clave_fecha_moneda l)).

(** [groupby("moneda")["flujo_neto"].cumsum()], assigned as a column: one
    running total per currency, advanced row by row in frame order. *)
Fixpoint saldo_acumulado (acc : gmap string Z) (l : list FlujoBase)
    : list FlujoDiario :=
  match l with
  | [] => []
  | r :: l' =>
      let s := default 0 (acc !! fd_moneda r) + fd_flujo_neto r in
      {| fd_base := r; fd_saldo_acumulado := s |}
        :: saldo_acumulado (<[fd_moneda r := s]> acc) l'
  end.

Definition flujo_diario (l : list Fila) : list FlujoDiario :=
  saldo_acumulado ∅ (flujo_diario_base l).

(** ** 3.3 Summary by product *)

Record PorProducto := {
  pp_nombre_producto : string;
  pp_moneda : string;
  pp_n_operaciones : nat;
  pp_total_ingresos : Z;
  pp_total_egresos : Z;
  pp_monto_promedio : option Z
}.

Definition clave_producto_moneda (r : Fila) : option (string * string) :=
  p ← nombre_producto r; m ← moneda r; Some (p, m).

Definition agg_producto (kg : (string * string) * list Fila) : PorProducto :=
  {| pp_nombre_producto := kg.1.1; pp_moneda := kg.1.2;
     pp_n_operaciones := count_id kg.2;
     pp_total_ingresos := total_tipo "ingreso" kg.2;
     pp_total_egresos := total_tipo "egreso" kg.2;
     pp_monto_promedio := mean_monto kg.2 |}.

Definition por_producto (l : list Fila) : list PorProducto :=
  sort_values_desc pp_total_ingresos
    (map agg_producto (groupby clave_producto_moneda l)).

(** ** 3.4 Top 10 counterparties *)

Record TopContraparte := {
  tc_contraparte : string;
  tc_n_operaciones : nat;
  tc_volumen_total : Z;
  tc_monto_promedio : option Z
}.

Definition agg_contraparte (kg : string * list Fila) : TopContraparte :=
  {| tc_contraparte := kg.1;
     tc_n_operaciones := count_id kg.2;
     tc_volumen_total := sum_monto kg.2;
     tc_monto_promedio := mean_monto kg.2 |}.

Definition top_contrapartes (l : list Fila) : list TopContraparte :=
  take 10
    (sort_values_desc tc_volumen_total
       (map agg_contraparte (groupby contraparte l))).

(** ** 3.5 Liquidity alerts *)

Record Alerta := {
  al_fecha : Timestamp;
  al_flujo_neto : Z;
  al_saldo_acumulado : Z;
  al_estado : string
}.

Definition ESTADO_ALERTA : string := "⚠ FLUJO NEGATIVO".

Definition alerta_de (r : FlujoDiario) : Alerta :=
  {| al_fecha := fd_fecha (fd_base r);
     al_flujo_neto := fd_flujo_neto (fd_base r);
     al_saldo_acumulado := fd_saldo_acumulado r;
     al_estado := ESTADO_ALERTA |}.

Definition alertas_de (flujo : list FlujoDiario) : list Alerta :=
  let flujo_pen := filter (λ r, fd_moneda (fd_base r) = "PEN"%string) flujo in
  sort_values al_flujo_neto
    (map alerta_de (filter (λ r, fd_flujo_neto (fd_base r) < 0) flujo_pen)).

(** ** 3.6 Monthly summary *)

Record ResumenMensual := {
  rm_mes : Periodo;
  rm_moneda : string;
  rm_total_ingresos : Z;
  rm_total_egresos : Z;
  rm_flujo_neto : Z
}.

Definition clave_mes_moneda (r : Fila) : option (Periodo * string) :=
  p ← mes r; m ← moneda r; Some (p, m).

Definition agg_mes (kg : (Periodo * string) * list Fila) : ResumenMensual :=
  {| rm_mes := kg.1.1; rm_moneda := kg.1.2;
     rm_total_ingresos := total_tipo "ingreso" kg.2;
     rm_total_egresos := total_tipo "egreso" kg.2;
     rm_flujo_neto := sum_monto_neto kg.2 |}.

Definition resumen_mensual (l : list Fila) : list ResumenMensual :=
  map agg_mes (groupby clave_mes_moneda l).

(** [df["mes"] = df["fecha"].dt.to_period("M").astype(str)]. *)
Definition asignar_mes : DataFrame → DataFrame :=
  asignar "mes" (λ r, con_mes (to_period_M <$> fecha r) r).

Record Kpis := {
  k_flujo_diario : list FlujoDiario;
  k_por_producto : list PorProducto;
  k_top_contrapartes : list TopContraparte;
  k_alertas : list Alerta;
  k_resumen_mensual : list ResumenMensual
}.

Definition calcular_kpis (df : ref) : M Kpis :=
  print MsgCalculando ;;
  d ← leer df;
  let flujo := flujo_diario (filas d) in
  let productos := por_producto (filas d) in
  let top := top_contrapartes (filas d) in
  let alertas := alertas_de flujo in
  modificar df asignar_mes ;;
  d' ← leer df;
  let mensual := resumen_mensual (filas d') in
  print MsgKpisCalculados ;;
  mret {| k_flujo_diario := flujo; k_por_producto := productos;
          k_top_contrapartes := top; k_alertas := alertas;
          k_resumen_mensual := mensual |}.

(* ===================================================================== *)
(** * 4. Export: [exportar_excel] *)
(* ===================================================================== *)

Definition valor_opcional {A} (f : A → Valor) (o : option A) : Valor :=
  match o with Some a => f a | None => VNulo end.

(** The cell of a transactions row under a column name. *)
Definition celda_de (r : Fila) (c : string) : Valor :=
  if decide (c = "id_movimiento"%string) then valor_opcional VEntero (id_movimiento r)
  else if decide (c = "fecha"%string) then valor_opcional VFecha (fecha r)
  else if decide (c = "producto_id"%string) then valor_opcional VEntero (producto_id r)
  else if decide (c = "tipo_operacion"%string) then valor_opcional VTexto (tipo_operacion r)
  else if decide (c = "monto"%string) then VCelda (monto r)
  else if decide (c = "moneda"%string) then valor_opcional VTexto (moneda r)
  else if decide (c = "contraparte"%string) then valor_opcional VTexto (contraparte r)
  else if decide (c = "descripcion"%string) then valor_opcional VTexto (descripcion r)
  else if decide (c = "nombre_producto"%string) then valor_opcional VTexto (nombre_producto r)
  else if decide (c = "monto_neto"%string) then valor_opcional VMonto (monto_neto r)
  else if decide (c = "mes"%string) then valor_opcional VPeriodo (mes r)
  else VNulo.

(** [df.drop(columns=cs, errors="ignore")]. *)
Definition drop_columns (cs : list string) (cols : list string) : list string :=
  filter (λ c, c ∉ cs) cols.

Definition hoja_flujo_diario (nombre : string) (l : list FlujoDiario) : Hoja :=
  {| sheet_name := nombre;
     encabezado := ["fecha"; "moneda"; "total_ingresos"; "total_egresos";
                    "flujo_neto"; "n_operaciones"; "saldo_acumulado"]%string;
     cuerpo := map (λ r, [VFecha (fd_fecha (fd_base r));
                          VTexto (fd_moneda (fd_base r));
                          VMonto (fd_total_ingresos (fd_base r));
                          VMonto (fd_total_egresos (fd_base r));
                          VMonto (fd_flujo_neto (fd_base r));
                          VEntero (Z.of_nat (fd_n_operaciones (fd_base r)));
                          VMonto (fd_saldo_acumulado r)]) l |}.

Definition hoja_resumen_mensual (nombre : string) (l : list ResumenMensual) : Hoja :=
  {| sheet_name := nombre;
     encabezado := ["mes"; "moneda"; "total_ingresos"; "total_egresos";
                    "flujo_neto"]%string;
     cuerpo := map (λ r, [VPeriodo (rm_mes r); VTexto (rm_moneda r);
                          VMonto (rm_total_ingresos r);
                          VMonto (rm_total_egresos r);
                          VMonto (rm_flujo_neto r)]) l |}.

Definition hoja_por_producto (nombre : string) (l : list PorProducto) : Hoja :=
  {| sheet_name := nombre;
     encabezado := ["nombre_producto"; "moneda"; "n_operaciones";
                    "total_ingresos"; "total_egresos"; "monto_promedio"]%string;
     cuerpo := map (λ r, [VTexto (pp_nombre_producto r); VTexto (pp_moneda r);
                          VEntero (Z.of_nat (pp_n_operaciones r));
                          VMonto (pp_total_ingresos r);
                          VMonto (pp_total_egresos r);
                          valor_opcional VMonto (pp_monto_promedio r)]) l |}.

Definition hoja_top_contrapartes (nombre : string) (l : list TopContraparte) : Hoja :=
  {| sheet_name := nombre;
     encabezado := ["contraparte"; "n_operaciones"; "volumen_total";
                    "monto_promedio"]%string;
     cuerpo := map (λ r, [VTexto (tc_contraparte r);
                          VEntero (Z.of_nat (tc_n_operaciones r));
                          VMonto (tc_volumen_total r);
                          valor_opcional VMonto (tc_monto_promedio r)]) l |}.

Definition hoja_alertas (nombre : string) (l : list Alerta) : Hoja :=
  {| sheet_name := nombre;
     encabezado := ["fecha"; "flujo_neto"; "saldo_acumulado"; "estado"]%string;
     cuerpo := map (λ r, [VFecha (al_fecha r); VMonto (al_flujo_neto r);
                          VMonto (al_saldo_acumulado r);
                          VTexto (al_estado r)]) l |}.

(** [pd.DataFrame({"mensaje": ["Sin alertas en el período"]})]. *)
Definition hoja_sin_alertas (nombre : string) : Hoja :=
  {| sheet_name := nombre;
     encabezado := ["mensaje"%string];
     cuerpo := [[VTexto "Sin alertas en el período"]] |}.

Definition hoja_datos (nombre : string) (d : DataFrame) : Hoja :=
  let cols := drop_columns ["monto_neto"; "mes"]%string (columnas d) in
  {| sheet_name := nombre;
     encabezado := cols;
     cuerpo := map (λ r, map (celda_de r) cols) (filas d) |}.

(** [frame.to_excel(writer, sheet_name=..., index=False)]: the sheet is
    added after those already in the workbook. *)
Definition to_excel (writer : list Hoja) (h : Hoja) : list Hoja := writer ++ [h].

Section Exportar.
(** The generation date, [datetime.today().strftime("%Y-%m-%d")]. *)
Variable FECHA_HOY : string.

Definition NOMBRE_REPORTE : string :=
  ("reporte_tesoreria_" ++ FECHA_HOY ++ ".xlsx")%string.

Definition exportar_excel (df_raw : ref) (flujo_diario : list FlujoDiario)
    (por_producto : list PorProducto) (top_contrapartes : list TopContraparte)
    (alertas : list Alerta) (resumen_mensual : list ResumenMensual) : M unit :=
  print (MsgExportando NOMBRE_REPORTE) ;;
  d ← leer df_raw;
  let writer := [] in
  let writer := to_excel writer (hoja_flujo_diario "Flujo Diario" flujo_diario) in
  let writer := to_excel writer (hoja_resumen_mensual "Resumen Mensual" resumen_mensual) in
  let writer := to_excel writer (hoja_por_producto "Por Producto" por_producto) in
  let writer := to_excel writer (hoja_top_contrapartes "Top Contrapartes" top_contrapartes) in
  let writer :=
    if decide (0 < length alertas)%nat
    then to_excel writer (hoja_alertas "Alertas Liquidez" alertas)
    else to_excel writer (hoja_sin_alertas "Alertas Liquidez") in
  let writer := to_excel writer (hoja_datos "Data Completa" d) in
  guardar NOMBRE_REPORTE writer ;;
  print MsgExportado.
End Exportar.

(** The sheet names, in the order of the report, with the names the
    specification gives them. *)
Definition HOJAS_DEL_REPORTE : list (string * string) :=
  [("Flujo Diario", "Daily Flow"); ("Resumen Mensual", "Monthly Summary");
   ("Por Producto", "By Product"); ("Top Contrapartes", "Top Counterparties");
   ("Alertas Liquidez", "Liquidity Alerts"); ("Data Completa", "Full Data")]%string.

(* ===================================================================== *)
(** * 5. Console summary: [imprimir_resumen] and the main program *)
(* ===================================================================== *)

(** [df["fecha"].min()] and [df["fecha"].max()], missing dates skipped;
    missing on a frame that has no date. *)
Definition fecha_min (l : list Fila) : option Timestamp :=
  foldr (λ f acc, match acc with
                  | None => Some f
                  | Some g => Some (if cle f g then f else g)
                  end) None (omap fecha l).

Definition fecha_max (l : list Fila) : option Timestamp :=
  foldr (λ f acc, match acc with
                  | None => Some f
                  | Some g => Some (if cle f g then g else f)
                  end) None (omap fecha l).

(** [df["fecha"].nunique()]. *)
Definition nunique_fecha (l : list Fila) : nat :=
  length (remove_dups (omap fecha l)).

(** The summary reads the frame and the daily flow and prints. *)
Definition imprimir_resumen (FECHA_HOY : string) (df : ref)
    (flujo_diario : list FlujoDiario) (alertas : list Alerta) : M unit :=
  d ← leer df;
  let pen := filter (λ v, fd_moneda (fd_base v) = "PEN"%string) flujo_diario in
  let usd := filter (λ v, fd_moneda (fd_base v) = "USD"%string) flujo_diario in
  print (MsgResumen
       {| r_periodo_desde := fecha_min (filas d);
          r_periodo_hasta := fecha_max (filas d);
          r_total_operaciones := length (filas d);
          r_dias_operativos := nunique_fecha (filas d);
          r_pen_ingresos := suma (λ v, fd_total_ingresos (fd_base v)) pen;
          r_pen_egresos := suma (λ v, fd_total_egresos (fd_base v)) pen;
          r_pen_flujo_neto := suma (λ v, fd_flujo_neto (fd_base v)) pen;
          r_usd_ingresos := suma (λ v, fd_total_ingresos (fd_base v)) usd;
          r_usd_egresos := suma (λ v, fd_total_egresos (fd_base v)) usd;
          r_usd_flujo_neto := suma (λ v, fd_flujo_neto (fd_base v)) usd;
          r_alertas := length alertas;
          r_reporte := NOMBRE_REPORTE FECHA_HOY |}).

(** The main program: load, clean, aggregate, export, summarise, and the
    two closing lines. *)
Definition main (FECHA_HOY : string) (movimientos : list Fila)
    (productos : list Producto) : M unit :=
  df ← cargar_datos movimientos productos;
  df ← limpiar_datos df;
  k ← calcular_kpis df;
  exportar_excel FECHA_HOY df (k_flujo_diario k) (k_por_producto k)
    (k_top_contrapartes k) (k_alertas k) (k_resumen_mensual k) ;;
  imprimir_resumen FECHA_HOY df (k_flujo_diario k) (k_alertas k) ;;
  print MsgTiempo ;;
  print MsgCompletado.

(* ===================================================================== *)
(** * Amounts as binary64 numbers *)
(* ===================================================================== *)

(** The frame holds [monto] and [monto_neto] as [float64] columns.  This
    section gives the net flow and the cumulative balance of the daily
    flow (lines 77 to 90) with the arithmetic of binary64: 53 bits of
    precision, rounding to nearest, ties to even. *)
Module Binary64.
Import SpecFloat.

Definition f64 : Type := spec_float.
Definition prec : Z := 53.
Definition emax : Z := 1024.

Definition cero : f64 := S754_zero false.
Definition mas (x y : f64) : f64 := SFadd prec emax x y.
Definition menos (x y : f64) : f64 := SFsub prec emax x y.
Definition de_entero (n : Z) : f64 := binary_normalize prec emax n 0 false.

(** The number that [read_csv] makes of a decimal text with two places,
    [c] being its céntimos: the digits as a whole number, divided by
    [10 ** 2]. *)
Definition de_centimos (c : Z) : f64 :=
  SFdiv prec emax (de_entero c) (de_entero 100).

(** The number of [n] quarters. *)
Definition cuartos (n : Z) : f64 := binary_normalize prec emax n (-2) false.

(** A sum accumulated from left to right, as [Series.sum] adds a short
    column. *)
Definition sum (l : list f64) : f64 := fold_left mas l cero.

(** One step of Kahan's compensated summation, as in the grouped [sum] and
    [cumsum] kernels of pandas: the running sum and its compensation. *)
Definition kahan (sc : f64 * f64) (x : f64) : f64 * f64 :=
  let y := menos x sc.2 in
  let t := mas sc.1 y in
  (t, menos (menos t sc.1) y).

Definition sum_kahan (l : list f64) : f64 := (fold_left kahan l (cero, cero)).1.

(** The two ways in which the program adds a column up. *)
Definition es_suma (Σ : list f64 → f64) : Prop := Σ = sum ∨ Σ = sum_kahan.

(** The column [monto_neto] of a list of rows, missing values skipped. *)
Definition montos_netos (g : list Fila) : list f64 :=
  map de_centimos (omap monto_neto g).

Record FlujoDiario := {
  fd_fecha : Timestamp;
  fd_moneda : string;
  fd_flujo_neto : f64;
  fd_saldo_acumulado : f64
}.

(** [flujo_neto=("monto_neto", "sum")] over the groups of (date,
    currency), sorted by that key. *)
Definition flujo_diario_base (l : list Fila)
    : list ((Timestamp * string) * f64) :=
  sort_values fst
    (map (λ kg, (kg.1, sum_kahan (montos_netos kg.2)))
       (groupby clave_fecha_moneda l)).

(** [groupby("moneda")["flujo_neto"].cumsum()]: one running sum, with its
    compensation, per currency. *)
Fixpoint saldo_acumulado (acc : gmap string (f64 * f64))
    (l : list ((Timestamp * string) * f64)) : list FlujoDiario :=
  match l with
  | [] => []
  | (k, neto) :: l' =>
      let sc := kahan (default (cero, cero) (acc !! k.2)) neto in
      {| fd_fecha := k.1; fd_moneda := k.2; fd_flujo_neto := neto;
         fd_saldo_acumulado := sc.1 |}
        :: saldo_acumulado (<[k.2 := sc]> acc) l'
  end.

Definition flujo_diario (l : list Fila) : list FlujoDiario :=
  saldo_acumulado ∅ (flujo_diario_base l).

(** A mantissa with [t] zero bits appended, and the sign and the mantissa
    of a whole number that is not zero. *)
Definition desplazar (p : positive) (t : nat) : positive := Nat.iter t xO p.
Definition signo_de (z : Z) : bool := z <? 0.
Definition mantisa_de (z : Z) : positive := Z.to_pos (Z.abs z).

(** An amount that binary64 holds: a whole number of quarters, in
    céntimos, below 2^53. *)
Definition exacto (c : Z) : Prop := (25 | c) ∧ Z.abs c < 2 ^ 53.

End Binary64.

(** The binary64 row of a row of the daily flow in céntimos. *)
Definition de_exacto (v : FlujoDiario) : Binary64.FlujoDiario :=
  {| Binary64.fd_fecha := fd_fecha (fd_base v);
     Binary64.fd_moneda := fd_moneda (fd_base v);
     Binary64.fd_flujo_neto := Binary64.de_centimos (fd_flujo_neto (fd_base v));
     Binary64.fd_saldo_acumulado := Binary64.de_centimos (fd_saldo_acumulado v) |}.

(* ===================================================================== *)
(** * The generator: [generar_datos.py] *)
(* ===================================================================== *)

Module Generador.

(** A [date] is its proleptic Gregorian ordinal ([date.toordinal]), from
    1 for [date.min] to [date_max] for [date.max], the last day of the
    year 9999; comparison is that of the ordinals. *)
Definition date_2024_01_01 : Z := 738886.
Definition date_2024_12_31 : Z := 739251.
Definition date_max : Z := 3652059.

(** [d.weekday()]: 0 is Monday, 6 is Sunday. *)
Definition weekday (d : Z) : Z := (d + 6) mod 7.

(** The parameters and the catalogue at the top of the script. *)
Record Config := {
  FECHA_INICIO : Z;
  FECHA_FIN : Z;
  N_REGISTROS : Z;
  PRODUCTOS : list (Z * string)
}.

Definition CONFIG : Config :=
  {| FECHA_INICIO := date_2024_01_01;
     FECHA_FIN := date_2024_12_31;
     N_REGISTROS := 500;
     PRODUCTOS := [(1, "Depósito a Plazo"); (2, "Overnight");
                   (3, "Cuenta Corriente"); (4, "Repo");
                   (5, "Línea de Crédito")]%string |}.

Definition MONEDAS : list string := ["PEN"; "USD"]%string.
Definition TIPOS_OP : list string := ["ingreso"; "egreso"]%string.
Definition CONTRAPARTES : list string :=
  ["BCP"; "BBVA"; "Interbank"; "Scotiabank"; "Citibank"; "BCRP";
   "Cliente A"; "Cliente B"; "Cliente C"]%string.

Record Registro := {
  g_id_movimiento : Z;
  g_fecha : Z;
  g_producto_id : Z;
  g_tipo_operacion : string;
  g_monto : Z;
  g_moneda : string;
  g_contraparte : string;
  g_descripcion : string
}.

Inductive Csv :=
| CsvMovimientos (l : list Registro)
| CsvProductos (l : list (Z * string)).

Inductive Excepcion :=
| IndexError
| KeyError (k : string)
| OverflowError.

Inductive Linea :=
| LineaMovimientos (n : nat)
| LineaProductos (n : nat)
| LineaPrimerasFilas (l : list Registro).

(** What the script has consumed and produced so far: the number of
    random draws taken, the files written, the lines printed. *)
Record Estado := {
  extraidos : nat;
  escritos : list (string * Csv);
  impreso : list Linea
}.

Definition ESTADO_INICIAL : Estado :=
  {| extraidos := 0; escritos := []; impreso := [] |}.

(** A computation either raises or returns; the state reached is kept in
    both cases, since what was written before an exception stays written. *)
Definition G (A : Type) : Type := Estado → (Excepcion + A) * Estado.

#[global] Instance G_ret : MRet G := λ A a s, (inr a, s).

#[global] Instance G_bind : MBind G := λ A B k m s,
  match m s with
  | (inr a, s') => k a s'
  | (inl e, s') => (inl e, s')
  end.

Definition raise {A} (e : Excepcion) : G A := λ s, (inl e, s).

Definition to_csv (ruta : string) (c : Csv) : G unit := λ s,
  (inr tt, {| extraidos := extraidos s;
              escritos := escritos s ++ [(ruta, c)];
              impreso := impreso s |}).

Definition print (l : Linea) : G unit := λ s,
  (inr tt, {| extraidos := extraidos s; escritos := escritos s;
              impreso := impreso s ++ [l] |}).

(** [d + timedelta(days=1)]: [OverflowError] past [date.max]. *)
Definition mas_un_dia (d : Z) : G Z :=
  if decide (d < date_max) then mret (d + 1) else raise OverflowError.

(** The loop [while d <= FECHA_FIN], [n] bounding the number of times its
    condition is tested. *)
Fixpoint bucle_fechas (n : nat) (fin d : Z) (fechas_habiles : list Z)
    : G (list Z) :=
  match n with
  | O => mret fechas_habiles
  | S n' =>
      if decide (d ≤ fin) then
        let fechas_habiles :=
          if weekday d <? 5 then fechas_habiles ++ [d] else fechas_habiles in
        d ← mas_un_dia d;
        bucle_fechas n' fin d fechas_habiles
      else mret fechas_habiles
  end.

(** Lines 39 to 44.  The condition is tested once per day of the range
    and once more, when it fails. *)
Definition generar_fechas (c : Config) : G (list Z) :=
  bucle_fechas (S (Z.to_nat (FECHA_FIN c - FECHA_INICIO c + 1)))
    (FECHA_FIN c) (FECHA_INICIO c) [].

(** The list that the loop builds when it ends: the business days among
    the [n] days from [d] on. *)
Fixpoint dias_habiles (d : Z) (n : nat) : list Z :=
  match n with
  | O => []
  | S n' =>
      (if weekday d <? 5 then [d] else []) ++ dias_habiles (d + 1) n'
  end.

Definition fechas_habiles (c : Config) : list Z :=
  dias_habiles (FECHA_INICIO c) (Z.to_nat (FECHA_FIN c - FECHA_INICIO c + 1)).

Section Azar.
(** The stream of draws of the seeded generator ([random.seed(42)]). *)
Variable azar : nat → nat.

Definition extraer : G nat := λ s,
  (inr (azar (extraidos s)),
   {| extraidos := S (extraidos s); escritos := escritos s;
      impreso := impreso s |}).

(** [random.choice(seq)]: [IndexError] on an empty sequence. *)
Definition choice {A} (seq : list A) : G A :=
  match seq with
  | [] => raise IndexError
  | x :: _ => u ← extraer; mret (nth (u mod length seq)%nat seq x)
  end.

(** [random.choices(MONEDAS, weights=[0.6, 0.4])[0]]. *)
Definition choices_moneda : G string :=
  u ← extraer;
  mret (if (u mod 10 <? 6)%nat then "PEN"%string else "USD"%string).

(** [round(random.uniform(a, b), 2)], bounds in whole units, result in
    céntimos. *)
Definition uniform (a b : Z) : G Z :=
  u ← extraer;
  mret (a * 100 + Z.of_nat u mod ((b - a) * 100 + 1)).

(** [PRODUCTOS[k]]. *)
Definition producto (c : Config) (k : Z) : G string :=
  match filter (λ kv, kv.1 = k) (PRODUCTOS c) with
  | kv :: _ => mret kv.2
  | [] => raise (KeyError "producto_id")
  end.

Definition registro (c : Config) (fechas_habiles : list Z) (i : Z)
    : G Registro :=
  fecha ← choice fechas_habiles;
  producto_id ← choice (map fst (PRODUCTOS c));
  tipo_op ← choice TIPOS_OP;
  moneda ← choices_moneda;
  monto ← (if decide (producto_id = 2) then uniform 500000 5000000
           else if decide (producto_id = 4) then uniform 200000 2000000
           else if decide (producto_id = 1) then uniform 50000 1000000
           else uniform 5000 300000);
  contraparte ← choice CONTRAPARTES;
  nombre ← producto c producto_id;
  mret {| g_id_movimiento := i; g_fecha := fecha;
          g_producto_id := producto_id; g_tipo_operacion := tipo_op;
          g_monto := monto; g_moneda := moneda;
          g_contraparte := contraparte;
          g_descripcion := (nombre ++ " - " ++ contraparte)%string |}.

(** [for i in range(1, N_REGISTROS + 1): ... registros.append(...)]. *)
Fixpoint construir (c : Config) (fechas_habiles : list Z) (ids : list Z)
    (registros : list Registro) : G (list Registro) :=
  match ids with
  | [] => mret registros
  | i :: ids' =>
      r ← registro c fechas_habiles i;
      construir c fechas_habiles ids' (registros ++ [r])
  end.

Definition range_1 (n : Z) : list Z :=
  map (λ i, Z.of_nat i) (seq 1 (Z.to_nat n)).

(** [pd.DataFrame(registros).sort_values("fecha")]: a frame built from
    no record has no column, and sorting it by one raises. *)
Definition ordenar_por_fecha (registros : list Registro) : G (list Registro) :=
  match registros with
  | [] => raise (KeyError "fecha")
  | _ => mret (sort_values g_fecha registros)
  end.

Definition generar (c : Config) : G unit :=
  fechas_habiles ← generar_fechas c;
  registros ← construir c fechas_habiles (range_1 (N_REGISTROS c)) [];
  df ← ordenar_por_fecha registros;
  let df_productos := PRODUCTOS c in
  to_csv "data/movimientos.csv" (CsvMovimientos df) ;;
  to_csv "data/productos.csv" (CsvProductos df_productos) ;;
  print (LineaMovimientos (length df)) ;;
  print (LineaProductos (length df_productos)) ;;
  print (LineaPrimerasFilas (take 5 df)).
End Azar.

(** The configurations the specification calls misuse. *)
Definition catalogo_vacio (c : Config) : Prop := PRODUCTOS c = [].
Definition rango_invertido (c : Config) : Prop := FECHA_FIN c < FECHA_INICIO c.

(** A range that the loop cannot leave: after its last day, which is
    [date.max], there is no day to step to. *)
Definition desborda (c : Config) : Prop :=
  FECHA_INICIO c ≤ FECHA_FIN c ∧ date_max ≤ FECHA_FIN c.

(** The specification's wording: the generator fails on misuse only. *)
Definition solo_mal_uso (azar : nat → nat) (c : Config) : Prop :=
  ∀ s e s', generar azar c s = (inl e, s') →
    catalogo_vacio c ∨ rango_invertido c.

(** The original parameters but for the range, which is the week-end of
    6 and 7 January 2024. *)
Definition date_2024_01_06 : Z := 738891.
Definition date_2024_01_07 : Z := 738892.

Definition CONFIG_FIN_DE_SEMANA : Config :=
  {| FECHA_INICIO := date_2024_01_06;
     FECHA_FIN := date_2024_01_07;
     N_REGISTROS := N_REGISTROS CONFIG;
     PRODUCTOS := PRODUCTOS CONFIG |}.

Definition CONFIG_SIN_CATALOGO : Config :=
  {| FECHA_INICIO := FECHA_INICIO CONFIG;
     FECHA_FIN := FECHA_FIN CONFIG;
     N_REGISTROS := N_REGISTROS CONFIG;
     PRODUCTOS := [] |}.

(** A computation that returns, [P] holding of its result, without
    writing a file or printing. *)
Definition exito {A} (m : G A) (P : A → Prop) : Prop :=
  ∀ s, ∃ a s', m s = (inr a, s') ∧ escritos s' = escritos s
               ∧ impreso s' = impreso s ∧ P a.

(** A computation that raises [e] without having written a file or
    printed. *)
Definition fallo {A} (m : G A) (e : Excepcion) : Prop :=
  ∀ s, ∃ s', m s = (inl e, s') ∧ escritos s' = escritos s
             ∧ impreso s' = impreso s.

(** The bounds, in whole units, between which the amount of a product is
    drawn. *)
Definition rango_monto (producto_id : Z) : Z * Z :=
  if decide (producto_id = 2) then (500000, 5000000)
  else if decide (producto_id = 4) then (200000, 2000000)
  else if decide (producto_id = 1) then (50000, 1000000)
  else (5000, 300000).

(** What holds of every record the generator builds. *)
Record registro_valido (c : Config) (r : Registro) : Prop := {
  valido_fecha : FECHA_INICIO c ≤ g_fecha r ≤ FECHA_FIN c
                 ∧ 0 ≤ weekday (g_fecha r) < 5;
  valido_producto : g_producto_id r ∈ map fst (PRODUCTOS c);
  valido_tipo : g_tipo_operacion r ∈ TIPOS_OP;
  valido_moneda : g_moneda r ∈ MONEDAS;
  valido_monto : (rango_monto (g_producto_id r)).1 * 100 ≤ g_monto r
                 ∧ g_monto r ≤ (rango_monto (g_producto_id r)).2 * 100;
  valido_contraparte : g_contraparte r ∈ CONTRAPARTES;
  valido_descripcion :
    ∃ nombre, (g_producto_id r, nombre) ∈ PRODUCTOS c
              ∧ g_descripcion r = (nombre ++ " - " ++ g_contraparte r)%string
}.

(** The original parameters but for the range, which runs from Friday
    5 to Monday 8 January 2024. *)
Definition date_2024_01_05 : Z := 738890.
Definition date_2024_01_08 : Z := 738893.

Definition CONFIG_FIN_DE_SEMANA_LARGO : Config :=
  {| FECHA_INICIO := date_2024_01_05;
     FECHA_FIN := date_2024_01_08;
     N_REGISTROS := N_REGISTROS CONFIG;
     PRODUCTOS := PRODUCTOS CONFIG |}.

(** The original parameters but for the range, which is the last two days
    of the year 9999. *)
Definition CONFIG_DATE_MAX : Config :=
  {| FECHA_INICIO := date_max - 1;
     FECHA_FIN := date_max;
     N_REGISTROS := N_REGISTROS CONFIG;
     PRODUCTOS := PRODUCTOS CONFIG |}.

(** The original parameters with three records instead of 500. *)
Definition CONFIG_TRES : Config :=
  {| FECHA_INICIO := FECHA_INICIO CONFIG;
     FECHA_FIN := FECHA_FIN CONFIG;
     N_REGISTROS := 3;
     PRODUCTOS := PRODUCTOS CONFIG |}.

End Generador.

(* ===================================================================== *)
(** * Vocabulary of the properties *)
(* ===================================================================== *)

(** The row that cleaning makes of a row it keeps. *)
Definition normalizar (r : Fila) : Fila :=
  let r := con_fecha (to_datetime (fecha r)) (con_monto (to_numeric (monto r)) r) in
  let r := con_tipo_operacion (str_strip <$> (str_lower <$> tipo_operacion r)) r in
  let r := con_moneda (str_strip <$> (str_upper <$> moneda r)) r in
  con_monto_neto (Some (signo r)) r.

(** The rows that the two [dropna] steps keep. *)
Definition aceptable (r : Fila) : bool :=
  criticas_presentes r && negb (es_nulo (to_numeric (monto r))).

(** The frames on which [limpiar_datos] returns: both text columns have
    the dtype [object]. *)
Definition columnas_de_texto (d : DataFrame) : bool :=
  es_texto tipo_operacion d && es_texto moneda d.

(** The tables whose operation types and currencies are ASCII text. *)
Definition texto_ascii (l : list Fila) : bool :=
  forallb (λ r, from_option es_ascii true (tipo_operacion r)
                && from_option es_ascii true (moneda r)) l.

(** The tables whose amounts binary64 adds without rounding.  Every
    amount is a multiple of 0.25, hence a binary fraction, and the
    magnitudes add up to fewer than 2^53 céntimos: the digits of an amount
    are a whole number that binary64 holds, and whatever amounts are added
    or subtracted, in whatever order, every intermediate result is a
    number of quarters below 2^53, which binary64 holds as well. *)
Definition montos_exactos (l : list Fila) : bool :=
  forallb (λ r, valor (monto r) mod 25 =? 0) l
  && (suma (λ r, Z.abs (valor (monto r))) l <? 2 ^ 53).

(** The same of the signed amounts of a list of rows. *)
Definition netos_exactos (l : list Fila) : Prop :=
  (∀ r, r ∈ l → (25 | default 0 (monto_neto r)))
  ∧ suma (λ r, Z.abs (default 0 (monto_neto r))) l < 2 ^ 53.

(** What holds of every row of a cleaned frame. *)
Record fila_limpia (r : Fila) : Prop := {
  limpia_fecha : is_Some (fecha r);
  limpia_monto : ∃ v, monto r = Numero v;
  limpia_tipo : is_Some (tipo_operacion r);
  limpia_moneda : is_Some (moneda r);
  limpia_monto_neto : monto_neto r = Some (signo r)
}.

(** Totals over the cleaned transactions of one currency. *)
Definition de_moneda (c : string) (l : list Fila) : list Fila :=
  filter (λ r, moneda r = Some c) l.

Definition total_global (t c : string) (l : list Fila) : Z :=
  total_tipo t (de_moneda c l).

Definition neto_global (c : string) (l : list Fila) : Z :=
  sum_monto_neto (de_moneda c l).

(** The per-currency total of a column of a view. *)
Definition suma_moneda {V} (vmon : V → string) (vtot : V → Z) (c : string)
    (vista : list V) : Z :=
  suma vtot (filter (λ v, vmon v = c) vista).

(** Load, clean and aggregate, as the main program does. *)
Definition cargar_limpiar_calcular (movimientos : list Fila)
    (productos : list Producto) : M (ref * Kpis) :=
  df ← cargar_datos movimientos productos;
  df ← limpiar_datos df;
  k ← calcular_kpis df;
  mret (df, k).

(** The (date, currency) key of a row of the daily flow. *)
Definition clave_flujo (r : FlujoBase) : Timestamp * string :=
  (fd_fecha r, fd_moneda r).

(** The five views as a function of the frame that [calcular_kpis] is
    given. *)
Definition kpis_de (d : DataFrame) : Kpis :=
  {| k_flujo_diario := flujo_diario (filas d);
     k_por_producto := por_producto (filas d);
     k_top_contrapartes := top_contrapartes (filas d);
     k_alertas := alertas_de (flujo_diario (filas d));
     k_resumen_mensual := resumen_mensual (filas (asignar_mes d)) |}.

(** The position of the first row of a counterparty in the table. *)
Definition primera_aparicion (c : string) (l : list Fila) : option nat :=
  fst <$> list_find (λ r, contraparte r = Some c) l.

(** Ties broken by input order: of two rows of the view with the same
    volume, the one shown first belongs to the counterparty met first in
    the table. *)
Definition desempate_por_entrada (l : list Fila) (top : list TopContraparte)
    : Prop :=
  ∀ i j a b, top !! i = Some a → top !! j = Some b → (i < j)%nat →
    tc_volumen_total a = tc_volumen_total b →
    ∃ pa pb, primera_aparicion (tc_contraparte a) l = Some pa
             ∧ primera_aparicion (tc_contraparte b) l = Some pb
             ∧ (pa < pb)%nat.

(** The volume as the specification words it: the sum of the magnitudes
    of the amounts of the counterparty's rows. *)
Definition magnitudes (g : list Fila) : Z :=
  suma (λ r, Z.abs (valor (monto r))) g.

Definition volumen_en_magnitudes (l : list Fila) (top : list TopContraparte)
    : Prop :=
  ∀ v, v ∈ top →
    tc_volumen_total v = magnitudes (grupo contraparte (tc_contraparte v) l).

(** The top-counterparties view as the specification words it: volumes
    in magnitudes, ties broken by the order of the counterparties in the
    table. *)
Definition top_segun_especificacion (l : list Fila) (top : list TopContraparte)
    : Prop :=
  (length top ≤ 10)%nat
  ∧ NoDup (map tc_contraparte top)
  ∧ volumen_en_magnitudes l top
  ∧ StronglySorted (λ a b, tc_volumen_total b ≤ tc_volumen_total a) top
  ∧ desempate_por_entrada l top.

(** The views that lines 107 to 117 can return, whatever order the sort
    gives to counterparties of equal volume. *)
Definition es_top_contrapartes (l : list Fila) (top : list TopContraparte)
    : Prop :=
  ∃ ordenado,
    es_orden_desc tc_volumen_total
      (map agg_contraparte (groupby contraparte l)) ordenado
    ∧ top = take 10 ordenado.

(** Purity as the specification words it: after the call the caller's
    frame is what it was. *)
Definition calcular_kpis_puro (w : Mundo) (df : ref) : Prop :=
  ∀ k w', calcular_kpis df w = Some (k, w') → marcos w' !! df = marcos w !! df.

(** A row without its two derived columns. *)
Definition sin_derivadas (r : Fila) : Fila :=
  con_monto_neto None (con_mes None r).

(** The columns that the full-data sheet leaves out. *)
Definition COLUMNAS_DERIVADAS : list string := ["monto_neto"; "mes"]%string.

(** The summary as a function of the frame and the views it is given. *)
Definition resumen_de (FECHA_HOY : string) (d : DataFrame)
    (flujo_diario : list FlujoDiario) (alertas : list Alerta) : Resumen :=
  let pen := filter (λ v, fd_moneda (fd_base v) = "PEN"%string) flujo_diario in
  let usd := filter (λ v, fd_moneda (fd_base v) = "USD"%string) flujo_diario in
  {| r_periodo_desde := fecha_min (filas d);
     r_periodo_hasta := fecha_max (filas d);
     r_total_operaciones := length (filas d);
     r_dias_operativos := nunique_fecha (filas d);
     r_pen_ingresos := suma (λ v, fd_total_ingresos (fd_base v)) pen;
     r_pen_egresos := suma (λ v, fd_total_egresos (fd_base v)) pen;
     r_pen_flujo_neto := suma (λ v, fd_flujo_neto (fd_base v)) pen;
     r_usd_ingresos := suma (λ v, fd_total_ingresos (fd_base v)) usd;
     r_usd_egresos := suma (λ v, fd_total_egresos (fd_base v)) usd;
     r_usd_flujo_neto := suma (λ v, fd_flujo_neto (fd_base v)) usd;
     r_alertas := length alertas;
     r_reporte := NOMBRE_REPORTE FECHA_HOY |}.

(** ** Example data *)

Definition fila_csv (i : Z) (y m d : Z) (p : Z) (t : string) (v : Z)
    (c : string) (cp : string) : Fila :=
  {| id_movimiento := Some i;
     fecha := Some {| year := y; month := m; day := d |};
     producto_id := Some p; tipo_operacion := Some t; monto := Numero v;
     moneda := Some c; contraparte := Some cp;
     descripcion := Some cp; nombre_producto := None;
     monto_neto := None; mes := None |}.

Definition productos_ejemplo : list Producto :=
  [{| p_producto_id := Some 1; p_nombre_producto := Some "Depósito a Plazo"%string |};
   {| p_producto_id := Some 2; p_nombre_producto := Some "Overnight"%string |}].

(** The three transactions of the end-to-end example: 100.00 PEN in and
    40.00 PEN out on 2024-01-02, 50.00 USD in on 2024-01-03. *)
Definition movimientos_ejemplo : list Fila :=
  [fila_csv 1 2024 1 2 1 "ingreso" 10000 "PEN" "BCP";
   fila_csv 2 2024 1 2 1 "egreso" 4000 "PEN" "BBVA";
   fila_csv 3 2024 1 3 2 "ingreso" 5000 "USD" "BCP"]%string.

(** A raw table: a repeated identifier, a row without currency, an amount
    that is not a number, text to normalise, and an operation type that is
    neither income nor expense. *)
Definition movimientos_sucios : list Fila :=
  [fila_csv 1 2024 1 2 1 " Ingreso " 10000 "pen" "BCP";
   fila_csv 1 2024 1 2 1 "ingreso" 99900 "PEN" "BCP";
   con_moneda None (fila_csv 2 2024 1 3 1 "egreso" 4000 "PEN" "BBVA");
   con_monto (NoNumerico "n/d") (fila_csv 3 2024 1 3 2 "egreso" 0 "USD" "BCP");
   fila_csv 4 2024 1 4 2 "Transferencia" 7000 "PEN " "BBVA";
   fila_csv 5 2024 2 1 2 "EGRESO" 2500 "usd" "Interbank"]%string.

(** One income of 100.00 PEN on a product that the catalogue lacks. *)
Definition movimientos_sin_producto : list Fila :=
  [fila_csv 1 2024 1 2 9 "ingreso" 10000 "PEN" "BCP"]%string.

(** Three counterparties whose amounts add up to 100.00 each.  Interbank
    comes first in the table, with 150.00 and an expense entered as
    -50.00; BBVA and Scotiabank follow. *)
Definition movimientos_empate : list Fila :=
  [fila_csv 1 2024 1 2 1 "ingreso" 15000 "PEN" "Interbank";
   fila_csv 2 2024 1 2 1 "ingreso" 10000 "PEN" "BBVA";
   fila_csv 3 2024 1 3 1 "ingreso" 10000 "PEN" "Scotiabank";
   fila_csv 4 2024 1 3 1 "egreso" (-5000) "PEN" "Interbank"]%string.


Definition marco_de (l : list Fila) : DataFrame :=
  {| columnas := columnas_movimientos ++ ["nombre_producto"%string];
     filas := l |}.

Definition mundo_con (d : DataFrame) : Mundo :=
  {| marcos := [d]; consola := []; archivos := [] |}.

Definition MUNDO_INICIAL : Mundo :=
  {| marcos := []; consola := []; archivos := [] |}.

(* ===================================================================== *)
(** * Properties *)
(* ===================================================================== *)

(** ** Text normalisation *)

Lemma es_espacio_lower c : es_espacio (ascii_lower c) = es_espacio c.
Proof. destruct c as [[] [] [] [] [] [] [] []]; reflexivity. Qed.

Lemma es_espacio_upper c : es_espacio (ascii_upper c) = es_espacio c.
Proof. destruct c as [[] [] [] [] [] [] [] []]; reflexivity. Qed.

Lemma ascii_lower_idem c : ascii_lower (ascii_lower c) = ascii_lower c.
Proof. destruct c as [[] [] [] [] [] [] [] []]; reflexivity. Qed.

Lemma ascii_upper_idem c : ascii_upper (ascii_upper c) = ascii_upper c.
Proof. destruct c as [[] [] [] [] [] [] [] []]; reflexivity. Qed.

Section TextoLemas.
Variable f : ascii → ascii.
Hypothesis f_espacio : ∀ c, es_espacio (f c) = es_espacio c.
Hypothesis f_idem : ∀ c, f (f c) = f c.

Lemma str_map_idem s : str_map f (str_map f s) = str_map f s.
Proof. induction s as [|c s IH]; simpl; [done|]. by rewrite f_idem, IH. Qed.

Lemma str_lstrip_map s : str_lstrip (str_map f s) = str_map f (str_lstrip s).
Proof.
  induction s as [|c s IH]; simpl; [done|].
  rewrite f_espacio. destruct (es_espacio c); [exact IH | done].
Qed.

Lemma str_rstrip_map s : str_rstrip (str_map f s) = str_map f (str_rstrip s).
Proof.
  induction s as [|c s IH]; simpl; [done|].
  rewrite IH, f_espacio.
  destruct (str_rstrip s); simpl; [destruct (es_espacio c)|]; done.
Qed.

Lemma str_strip_map s : str_strip (str_map f s) = str_map f (str_strip s).
Proof. unfold str_strip. by rewrite str_rstrip_map, str_lstrip_map. Qed.
End TextoLemas.

Lemma str_lstrip_idem s : str_lstrip (str_lstrip s) = str_lstrip s.
Proof.
  induction s as [|c s IH]; simpl; [done|].
  destruct (es_espacio c) eqn:E; [exact IH|]. simpl. by rewrite E.
Qed.

Lemma str_rstrip_idem s : str_rstrip (str_rstrip s) = str_rstrip s.
Proof.
  induction s as [|c s IH]; simpl; [done|].
  destruct (str_rstrip s) as [|c' t] eqn:E.
  - destruct (es_espacio c) eqn:Ec; simpl; [done|]. by rewrite Ec.
  - simpl in *. by rewrite IH.
Qed.

Lemma str_lstrip_rstrip s : str_lstrip (str_rstrip s) = str_rstrip (str_lstrip s).
Proof.
  induction s as [|c s IH]; simpl; [done|].
  destruct (es_espacio c) eqn:Ec.
  - rewrite <- IH. destruct (str_rstrip s); simpl; by rewrite ?Ec.
  - simpl. destruct (str_rstrip s); simpl; by rewrite Ec.
Qed.

Lemma str_strip_idem s : str_strip (str_strip s) = str_strip s.
Proof.
  unfold str_strip.
  rewrite <- (str_lstrip_rstrip (str_rstrip s)).
  by rewrite str_lstrip_idem, str_rstrip_idem.
Qed.

Section NormalizarLemas.
Variable f : ascii → ascii.
Hypothesis f_espacio : ∀ c, es_espacio (f c) = es_espacio c.
Hypothesis f_idem : ∀ c, f (f c) = f c.

(** Normalising a normalised text changes nothing. *)
Lemma str_normalizar_idem s :
  str_strip (str_map f (str_strip (str_map f s))) = str_strip (str_map f s).
Proof.
  rewrite (str_strip_map f f_espacio s), (str_map_idem f f_idem).
  by rewrite (str_strip_map f f_espacio), str_strip_idem.
Qed.
End NormalizarLemas.

(** ** Stable sorting *)

Section OrdenLemas.
Context {A : Type} (le : A → A → bool).

Lemma insertar_Permutation x l : insertar le x l ≡ₚ x :: l.
Proof.
  induction l as [|y l IH]; simpl; [done|].
  destruct (le x y); [done|]. rewrite IH. apply Permutation_swap.
Qed.

Lemma ordenar_Permutation l : ordenar le l ≡ₚ l.
Proof.
  induction l as [|x l IH]; simpl; [done|].
  by rewrite insertar_Permutation, IH.
Qed.

Lemma elem_of_ordenar x l : x ∈ ordenar le l ↔ x ∈ l.
Proof. by rewrite ordenar_Permutation. Qed.

Lemma length_ordenar l : length (ordenar le l) = length l.
Proof. by rewrite ordenar_Permutation. Qed.

Hypothesis le_total : ∀ a b, le a b = true ∨ le b a = true.
Hypothesis le_trans : ∀ a b c, le a b = true → le b c = true → le a c = true.

Variable R : A → A → Prop.

Lemma insertar_antes x s :
  StronglySorted (antes le R) s → Forall (R x) s →
  StronglySorted (antes le R) (insertar le x s).
Proof.
  induction s as [|y s IH]; intros Hs Hx; simpl.
  - repeat constructor.
  - apply StronglySorted_inv in Hs as [Hs Hy].
    apply Forall_cons in Hx as [Hxy Hx].
    destruct (le x y) eqn:E.
    + constructor; [by constructor|].
      constructor; [by split|].
      apply Forall_forall. intros z Hz.
      rewrite Forall_forall in Hy, Hx.
      destruct (Hy z Hz) as [Hyz _]. split; [eauto | auto].
    + constructor; [by apply IH|].
      rewrite insertar_Permutation. constructor; [|done].
      split; [|congruence]. destruct (le_total x y); congruence.
Qed.

Lemma ordenar_estable l :
  StronglySorted R l → StronglySorted (antes le R) (ordenar le l).
Proof.
  induction l as [|x l IH]; intros Hl; simpl; [constructor|].
  apply StronglySorted_inv in Hl as [Hl Hx].
  apply insertar_antes; [by apply IH|].
  by rewrite ordenar_Permutation.
Qed.
End OrdenLemas.

Lemma StronglySorted_True {A} (l : list A) : StronglySorted (λ _ _, True) l.
Proof. induction l; constructor; [done|]. by apply Forall_forall. Qed.

Lemma StronglySorted_impl {A} (R1 R2 : A → A → Prop) l :
  (∀ a b, R1 a b → R2 a b) → StronglySorted R1 l → StronglySorted R2 l.
Proof.
  intros H. induction 1 as [|a l Hl IH Ha]; constructor; [done|].
  eapply Forall_impl; eauto.
Qed.

Lemma StronglySorted_NoDup {A} (R : A → A → Prop) l :
  StronglySorted R l → NoDup l → StronglySorted (λ a b, R a b ∧ a ≠ b) l.
Proof.
  induction 1 as [|a l Hl IH Ha]; intros Hnd; constructor.
  - apply IH. by apply NoDup_cons in Hnd as [_ ?].
  - apply NoDup_cons in Hnd as [Hnot _].
    apply Forall_forall. intros b Hb. split.
    + eapply Forall_forall in Ha; eauto.
    + intros ->. done.
Qed.

Lemma StronglySorted_take {A} (R : A → A → Prop) n l :
  StronglySorted R l → StronglySorted R (take n l).
Proof.
  intros H. revert n. induction H as [|a l Hl IH Ha]; intros [|n]; simpl;
    try constructor; [apply IH|].
  apply Forall_take. done.
Qed.

(** What [StronglySorted] says about two positions. *)
Lemma StronglySorted_lookup {A} (R : A → A → Prop) l i j a b :
  StronglySorted R l → l !! i = Some a → l !! j = Some b → (i < j)%nat → R a b.
Proof.
  intros H. revert i j. induction H as [|x l Hl IH Hx]; intros i j Hi Hj Hij.
  - done.
  - destruct j as [|j]; [lia|]. simpl in Hj. destruct i as [|i]; simpl in Hi.
    + injection Hi as ->. eapply Forall_forall in Hx; [done|].
      by eapply list_elem_of_lookup_2.
    + eapply IH; eauto. lia.
Qed.

Section SortValuesLemas.
Context {A K : Type} `{Clave K} (col : A → K).

Lemma sort_values_Permutation l : sort_values col l ≡ₚ l.
Proof. apply ordenar_Permutation. Qed.

Lemma sort_values_desc_Permutation l : sort_values_desc col l ≡ₚ l.
Proof. apply ordenar_Permutation. Qed.

(** Ascending: keys never decrease, and equal keys keep the order [R]
    that the rows came in. *)
Lemma sort_values_estable (R : A → A → Prop) l :
  StronglySorted R l →
  StronglySorted
    (λ a b, cle (col a) (col b) = true ∧ (col a = col b → R a b))
    (sort_values col l).
Proof.
  intros Hl. unfold sort_values.
  eapply StronglySorted_impl;
    [|apply (ordenar_estable (λ a b, cle (col a) (col b))) with (R := R)].
  - intros a b [H1 H2]. split; [done|]. intros E. apply H2.
    rewrite E. destruct (cle_total (col b) (col b)); done.
  - intros a b. apply cle_total.
  - intros a b c. apply cle_trans.
  - done.
Qed.

(** Descending: keys never increase, equal keys keep their order. *)
Lemma sort_values_desc_estable (R : A → A → Prop) l :
  StronglySorted R l →
  StronglySorted
    (λ a b, cle (col b) (col a) = true ∧ (col a = col b → R a b))
    (sort_values_desc col l).
Proof.
  intros Hl. unfold sort_values_desc.
  eapply StronglySorted_impl;
    [|apply (ordenar_estable (λ a b, cle (col b) (col a))) with (R := R)].
  - intros a b [H1 H2]. split; [done|]. intros E. apply H2.
    rewrite E. destruct (cle_total (col b) (col b)); done.
  - intros a b. apply cle_total.
  - intros a b c ? ?. eapply cle_trans; eauto.
  - done.
Qed.
End SortValuesLemas.

(** ** Sums *)

Section SumaLemas.
Context {A : Type}.
Implicit Types (f g : A → Z) (l : list A).


Lemma suma_Permutation f l1 l2 : l1 ≡ₚ l2 → suma f l1 = suma f l2.
Proof. induction 1; simpl; lia. Qed.

Lemma suma_ext f g l : (∀ x, x ∈ l → f x = g x) → suma f l = suma g l.
Proof.
  induction l as [|x l IH]; intros H; simpl; [done|].
  rewrite (H x) by constructor. rewrite IH; [done|].
  intros y Hy. apply H. by constructor.
Qed.

Lemma suma_mas f g l : suma (λ x, f x + g x) l = suma f l + suma g l.
Proof. induction l as [|x l IH]; simpl; [done|]. rewrite IH. lia. Qed.

Lemma suma_cero l : suma (λ _ : A, 0) l = 0.
Proof. induction l; simpl; lia. Qed.

Lemma suma_filter f (P : A → Prop) `{∀ x, Decision (P x)} l :
  suma f (filter P l) = suma (λ x, if decide (P x) then f x else 0) l.
Proof.
  induction l as [|x l IH]; simpl; [done|].
  rewrite filter_cons. destruct (decide (P x)); simpl; rewrite IH; lia.
Qed.

Lemma suma_map {B} (h : B → A) f (l : list B) :
  suma f (map h l) = suma (λ x, f (h x)) l.
Proof. induction l as [|x l IH]; simpl; [done|]. by rewrite IH. Qed.

(** A sum that is non-zero at one point of a duplicate-free list. *)
Lemma suma_indicador `{EqDecision A} (k0 : A) (v : Z) l :
  NoDup l → k0 ∈ l → suma (λ k, if decide (k = k0) then v else 0) l = v.
Proof.
  induction l as [|x l IH]; intros Hnd Hin; [by apply elem_of_nil in Hin|].
  apply NoDup_cons in Hnd as [Hx Hnd]. simpl.
  destruct (decide (x = k0)) as [->|Hne].
  - rewrite (suma_ext _ (λ _, 0)), suma_cero; [lia|].
    intros y Hy. rewrite decide_False; [done|]. intros ->. done.
  - apply elem_of_cons in Hin as [->|Hin]; [done|]. rewrite IH; done.
Qed.
End SumaLemas.

(** ** Lists *)

Lemma elem_of_map {A B} (f : A → B) l y : y ∈ map f l ↔ ∃ x, y = f x ∧ x ∈ l.
Proof. apply (list_elem_of_fmap f). Qed.

Lemma sublist_map {A B} (f : A → B) l1 l2 :
  l1 `sublist_of` l2 → map f l1 `sublist_of` map f l2.
Proof. induction 1; simpl; by constructor. Qed.

Lemma elem_of_List_filter {A} (p : A → bool) l x :
  x ∈ List.filter p l ↔ x ∈ l ∧ p x = true.
Proof. rewrite !list_elem_of_In. apply filter_In. Qed.

Lemma List_filter_map {A B} (f : A → B) (p : B → bool) l :
  List.filter p (map f l) = map f (List.filter (λ x, p (f x)) l).
Proof.
  induction l as [|x l IH]; simpl; [done|].
  destruct (p (f x)); simpl; by rewrite IH.
Qed.

Lemma List_filter_filter {A} (p q : A → bool) l :
  List.filter p (List.filter q l) = List.filter (λ x, q x && p x) l.
Proof.
  induction l as [|x l IH]; simpl; [done|].
  destruct (q x); simpl; [destruct (p x); simpl|]; by rewrite IH.
Qed.

Lemma List_filter_todos {A} (p : A → bool) l :
  (∀ x, x ∈ l → p x = true) → List.filter p l = l.
Proof.
  induction l as [|x l IH]; intros H; simpl; [done|].
  rewrite (H x) by constructor. f_equal. apply IH.
  intros y Hy. apply H. by constructor.
Qed.

(** ** Grouping *)

Section GroupbyLemas.
Context {A K : Type} `{Clave K} (key : A → option K).

Lemma elem_of_claves k l : k ∈ claves key l ↔ ∃ r, r ∈ l ∧ key r = Some k.
Proof.
  unfold claves. rewrite elem_of_ordenar, elem_of_remove_dups.
  apply list_elem_of_omap.
Qed.

Lemma NoDup_claves l : NoDup (claves key l).
Proof. unfold claves. rewrite ordenar_Permutation. apply NoDup_remove_dups. Qed.

(** The groups come in strictly ascending key order. *)
Lemma claves_ordenadas l :
  StronglySorted (λ a b, cle a b = true ∧ a ≠ b) (claves key l).
Proof.
  apply StronglySorted_NoDup; [|apply NoDup_claves].
  eapply StronglySorted_impl;
    [|apply (ordenar_estable cle cle_total cle_trans (λ _ _, True));
      apply StronglySorted_True].
  by intros a b [? _].
Qed.

Lemma elem_of_grupo k l r : r ∈ grupo key k l ↔ r ∈ l ∧ key r = Some k.
Proof. unfold grupo. rewrite list_elem_of_filter. tauto. Qed.


Lemma elem_of_groupby kg l :
  kg ∈ groupby key l ↔ kg.1 ∈ claves key l ∧ kg.2 = grupo key kg.1 l.
Proof.
  unfold groupby. rewrite elem_of_map. split.
  - intros (k & -> & Hk). done.
  - intros [Hk E]. exists kg.1. split; [|done]. destruct kg; simpl in *. by subst.
Qed.

(** Summing group by group is summing over the rows that have a key. *)
Lemma suma_grupos (sel : K → Prop) `{∀ k, Decision (sel k)} (f : A → Z) ks l :
  NoDup ks → (∀ r k, r ∈ l → key r = Some k → k ∈ ks) →
  suma (λ k, if decide (sel k) then suma f (grupo key k l) else 0) ks
  = suma (λ r, match key r with
               | Some k => if decide (sel k) then f r else 0
               | None => 0
               end) l.
Proof.
  intros Hnd. induction l as [|r l IH]; intros Hks.
  - simpl. rewrite (suma_ext _ (λ _, 0)), suma_cero; [done|].
    intros k _. by destruct (decide (sel k)).
  - simpl. rewrite <- IH by (intros; eapply Hks; [by right|done]).
    set (v := match key r with
              | Some k => if decide (sel k) then f r else 0
              | None => 0
              end).
    rewrite (suma_ext _
      (λ k, (if decide (Some k = key r) then v else 0)
            + (if decide (sel k) then suma f (grupo key k l) else 0))).
    + rewrite suma_mas. f_equal.
      destruct (key r) as [k0|] eqn:E.
      * rewrite (suma_ext _ (λ k, if decide (k = k0) then v else 0)).
        -- apply suma_indicador; [done|]. eapply Hks; [by left|done].
        -- intros k _. destruct (decide (k = k0)) as [->|Hne].
           ++ by rewrite decide_True.
           ++ rewrite decide_False; [done|]. congruence.
      * rewrite (suma_ext _ (λ _, 0)), suma_cero; [done|]. intros k _.
        by rewrite decide_False.
    + intros k _. unfold grupo. rewrite filter_cons. subst v.
      destruct (decide (key r = Some k)) as [E|E].
      * rewrite E. destruct (decide (Some k = Some k)) as [_|?]; [|done].
        simpl. destruct (decide (sel k)); lia.
      * destruct (decide (Some k = key r)) as [?|_]; [congruence|]. lia.
Qed.

Lemma suma_groupby (sel : K → Prop) `{∀ k, Decision (sel k)} (f : A → Z) l :
  suma (λ kg, suma f kg.2) (filter (λ kg, sel kg.1) (groupby key l))
  = suma (λ r, match key r with
               | Some k => if decide (sel k) then f r else 0
               | None => 0
               end) l.
Proof.
  rewrite suma_filter. unfold groupby. rewrite suma_map. simpl.
  apply suma_grupos; [apply NoDup_claves|].
  intros r k Hr Hk. apply elem_of_claves. eauto.
Qed.
End GroupbyLemas.

(** ** Cleaning *)

Lemma filas_limpiar d :
  filas (limpiar d)
  = map normalizar (List.filter aceptable (drop_duplicates_desde [] (filas d))).
Proof.
  unfold limpiar, asignar, dropna_monto, dropna_criticas, drop_duplicates,
    con_filas; simpl.
  rewrite !List.map_map, List_filter_map, List_filter_filter, List.map_map.
  reflexivity.
Qed.

Lemma columnas_limpiar d :
  columnas (limpiar d)
  = con_columna "monto_neto" (con_columna "moneda" (con_columna "tipo_operacion"
      (con_columna "fecha" (con_columna "monto" (columnas d))))).
Proof. reflexivity. Qed.

Lemma aceptable_spec r :
  aceptable r = true ↔
  is_Some (fecha r) ∧ (∃ v, monto r = Numero v)
  ∧ is_Some (tipo_operacion r) ∧ is_Some (moneda r).
Proof.
  unfold aceptable, criticas_presentes.
  rewrite !andb_true_iff, !bool_decide_eq_true, !negb_true_iff.
  rewrite <- !not_eq_None_Some.
  destruct (monto r); simpl; split; intros H; destruct_and?;
    try discriminate; repeat split; eauto;
    match goal with H : ∃ _, _ |- _ => destruct H; discriminate end.
Qed.

Lemma normalizar_limpia r : aceptable r = true → fila_limpia (normalizar r).
Proof.
  intros (Hf & [v Hv] & [t Ht] & [m Hm])%aceptable_spec.
  split; unfold normalizar; simpl.
  - exact Hf.
  - exists v. by rewrite Hv.
  - rewrite Ht. by eexists.
  - rewrite Hm. by eexists.
  - reflexivity.
Qed.

(** Every row of a cleaned frame has its date, amount, operation type and
    currency, and carries its signed amount. *)
Lemma limpiar_filas_limpias d r : r ∈ filas (limpiar d) → fila_limpia r.
Proof.
  rewrite filas_limpiar, elem_of_map. intros (r0 & -> & Hr0).
  apply elem_of_List_filter in Hr0 as [_ Hr0]. by apply normalizar_limpia.
Qed.

Lemma normalizar_idem r : normalizar (normalizar r) = normalizar r.
Proof.
  destruct r as [i f p t m c cp ds np mn ms]. unfold normalizar, signo; simpl.
  assert (Et : str_strip <$> (str_lower <$> (str_strip <$> (str_lower <$> t)))
               = str_strip <$> (str_lower <$> t)).
  { destruct t; simpl; [|done]. f_equal.
    apply str_normalizar_idem; [apply es_espacio_lower | apply ascii_lower_idem]. }
  assert (Ec : str_strip <$> (str_upper <$> (str_strip <$> (str_upper <$> c)))
               = str_strip <$> (str_upper <$> c)).
  { destruct c; simpl; [|done]. f_equal.
    apply str_normalizar_idem; [apply es_espacio_upper | apply ascii_upper_idem]. }
  assert (Em : to_numeric (to_numeric m) = to_numeric m) by (by destruct m).
  rewrite Et, Ec, Em. reflexivity.
Qed.

Lemma aceptable_normalizar r : aceptable r = true → aceptable (normalizar r) = true.
Proof.
  intros H. apply normalizar_limpia in H as [? ? ? ? _].
  apply aceptable_spec. done.
Qed.

Lemma elem_of_drop_duplicates_desde vistos l r :
  r ∈ drop_duplicates_desde vistos l → r ∈ l ∧ id_movimiento r ∉ vistos.
Proof.
  revert vistos. induction l as [|x l IH]; intros vistos; simpl.
  - by intros ?%elem_of_nil.
  - destruct (decide (id_movimiento x ∈ vistos)) as [Hx|Hx].
    + intros [? ?]%IH. split; [by right|done].
    + intros [->|Hr]%elem_of_cons; [split; [by left|done]|].
      apply IH in Hr as [? Hn]. split; [by right|].
      intros ?. apply Hn. by right.
Qed.

(** After [drop_duplicates] every identifier occurs once. *)
Lemma NoDup_drop_duplicates_desde vistos l :
  NoDup (map id_movimiento (drop_duplicates_desde vistos l)).
Proof.
  revert vistos. induction l as [|x l IH]; intros vistos; simpl.
  - constructor.
  - destruct (decide (id_movimiento x ∈ vistos)); [apply IH|].
    simpl. constructor; [|apply IH].
    intros (r & E & Hr)%elem_of_map.
    apply elem_of_drop_duplicates_desde in Hr as [_ Hr].
    apply Hr. rewrite <- E. by left.
Qed.

Lemma drop_duplicates_desde_sin_repetidos vistos l :
  NoDup (map id_movimiento l) → (∀ r, r ∈ l → id_movimiento r ∉ vistos) →
  drop_duplicates_desde vistos l = l.
Proof.
  revert vistos. induction l as [|x l IH]; intros vistos Hnd Hv; simpl; [done|].
  simpl in Hnd. apply NoDup_cons in Hnd as [Hx Hnd].
  rewrite decide_False by (apply Hv; by left). f_equal.
  apply IH; [done|]. intros r Hr [E|?]%elem_of_cons.
  - apply Hx. rewrite <- E. apply elem_of_map. eauto.
  - eapply Hv; [by right|done].
Qed.

Lemma NoDup_map_List_filter {A B} (f : A → B) (p : A → bool) l :
  NoDup (map f l) → NoDup (map f (List.filter p l)).
Proof.
  induction l as [|x l IH]; simpl; [done|].
  intros [Hx Hnd]%NoDup_cons. destruct (p x); simpl; [|by apply IH].
  constructor; [|by apply IH].
  intros (y & E & [Hy _]%elem_of_List_filter)%elem_of_map.
  apply Hx. rewrite E. apply elem_of_map. eauto.
Qed.

Lemma con_columna_presente c cols : c ∈ cols → con_columna c cols = cols.
Proof. intros H. unfold con_columna. by rewrite decide_True. Qed.

Lemma elem_of_con_columna c c' cols :
  c ∈ con_columna c' cols ↔ c = c' ∨ c ∈ cols.
Proof.
  unfold con_columna. destruct (decide (c' ∈ cols)).
  - split; [by right|]. intros [->|?]; done.
  - rewrite elem_of_app, list_elem_of_singleton. tauto.
Qed.

(** Cleaning a cleaned frame gives the same frame. *)
Lemma limpiar_idem d : limpiar (limpiar d) = limpiar d.
Proof.
  assert (Hf : filas (limpiar (limpiar d)) = filas (limpiar d)).
  { rewrite (filas_limpiar (limpiar d)).
    rewrite drop_duplicates_desde_sin_repetidos.
    - rewrite List_filter_todos.
      + rewrite filas_limpiar, List.map_map.
        apply map_ext. intros r. apply normalizar_idem.
      + intros r. rewrite filas_limpiar, elem_of_map.
        intros (r0 & -> & [_ H]%elem_of_List_filter).
        by apply aceptable_normalizar.
    - rewrite filas_limpiar, List.map_map. simpl.
      apply NoDup_map_List_filter, NoDup_drop_duplicates_desde.
    - intros r _. apply not_elem_of_nil. }
  assert (Hc : columnas (limpiar (limpiar d)) = columnas (limpiar d)).
  { rewrite (columnas_limpiar (limpiar d)).
    rewrite !con_columna_presente; [done|..];
      rewrite columnas_limpiar, ?elem_of_con_columna; tauto. }
  destruct (limpiar (limpiar d)), (limpiar d); simpl in *. congruence.
Qed.

(** ** The store *)

Lemma lookup_nuevo (l : list DataFrame) d : (l ++ [d]) !! length l = Some d.
Proof. by rewrite list_lookup_middle. Qed.

Lemma insert_nuevo (l : list DataFrame) d d' :
  <[length l := d']> (l ++ [d]) = l ++ [d'].
Proof. rewrite insert_app_r_alt by lia. by rewrite Nat.sub_diag. Qed.

(** ** The dtype of the text columns *)

Lemma es_texto_elem col d r :
  r ∈ filas d → is_Some (col r) → es_texto col d = true.
Proof.
  intros Hr Hc. unfold es_texto.
  destruct (filas d) as [|x l] eqn:E; [done|].
  apply existsb_exists. exists r. split; [by apply list_elem_of_In|].
  apply bool_decide_eq_true. by apply not_eq_None_Some.
Qed.

Lemma es_texto_presentes col d :
  (∀ r, r ∈ filas d → is_Some (col r)) → es_texto col d = true.
Proof.
  intros H. destruct (filas d) as [|x l] eqn:E.
  - unfold es_texto. by rewrite E.
  - apply (es_texto_elem col d x); [rewrite E; by left|].
    apply H. by left.
Qed.

(** A frame with a row that the two [dropna] steps keep has text in both
    columns. *)
Lemma columnas_de_texto_aceptable d r :
  r ∈ filas d → aceptable r = true → columnas_de_texto d = true.
Proof.
  intros Hr (_ & _ & Ht & Hm)%aceptable_spec.
  apply andb_true_iff. split; by apply (es_texto_elem _ d r).
Qed.

(** So has every cleaned frame. *)
Lemma columnas_de_texto_limpiar d : columnas_de_texto (limpiar d) = true.
Proof.
  apply andb_true_iff.
  split; apply es_texto_presentes; intros r Hr;
    by apply limpiar_filas_limpias in Hr as [].
Qed.

(** What one call of [limpiar_datos] does to the store and the console
    when both text columns hold text: three frames are created, the last
    of which is returned; nothing that existed is written to. *)
Lemma limpiar_datos_run w df d :
  marcos w !! df = Some d → columnas_de_texto d = true →
  limpiar_datos df w
  = Some (S (S (length (marcos w))),
          {| marcos := marcos w ++
               [drop_duplicates d;
                asignar "fecha" (λ r, con_fecha (to_datetime (fecha r)) r)
                  (asignar "monto" (λ r, con_monto (to_numeric (monto r)) r)
                     (dropna_criticas (drop_duplicates d)));
                limpiar d];
             consola := consola w ++
               [MsgLimpiando;
                MsgEliminados (Z.of_nat (length (filas d))
                               - Z.of_nat (length (filas (limpiar d))))];
             archivos := archivos w |}).
Proof.
  intros Hd [Ht Hm]%andb_true_iff.
  unfold limpiar_datos, accesor_str, mbind, M_bind, mret, M_ret, print, leer,
    nuevo, modificar. cbn [marcos consola archivos].
  rewrite Hd. cbv beta iota. rewrite Ht, Hm. simpl.
  repeat (rewrite ?lookup_nuevo, ?insert_nuevo; simpl).
  f_equal. f_equal.
  - rewrite !length_app. simpl. lia.
  - rewrite <- !app_assoc. reflexivity.
Qed.

(** Otherwise the [.str] accessor raises. *)
Lemma limpiar_datos_falla w df d :
  marcos w !! df = Some d → columnas_de_texto d = false →
  limpiar_datos df w = None.
Proof.
  intros Hd Hc.
  unfold limpiar_datos, accesor_str, mbind, M_bind, mret, M_ret, print, leer,
    nuevo, modificar, error. cbn [marcos consola archivos].
  rewrite Hd. cbv beta iota.
  apply andb_false_iff in Hc as [Ht|Hm].
  - rewrite Ht. simpl. by repeat (rewrite ?lookup_nuevo, ?insert_nuevo; simpl).
  - rewrite Hm. destruct (es_texto tipo_operacion d); simpl;
      by repeat (rewrite ?lookup_nuevo, ?insert_nuevo; simpl).
Qed.

Lemma lookup_tercero (l : list DataFrame) a b c :
  (l ++ [a; b; c]) !! S (S (length l)) = Some c.
Proof.
  rewrite lookup_app_r by lia.
  replace (S (S (length l)) - length l)%nat with 2%nat by lia. done.
Qed.

(** C7. On a frame whose two text columns hold text, cleaning returns a
    frame that did not exist before, validated: no identifier twice, every
    row with its date, numeric amount, operation type, currency and signed
    amount (on ASCII text it is the frame [limpiar] describes).  It writes
    to no frame that existed before the call, the caller's table among
    them, and the count it reports is the number of rows it was given minus
    the number of rows it returns.  On a frame with a text column that
    holds no text it raises and returns nothing. *)
Theorem limpiar_datos_no_muta (w : Mundo) (df : ref) (d : DataFrame)
    (Hdf : marcos w !! df = Some d) :
  (columnas_de_texto d = true →
   ∃ df' w' salida,
     limpiar_datos df w = Some (df', w')
     ∧ df' ≠ df
     ∧ marcos w !! df' = None
     ∧ marcos w' !! df' = Some salida
     ∧ NoDup (map id_movimiento (filas salida))
     ∧ Forall fila_limpia (filas salida)
     ∧ (texto_ascii (filas d) = true → salida = limpiar d)
     ∧ marcos w' !! df = Some d
     ∧ (∀ r d0, marcos w !! r = Some d0 → marcos w' !! r = Some d0)
     ∧ consola w' = consola w ++
         [MsgLimpiando;
          MsgEliminados (Z.of_nat (length (filas d))
                         - Z.of_nat (length (filas salida)))])
  ∧ (columnas_de_texto d = false → limpiar_datos df w = None).
Proof.
  split; [|by apply limpiar_datos_falla].
  intros Htexto. eexists _, _, (limpiar d).
  split; [by apply limpiar_datos_run|]. cbn [marcos consola].
  split; [apply lookup_lt_Some in Hdf; lia|].
  split; [apply lookup_ge_None; lia|].
  split; [apply lookup_tercero|].
  split.
  { rewrite filas_limpiar, List.map_map. simpl.
    apply NoDup_map_List_filter, NoDup_drop_duplicates_desde. }
  split; [apply Forall_forall; intros r; apply limpiar_filas_limpias|].
  split; [done|].
  split; [by apply lookup_app_l_Some|].
  split; [|done]. intros r d0 H. by apply lookup_app_l_Some.
Qed.

Lemma limpiar_datos_no_muta_witness :
  let d := marco_de movimientos_sucios in
  ∃ df' w' salida,
    limpiar_datos 0%nat (mundo_con d) = Some (df', w')
    ∧ df' ≠ 0%nat
    ∧ marcos (mundo_con d) !! df' = None
    ∧ marcos w' !! df' = Some salida
    ∧ NoDup (map id_movimiento (filas salida))
    ∧ Forall fila_limpia (filas salida)
    ∧ (texto_ascii (filas d) = true → salida = limpiar d)
    ∧ marcos w' !! 0%nat = Some d
    ∧ (∀ r d0, marcos (mundo_con d) !! r = Some d0 → marcos w' !! r = Some d0)
    ∧ consola w' = consola (mundo_con d) ++
        [MsgLimpiando;
         MsgEliminados (Z.of_nat (length (filas d))
                        - Z.of_nat (length (filas salida)))].
Proof.
  intros d.
  destruct (limpiar_datos_no_muta (mundo_con d) 0%nat d eq_refl) as [H _].
  apply H. by vm_compute.
Defined.

(** Two rows with the same identifier and different amounts: the first is
    kept and one removal is reported. *)
Lemma limpiar_datos_duplicado :
  let d := marco_de [fila_csv 1 2024 1 2 1 "ingreso" 10000 "PEN" "BCP";
                     fila_csv 1 2024 1 2 1 "ingreso" 99900 "PEN" "BCP"] in
  ∃ df w, limpiar_datos 0%nat (mundo_con d) = Some (df, w)
          ∧ (map monto ∘ filas) <$> marcos w !! df = Some [Numero 10000]
          ∧ consola w = [MsgLimpiando; MsgEliminados 1].
Proof. eexists _, _. by vm_compute. Qed.

(** A table whose only row has no currency: [read_csv] types the column
    [float64], and cleaning raises. *)
Lemma limpiar_datos_sin_moneda :
  let d := marco_de [con_moneda None
                       (fila_csv 1 2024 1 2 1 "ingreso" 10000 "PEN" "BCP")] in
  limpiar_datos 0%nat (mundo_con d) = None.
Proof. by vm_compute. Qed.

(** C8. Cleaning is idempotent.  When cleaning returns, which it does on
    a frame whose two text columns hold text, cleaning the frame it
    returned gives a frame equal to it, rows, normalised values and signed
    amounts alike, and reports that no row was removed.  The text is ASCII
    text. *)
Theorem limpiar_datos_idempotente (w : Mundo) (df : ref) (d : DataFrame)
    (Hdf : marcos w !! df = Some d)
    (Htexto : columnas_de_texto d = true)
    (Hascii : texto_ascii (filas d) = true) :
  ∃ df1 w1 df2 w2 limpio,
    limpiar_datos df w = Some (df1, w1)
    ∧ limpiar_datos df1 w1 = Some (df2, w2)
    ∧ marcos w1 !! df1 = Some limpio
    ∧ marcos w2 !! df2 = Some limpio
    ∧ consola w2 = consola w1 ++ [MsgLimpiando; MsgEliminados 0].
Proof.
  pose proof (limpiar_datos_run w df d Hdf Htexto) as H1.
  set (w1 := {| marcos := _ |}) in H1.
  assert (Hl : marcos w1 !! S (S (length (marcos w))) = Some (limpiar d))
    by apply lookup_tercero.
  pose proof (limpiar_datos_run w1 _ _ Hl (columnas_de_texto_limpiar d)) as H2.
  eexists _, w1, _, _, (limpiar d).
  split; [exact H1|]. split; [exact H2|]. split; [exact Hl|].
  cbn [marcos consola]. rewrite limpiar_idem. split.
  - apply lookup_tercero.
  - by rewrite Z.sub_diag.
Qed.

Lemma limpiar_datos_idempotente_witness :
  ∃ df1 w1 df2 w2 limpio,
    limpiar_datos 0%nat (mundo_con (marco_de movimientos_sucios)) = Some (df1, w1)
    ∧ limpiar_datos df1 w1 = Some (df2, w2)
    ∧ marcos w1 !! df1 = Some limpio
    ∧ marcos w2 !! df2 = Some limpio
    ∧ consola w2 = consola w1 ++ [MsgLimpiando; MsgEliminados 0].
Proof.
  apply (limpiar_datos_idempotente (mundo_con (marco_de movimientos_sucios)) 0%nat
           (marco_de movimientos_sucios) eq_refl); by vm_compute.
Defined.

(** ** Reconciliation of the grouped views *)

Lemma total_tipo_suma t g :
  total_tipo t g
  = suma (λ r, if decide (tipo_operacion r = Some t) then valor (monto r) else 0) g.
Proof. unfold total_tipo. apply suma_filter. Qed.

Section Conciliar.
Context {K V : Type} `{Clave K}.
Variable key : Fila → option K.
Variable agg : K * list Fila → V.
Variable vmon : V → string.
Variable kmon : K → string.
Hypothesis vmon_agg : ∀ kg, vmon (agg kg) = kmon kg.1.

(** The total of a view column over one currency is the sum, over the
    rows that have a key of this currency, of what each row adds. *)
Lemma suma_vista (vtot : V → Z) (h : Fila → Z) c l vista :
  vista ≡ₚ map agg (groupby key l) →
  (∀ kg, vtot (agg kg) = suma h kg.2) →
  suma_moneda vmon vtot c vista
  = suma (λ r, match key r with
               | Some k => if decide (kmon k = c) then h r else 0
               | None => 0
               end) l.
Proof.
  intros Hp Ht. unfold suma_moneda.
  rewrite suma_filter, (suma_Permutation _ _ _ Hp), suma_map.
  rewrite <- (suma_groupby key (λ k, kmon k = c) h l), suma_filter.
  apply suma_ext. intros kg _. by rewrite vmon_agg, Ht.
Qed.

(** When every row has a key, of its own currency, nothing is lost. *)
Lemma suma_clave_moneda (h : Fila → Z) c l :
  (∀ r, r ∈ l → ∃ k, key r = Some k ∧ moneda r = Some (kmon k)) →
  suma (λ r, match key r with
             | Some k => if decide (kmon k = c) then h r else 0
             | None => 0
             end) l
  = suma h (de_moneda c l).
Proof.
  intros Hl. unfold de_moneda. rewrite suma_filter.
  apply suma_ext. intros r Hr. destruct (Hl r Hr) as (k & -> & Hm).
  rewrite Hm. repeat case_decide; congruence.
Qed.
End Conciliar.

Lemma fd_base_saldo_acumulado acc l : map fd_base (saldo_acumulado acc l) = l.
Proof.
  revert acc. induction l as [|r l IH]; intros acc; simpl; [done|].
  by rewrite IH.
Qed.

Lemma flujo_diario_base_Permutation l :
  flujo_diario_base l ≡ₚ map agg_flujo (groupby clave_fecha_moneda l).
Proof. apply sort_values_Permutation. Qed.

Lemma clave_fecha_moneda_limpia r :
  fila_limpia r →
  ∃ k, clave_fecha_moneda r = Some k ∧ moneda r = Some k.2.
Proof.
  intros [[f Hf] _ _ [m Hm] _]. exists (f, m).
  unfold clave_fecha_moneda. by rewrite Hf, Hm.
Qed.

Lemma suma_moneda_flujo_diario (vtot : FlujoBase → Z) c l :
  suma_moneda (λ v, fd_moneda (fd_base v)) (λ v, vtot (fd_base v)) c (flujo_diario l)
  = suma_moneda fd_moneda vtot c (flujo_diario_base l).
Proof.
  unfold suma_moneda, flujo_diario. rewrite !suma_filter.
  rewrite <- (fd_base_saldo_acumulado ∅ (flujo_diario_base l)) at 2.
  by rewrite suma_map.
Qed.

(** The daily-flow view reconciles: per currency, its income, expense and
    net-flow columns add up to the totals of the cleaned transactions. *)
Lemma flujo_diario_concilia d c :
  let l := filas (limpiar d) in
  suma_moneda (λ v, fd_moneda (fd_base v)) (λ v, fd_total_ingresos (fd_base v)) c
    (flujo_diario l) = total_global "ingreso" c l
  ∧ suma_moneda (λ v, fd_moneda (fd_base v)) (λ v, fd_total_egresos (fd_base v)) c
      (flujo_diario l) = total_global "egreso" c l
  ∧ suma_moneda (λ v, fd_moneda (fd_base v)) (λ v, fd_flujo_neto (fd_base v)) c
      (flujo_diario l) = neto_global c l.
Proof.
  intros l.
  assert (Hl : ∀ r, r ∈ l → ∃ k, clave_fecha_moneda r = Some k
                                 ∧ moneda r = Some k.2).
  { intros r Hr. by apply clave_fecha_moneda_limpia, (limpiar_filas_limpias d). }
  unfold total_global, neto_global. rewrite !total_tipo_suma.
  rewrite !(suma_moneda_flujo_diario _ c l).
  repeat split.
  - rewrite <- (suma_clave_moneda clave_fecha_moneda snd _ c l Hl).
    apply (suma_vista clave_fecha_moneda agg_flujo fd_moneda snd);
      [done | apply flujo_diario_base_Permutation |].
    intros kg. apply total_tipo_suma.
  - rewrite <- (suma_clave_moneda clave_fecha_moneda snd _ c l Hl).
    apply (suma_vista clave_fecha_moneda agg_flujo fd_moneda snd);
      [done | apply flujo_diario_base_Permutation |].
    intros kg. apply total_tipo_suma.
  - unfold sum_monto_neto.
    rewrite <- (suma_clave_moneda clave_fecha_moneda snd _ c l Hl).
    apply (suma_vista clave_fecha_moneda agg_flujo fd_moneda snd);
      [done | apply flujo_diario_base_Permutation | done].
Qed.

Lemma suma_de_moneda_map (f : Fila → Fila) (h : Fila → Z) c l :
  (∀ r, moneda (f r) = moneda r) → (∀ r, h (f r) = h r) →
  suma h (de_moneda c (map f l)) = suma h (de_moneda c l).
Proof.
  intros Hm Hh. unfold de_moneda. rewrite !suma_filter, suma_map.
  apply suma_ext. intros r _. rewrite Hm, Hh. done.
Qed.

Lemma clave_mes_moneda_limpia r :
  fila_limpia r →
  ∃ k, clave_mes_moneda (con_mes (to_period_M <$> fecha r) r) = Some k
       ∧ moneda (con_mes (to_period_M <$> fecha r) r) = Some k.2.
Proof.
  intros [[f Hf] _ _ [m Hm] _]. exists (to_period_M f, m).
  unfold clave_mes_moneda. simpl. by rewrite Hf, Hm.
Qed.

(** The monthly view reconciles, like the daily one.  It is computed from
    the frame once the month column has been assigned. *)
Lemma resumen_mensual_concilia d c :
  let l := filas (limpiar d) in
  let vista := resumen_mensual (filas (asignar_mes (limpiar d))) in
  suma_moneda rm_moneda rm_total_ingresos c vista = total_global "ingreso" c l
  ∧ suma_moneda rm_moneda rm_total_egresos c vista = total_global "egreso" c l
  ∧ suma_moneda rm_moneda rm_flujo_neto c vista = neto_global c l.
Proof.
  intros l vista. subst vista.
  set (l' := map (λ r, con_mes (to_period_M <$> fecha r) r) l).
  change (filas (asignar_mes (limpiar d))) with l'.
  assert (Hl : ∀ r, r ∈ l' → ∃ k, clave_mes_moneda r = Some k
                                  ∧ moneda r = Some k.2).
  { intros r (r0 & -> & Hr0)%elem_of_map.
    by apply clave_mes_moneda_limpia, (limpiar_filas_limpias d). }
  unfold total_global, neto_global, sum_monto_neto. rewrite !total_tipo_suma.
  repeat split.
  - rewrite <- (suma_de_moneda_map (λ r, con_mes (to_period_M <$> fecha r) r))
      by done. fold l'.
    rewrite <- (suma_clave_moneda clave_mes_moneda snd _ c l' Hl).
    apply (suma_vista clave_mes_moneda agg_mes rm_moneda snd); [done|done|].
    intros kg. apply total_tipo_suma.
  - rewrite <- (suma_de_moneda_map (λ r, con_mes (to_period_M <$> fecha r) r))
      by done. fold l'.
    rewrite <- (suma_clave_moneda clave_mes_moneda snd _ c l' Hl).
    apply (suma_vista clave_mes_moneda agg_mes rm_moneda snd); [done|done|].
    intros kg. apply total_tipo_suma.
  - rewrite <- (suma_de_moneda_map (λ r, con_mes (to_period_M <$> fecha r) r))
      by done. fold l'.
    rewrite <- (suma_clave_moneda clave_mes_moneda snd _ c l' Hl).
    apply (suma_vista clave_mes_moneda agg_mes rm_moneda snd); done.
Qed.

Lemma por_producto_Permutation l :
  por_producto l ≡ₚ map agg_producto (groupby clave_producto_moneda l).
Proof. apply sort_values_desc_Permutation. Qed.

(** The product view adds up, per currency, to the totals of the rows that
    have a product name: the others are in no group. *)
Lemma por_producto_suma d c :
  let l := filas (limpiar d) in
  let con_nombre := filter (λ r, is_Some (nombre_producto r)) l in
  suma_moneda pp_moneda pp_total_ingresos c (por_producto l)
    = total_global "ingreso" c con_nombre
  ∧ suma_moneda pp_moneda pp_total_egresos c (por_producto l)
    = total_global "egreso" c con_nombre.
Proof.
  intros l con_nombre.
  assert (Hs : ∀ t,
    suma (λ r, match clave_producto_moneda r with
               | Some k => if decide (k.2 = c)
                           then (if decide (tipo_operacion r = Some t)
                                 then valor (monto r) else 0)
                           else 0
               | None => 0
               end) l
    = total_global t c con_nombre).
  { intros t. unfold total_global, de_moneda, con_nombre.
    rewrite total_tipo_suma, !suma_filter. apply suma_ext. intros r Hr.
    apply (limpiar_filas_limpias d) in Hr as [_ _ _ [m Hm] _].
    unfold clave_producto_moneda. rewrite Hm.
    destruct (nombre_producto r) as [p|]; simpl;
      repeat case_decide; try congruence; try done;
      exfalso; eauto using is_Some_None. }
  split; rewrite <- Hs.
  - apply (suma_vista clave_producto_moneda agg_producto pp_moneda snd);
      [done | apply por_producto_Permutation |].
    intros kg. apply total_tipo_suma.
  - apply (suma_vista clave_producto_moneda agg_producto pp_moneda snd);
      [done | apply por_producto_Permutation |].
    intros kg. apply total_tipo_suma.
Qed.

(** ** What [calcular_kpis] does *)

Lemma calcular_kpis_run w df d :
  marcos w !! df = Some d →
  calcular_kpis df w
  = Some ({| k_flujo_diario := flujo_diario (filas d);
             k_por_producto := por_producto (filas d);
             k_top_contrapartes := top_contrapartes (filas d);
             k_alertas := alertas_de (flujo_diario (filas d));
             k_resumen_mensual := resumen_mensual (filas (asignar_mes d)) |},
          {| marcos := <[df := asignar_mes d]> (marcos w);
             consola := consola w ++ [MsgCalculando; MsgKpisCalculados];
             archivos := archivos w |}).
Proof.
  intros Hd. unfold calcular_kpis, mbind, M_bind, mret, M_ret, print, leer,
    modificar. simpl. rewrite Hd. simpl. rewrite Hd. simpl.
  rewrite list_lookup_insert_eq by (by eapply lookup_lt_Some). simpl.
  rewrite <- app_assoc. reflexivity.
Qed.

(** C1, at an input where it fails.  One income of 100.00 PEN whose
    product the catalogue lacks is loaded with a missing product name and
    kept by cleaning; the daily and the monthly views account for its
    100.00 PEN, the product view has no row for it and totals 0. *)
Theorem por_producto_no_concilia :
  ∃ df k w limpio,
    cargar_limpiar_calcular movimientos_sin_producto productos_ejemplo
      MUNDO_INICIAL = Some ((df, k), w)
    ∧ marcos w !! df = Some limpio
    ∧ map nombre_producto (filas limpio) = [None]
    ∧ total_global "ingreso" "PEN" (filas limpio) = 10000
    ∧ suma_moneda (λ v, fd_moneda (fd_base v))
        (λ v, fd_total_ingresos (fd_base v)) "PEN" (k_flujo_diario k) = 10000
    ∧ suma_moneda rm_moneda rm_total_ingresos "PEN" (k_resumen_mensual k) = 10000
    ∧ k_por_producto k = []
    ∧ suma_moneda pp_moneda pp_total_ingresos "PEN" (k_por_producto k) = 0.
Proof.
  eexists _, _, _, _. split; [vm_compute; reflexivity|].
  split; [vm_compute; reflexivity|]. vm_compute. tauto.
Qed.

(** ** The cumulative balance *)

Lemma StronglySorted_map {A B} (R : B → B → Prop) (f : A → B) l :
  StronglySorted (λ a b, R (f a) (f b)) l → StronglySorted R (map f l).
Proof.
  induction 1 as [|a l Hl IH Ha]; simpl; constructor; [done|].
  apply Forall_forall. intros b (a' & -> & Ha')%elem_of_map.
  eapply Forall_forall in Ha; eauto.
Qed.

Lemma cle_refl {K} `{Clave K} (a : K) : cle a a = true.
Proof. by destruct (cle_total a a). Qed.


(** The rows of the daily flow come in strictly ascending (date, currency)
    order: one row per date and currency, dates ascending. *)
Lemma flujo_diario_base_ordenado l :
  StronglySorted
    (λ a b, cle (clave_flujo a) (clave_flujo b) = true
            ∧ clave_flujo a ≠ clave_flujo b)
    (flujo_diario_base l).
Proof.
  unfold flujo_diario_base.
  eapply StronglySorted_impl;
    [|apply (sort_values_estable clave_flujo
               (λ a b, clave_flujo a ≠ clave_flujo b))].
  - intros a b [H1 H2]. split; [done|]. intros E. by apply H2.
  - unfold groupby. rewrite List.map_map. apply StronglySorted_map.
    eapply StronglySorted_impl; [|apply claves_ordenadas].
    intros [f1 m1] [f2 m2] [_ Hne]. exact Hne.
Qed.


Lemma suma_filter_iff {A} (f : A → Z) (P Q : A → Prop)
    `{∀ x, Decision (P x)} `{∀ x, Decision (Q x)} l :
  (∀ x, x ∈ l → P x ↔ Q x) → suma f (filter P l) = suma f (filter Q l).
Proof.
  intros HPQ. rewrite !suma_filter. apply suma_ext. intros x Hx.
  specialize (HPQ x Hx). repeat case_decide; tauto.
Qed.




Lemma flujo_diario_sucios :
  flujo_diario (filas (limpiar (marco_de movimientos_sucios)))
  = [{| fd_base := {| fd_fecha := {| year := 2024; month := 1; day := 2 |};
                      fd_moneda := "PEN"; fd_total_ingresos := 10000;
                      fd_total_egresos := 0; fd_flujo_neto := 10000;
                      fd_n_operaciones := 1 |};
        fd_saldo_acumulado := 10000 |};
     {| fd_base := {| fd_fecha := {| year := 2024; month := 1; day := 4 |};
                      fd_moneda := "PEN"; fd_total_ingresos := 0;
                      fd_total_egresos := 0; fd_flujo_neto := -7000;
                      fd_n_operaciones := 1 |};
        fd_saldo_acumulado := 3000 |};
     {| fd_base := {| fd_fecha := {| year := 2024; month := 2; day := 1 |};
                      fd_moneda := "USD"; fd_total_ingresos := 0;
                      fd_total_egresos := 2500; fd_flujo_neto := -2500;
                      fd_n_operaciones := 1 |};
        fd_saldo_acumulado := -2500 |}].
Proof. by vm_compute. Qed.

(** The end-to-end example: 2024-01-02/PEN has income 100.00, expense
    40.00, net 60.00 and two operations, with balance 60.00; 2024-01-03/USD
    has net 50.00; there is no alert. *)
Lemma flujo_diario_ejemplo :
  let flujo := flujo_diario (filas (limpiar (marco_de movimientos_ejemplo))) in
  flujo
  = [{| fd_base := {| fd_fecha := {| year := 2024; month := 1; day := 2 |};
                      fd_moneda := "PEN"; fd_total_ingresos := 10000;
                      fd_total_egresos := 4000; fd_flujo_neto := 6000;
                      fd_n_operaciones := 2 |};
        fd_saldo_acumulado := 6000 |};
     {| fd_base := {| fd_fecha := {| year := 2024; month := 1; day := 3 |};
                      fd_moneda := "USD"; fd_total_ingresos := 5000;
                      fd_total_egresos := 0; fd_flujo_neto := 5000;
                      fd_n_operaciones := 1 |};
        fd_saldo_acumulado := 5000 |}]
  ∧ alertas_de flujo = [].
Proof. by vm_compute. Qed.



(** ** Operation types that are neither income nor expense *)




Lemma totales_flujo_diario v l :
  v ∈ flujo_diario l →
  let g := grupo clave_fecha_moneda (clave_flujo (fd_base v)) l in
  fd_total_ingresos (fd_base v) = total_tipo "ingreso" g
  ∧ fd_total_egresos (fd_base v) = total_tipo "egreso" g.
Proof.
  intros Hv.
  assert (Hb : fd_base v ∈ flujo_diario_base l).
  { rewrite <- (fd_base_saldo_acumulado ∅ (flujo_diario_base l)).
    apply elem_of_map. eauto. }
  rewrite flujo_diario_base_Permutation in Hb.
  apply elem_of_map in Hb as ([[f m] g] & E & [_ Hg]%elem_of_groupby).
  simpl in Hg. subst g. rewrite E. simpl. done.
Qed.





(** ** Liquidity alerts *)

Lemma NoDup_map_fst_par {A B C} (f : A → B) (g : A → C) (c : C) (l : list A) :
  NoDup (map (λ x, (f x, g x)) l) → (∀ x, x ∈ l → g x = c) → NoDup (map f l).
Proof.
  induction l as [|x l IH]; simpl; intros Hnd Hc; [constructor|].
  apply NoDup_cons in Hnd as [Hx Hnd]. constructor.
  - intros (y & E & Hy)%elem_of_map. apply Hx. apply elem_of_map.
    exists y. split; [|done].
    rewrite E, (Hc x) by (by left). by rewrite (Hc y) by (by right).
  - apply IH; [done|]. intros y Hy. apply Hc. by right.
Qed.

Lemma NoDup_claves_flujo_diario l :
  NoDup (map (λ v, (fd_fecha (fd_base v), fd_moneda (fd_base v))) (flujo_diario l)).
Proof.
  unfold flujo_diario.
  rewrite <- (List.map_map fd_base (λ b, (fd_fecha b, fd_moneda b))).
  rewrite fd_base_saldo_acumulado, flujo_diario_base_Permutation.
  unfold groupby. rewrite !List.map_map.
  rewrite (map_ext _ id); [rewrite map_id; apply NoDup_claves|].
  by intros [f m].
Qed.

(** C6. The alerts are exactly the rows of the daily flow whose currency
    is PEN and whose net flow is strictly negative, each once: an alert
    shows the date, the net flow and the cumulative balance of its row and
    the alert text, and no day has two.  They come in ascending net flow,
    so that none is more negative than the first. *)
Theorem alertas_correctas (d : DataFrame) :
  let flujo := flujo_diario (filas (limpiar d)) in
  let alertas := alertas_de flujo in
  let negativos :=
    filter (λ r, fd_flujo_neto (fd_base r) < 0
                 ∧ fd_moneda (fd_base r) = "PEN"%string) flujo in
  map (λ a, (al_fecha a, al_flujo_neto a, al_saldo_acumulado a)) alertas
    ≡ₚ map (λ r, (fd_fecha (fd_base r), fd_flujo_neto (fd_base r),
                  fd_saldo_acumulado r)) negativos
  ∧ Forall (λ a, al_estado a = "⚠ FLUJO NEGATIVO"%string) alertas
  ∧ NoDup (map al_fecha alertas)
  ∧ (∀ a, a ∈ alertas ↔
          ∃ r, r ∈ flujo ∧ fd_moneda (fd_base r) = "PEN"%string
               ∧ fd_flujo_neto (fd_base r) < 0
               ∧ al_fecha a = fd_fecha (fd_base r)
               ∧ al_flujo_neto a = fd_flujo_neto (fd_base r)
               ∧ al_saldo_acumulado a = fd_saldo_acumulado r
               ∧ al_estado a = "⚠ FLUJO NEGATIVO"%string)
  ∧ StronglySorted (λ a b, al_flujo_neto a ≤ al_flujo_neto b) alertas
  ∧ (∀ a b, head alertas = Some a → b ∈ alertas →
            al_flujo_neto a ≤ al_flujo_neto b).
Proof.
  intros flujo alertas negativos.
  assert (Hp : alertas ≡ₚ map alerta_de negativos).
  { subst alertas negativos. unfold alertas_de.
    rewrite sort_values_Permutation. by rewrite list_filter_filter. }
  assert (Hs : StronglySorted (λ a b, al_flujo_neto a ≤ al_flujo_neto b) alertas).
  { subst alertas. unfold alertas_de.
    eapply StronglySorted_impl;
      [|apply (sort_values_estable al_flujo_neto (λ _ _, True)),
          StronglySorted_True].
    intros a b [H _]. simpl in H. lia. }
  split; [|split; [|split; [|split; [|split; [exact Hs|]]]]].
  - rewrite Hp, List.map_map. done.
  - apply Forall_forall. intros a. rewrite Hp.
    by intros (r & -> & _)%elem_of_map.
  - rewrite Hp, List.map_map. cbn [alerta_de al_fecha].
    apply (NoDup_map_fst_par (λ r, fd_fecha (fd_base r))
             (λ r, fd_moneda (fd_base r)) "PEN"%string).
    + eapply sublist_NoDup; [apply NoDup_claves_flujo_diario|].
      apply sublist_map, sublist_filter.
    + by intros r [[_ ?] _]%list_elem_of_filter.
  - intros a. rewrite Hp, elem_of_map. split.
    + intros (r & -> & [[? ?] ?]%list_elem_of_filter).
      exists r. repeat split; done.
    + intros (r & ? & ? & ? & E1 & E2 & E3 & E4). exists r. split.
      * destruct a as [f n s e]. simpl in *. unfold alerta_de.
        by rewrite E1, E2, E3, E4.
      * apply list_elem_of_filter. done.
  - intros a b Ha Hb. destruct alertas as [|a' rest]; [done|].
    injection Ha as ->. apply StronglySorted_inv in Hs as [_ Hs].
    apply elem_of_cons in Hb as [->|Hb]; [lia|].
    eapply Forall_forall in Hs; eauto.
Qed.

Lemma alertas_correctas_witness :
  let d := marco_de movimientos_sucios in
  let alertas := alertas_de (flujo_diario (filas (limpiar d))) in
  let a := {| al_fecha := {| year := 2024; month := 1; day := 4 |};
              al_flujo_neto := -7000; al_saldo_acumulado := 3000;
              al_estado := "⚠ FLUJO NEGATIVO" |} in
  a ∈ alertas
  ∧ (∀ b, b ∈ alertas → al_flujo_neto a ≤ al_flujo_neto b).
Proof.
  intros d alertas a.
  destruct (alertas_correctas d) as (_ & _ & _ & H4 & _ & H6). split.
  - apply H4.
    exists {| fd_base := {| fd_fecha := {| year := 2024; month := 1; day := 4 |};
                            fd_moneda := "PEN"; fd_total_ingresos := 0;
                            fd_total_egresos := 0; fd_flujo_neto := -7000;
                            fd_n_operaciones := 1 |};
              fd_saldo_acumulado := 3000 |}.
    split; [|by vm_compute].
    unfold d. rewrite flujo_diario_sucios. apply list_elem_of_In. simpl. tauto.
  - intros b Hb. apply (H6 a b); [by vm_compute | exact Hb].
Defined.

(** ** Top counterparties *)

Lemma top_contrapartes_sin_cortar_Permutation l :
  sort_values_desc tc_volumen_total (map agg_contraparte (groupby contraparte l))
  ≡ₚ map agg_contraparte (groupby contraparte l).
Proof. apply sort_values_desc_Permutation. Qed.

Lemma nombres_grupos l :
  map tc_contraparte (map agg_contraparte (groupby contraparte l))
  = claves contraparte l.
Proof.
  unfold groupby. rewrite !List.map_map. simpl. apply map_id.
Qed.

(** The view of the embedding is one of the views the code can return. *)
Lemma top_contrapartes_es_top l : es_top_contrapartes l (top_contrapartes l).
Proof.
  exists (sort_values_desc tc_volumen_total
            (map agg_contraparte (groupby contraparte l))).
  split; [|done]. split; [apply sort_values_desc_Permutation|].
  eapply StronglySorted_impl;
    [|apply (sort_values_desc_estable tc_volumen_total (λ _ _, True)),
        StronglySorted_True].
  by intros a b [H _].
Qed.

Lemma sum_monto_magnitudes g :
  (∀ r, r ∈ g → 0 ≤ valor (monto r)) → sum_monto g = magnitudes g.
Proof.
  intros H. apply suma_ext. intros r Hr. symmetry. apply Z.abs_eq. by apply H.
Qed.

(** C5, as the code has it.  Whatever order the sort gives to equal
    volumes, the view has at most ten rows, no counterparty twice, each
    row with the sum of the amounts of its counterparty, which is the sum
    of their magnitudes when none is negative; volumes never increase down
    the view.  The order of rows with equal volumes is not fixed. *)
Theorem top_contrapartes_correcto (d : DataFrame) (top : list TopContraparte)
    (Htop : es_top_contrapartes (filas (limpiar d)) top) :
  let l := filas (limpiar d) in
  es_top_contrapartes l (top_contrapartes l)
  ∧ (length top ≤ 10)%nat
  ∧ NoDup (map tc_contraparte top)
  ∧ (∀ v, v ∈ top →
       let g := grupo contraparte (tc_contraparte v) l in
       (∃ r, r ∈ l ∧ contraparte r = Some (tc_contraparte v))
       ∧ tc_volumen_total v = sum_monto g
       ∧ ((∀ r, r ∈ g → 0 ≤ valor (monto r)) →
          tc_volumen_total v = magnitudes g))
  ∧ StronglySorted (λ a b, tc_volumen_total b ≤ tc_volumen_total a) top.
Proof.
  intros l. destruct Htop as (ordenado & [Hp Hs] & ->). fold l in Hp.
  split; [apply top_contrapartes_es_top|].
  split; [rewrite length_take; lia|]. split; [|split].
  - rewrite <- firstn_map. eapply sublist_NoDup; [|apply sublist_take].
    rewrite Hp, nombres_grupos. apply NoDup_claves.
  - intros v (i & Hv & _)%elem_of_take g.
    apply list_elem_of_lookup_2 in Hv. rewrite Hp in Hv.
    apply elem_of_map in Hv as ([k g'] & -> & [Hk Hg]%elem_of_groupby).
    simpl in *. subst g g'.
    split; [by apply elem_of_claves in Hk|]. split; [done|].
    apply sum_monto_magnitudes.
  - apply StronglySorted_take.
    eapply StronglySorted_impl; [|exact Hs].
    intros a b H. simpl in H. lia.
Qed.

Lemma top_contrapartes_empate :
  top_contrapartes (filas (limpiar (marco_de movimientos_empate)))
  = [{| tc_contraparte := "BBVA"; tc_n_operaciones := 1;
        tc_volumen_total := 10000; tc_monto_promedio := Some 10000 |};
     {| tc_contraparte := "Interbank"; tc_n_operaciones := 2;
        tc_volumen_total := 10000; tc_monto_promedio := Some 5000 |};
     {| tc_contraparte := "Scotiabank"; tc_n_operaciones := 1;
        tc_volumen_total := 10000; tc_monto_promedio := Some 10000 |}].
Proof. by vm_compute. Qed.

(** On the table of the three tied counterparties the view read upwards
    is a view the code can return as well. *)
Lemma top_contrapartes_al_reves :
  let l := filas (limpiar (marco_de movimientos_empate)) in
  es_top_contrapartes l (reverse (top_contrapartes l)).
Proof.
  intros l. exists (reverse (top_contrapartes l)). split; [split|].
  - rewrite reverse_Permutation.
    destruct (top_contrapartes_es_top l) as (o & [Hp _] & E).
    rewrite E, take_ge; [done|].
    rewrite Hp. vm_compute. lia.
  - subst l. rewrite top_contrapartes_empate.
    repeat (constructor; [|by repeat constructor]). constructor.
  - subst l. by rewrite top_contrapartes_empate.
Qed.

(** C5 as worded fails on that table.  Interbank, first in the table, has
    150.00 and -50.00: its volume in the view is 100.00, not the 200.00 of
    the magnitudes, in whatever order the sort leaves the view.  The three
    volumes are equal, and neither the view of the embedding, which lists
    BBVA first, nor the view read upwards, which lists Scotiabank first,
    follows the order of the table. *)
Lemma top_contrapartes_no_por_entrada :
  let l := filas (limpiar (marco_de movimientos_empate)) in
  let top := top_contrapartes l in
  map contraparte l
    = [Some "Interbank"; Some "BBVA"; Some "Scotiabank"; Some "Interbank"]%string
  ∧ map (λ v, (tc_contraparte v, tc_volumen_total v)) top
    = [("BBVA", 10000); ("Interbank", 10000); ("Scotiabank", 10000)]%string
  ∧ magnitudes (grupo contraparte "Interbank" l) = 20000
  ∧ ¬ volumen_en_magnitudes l top
  ∧ ¬ desempate_por_entrada l top
  ∧ es_top_contrapartes l (reverse top)
  ∧ ¬ desempate_por_entrada l (reverse top)
  ∧ ¬ top_segun_especificacion l top
  ∧ (∀ top', es_top_contrapartes l top' → ¬ top_segun_especificacion l top').
Proof.
  intros l top.
  assert (Ea : primera_aparicion "BBVA" l = Some 1%nat) by (by vm_compute).
  assert (Eb : primera_aparicion "Interbank" l = Some 0%nat) by (by vm_compute).
  assert (Ec : primera_aparicion "Scotiabank" l = Some 2%nat) by (by vm_compute).
  assert (Em : magnitudes (grupo contraparte "Interbank" l) = 20000)
    by (by vm_compute).
  assert (Hm : ¬ volumen_en_magnitudes l top).
  { intros H.
    specialize (H {| tc_contraparte := "Interbank"; tc_n_operaciones := 2;
                     tc_volumen_total := 10000;
                     tc_monto_promedio := Some 5000 |}).
    cbn [tc_contraparte tc_volumen_total] in H. rewrite Em in H.
    assert (10000 = 20000); [|done]. apply H.
    subst top l. rewrite top_contrapartes_empate. set_solver. }
  assert (Hd : ¬ desempate_por_entrada l top).
  { subst top. intros H. revert H. subst l. rewrite top_contrapartes_empate.
    intros H.
    destruct (H 0%nat 1%nat _ _ eq_refl eq_refl ltac:(lia) eq_refl)
      as (pa & pb & Ha & Hb & Hlt).
    cbn [tc_contraparte] in Ha, Hb. rewrite Ea in Ha. rewrite Eb in Hb.
    injection Ha as <-. injection Hb as <-. lia. }
  split; [by vm_compute|]. split; [by vm_compute|]. split; [exact Em|].
  split; [exact Hm|]. split; [exact Hd|].
  split; [apply top_contrapartes_al_reves|]. split.
  - subst top. intros H. revert H. subst l. rewrite top_contrapartes_empate.
    intros H.
    destruct (H 0%nat 1%nat _ _ eq_refl eq_refl ltac:(lia) eq_refl)
      as (pa & pb & Ha & Hb & Hlt).
    cbn [tc_contraparte] in Ha, Hb. rewrite Ec in Ha. rewrite Eb in Hb.
    injection Ha as <-. injection Hb as <-. lia.
  - split; [intros (_ & _ & H & _); by apply Hm|].
    intros top' (ordenado & [Hp _] & ->) (_ & _ & H & _).
    specialize (H {| tc_contraparte := "Interbank"; tc_n_operaciones := 2;
                     tc_volumen_total := 10000;
                     tc_monto_promedio := Some 5000 |}).
    cbn [tc_contraparte tc_volumen_total] in H. rewrite Em in H.
    assert (10000 = 20000); [|done]. apply H.
    rewrite take_ge by (rewrite Hp; vm_compute; lia).
    rewrite Hp. apply list_elem_of_In. vm_compute. tauto.
Qed.

Lemma top_contrapartes_correcto_witness :
  let d := marco_de movimientos_empate in
  let l := filas (limpiar d) in
  let top := reverse (top_contrapartes l) in
  es_top_contrapartes l top
  ∧ map tc_contraparte top = ["Scotiabank"; "Interbank"; "BBVA"]%string
  ∧ (length top ≤ 10)%nat
  ∧ NoDup (map tc_contraparte top)
  ∧ StronglySorted (λ a b, tc_volumen_total b ≤ tc_volumen_total a) top.
Proof.
  intros d l top.
  destruct (top_contrapartes_correcto d top top_contrapartes_al_reves)
    as (_ & H2 & H3 & _ & H5).
  split; [apply top_contrapartes_al_reves|]. split; [by vm_compute|].
  split; [exact H2|]. split; [exact H3|exact H5].
Defined.

(** ** [calcular_kpis] and the caller's frame *)

Lemma filas_asignar_mes d :
  map (con_mes None) (filas (asignar_mes d)) = map (con_mes None) (filas d).
Proof. unfold asignar_mes, asignar. simpl. rewrite List.map_map. done. Qed.

(** C4, as the code has it.  [calcular_kpis] returns views that are a
    function of the frame it is given, prints, writes no file and touches
    no other frame; in the caller's frame it assigns the column [mes], the
    month of each row's date, and changes neither the number of rows nor
    any other column. *)
Theorem calcular_kpis_efecto (w : Mundo) (df : ref) (d : DataFrame)
    (Hdf : marcos w !! df = Some d) :
  ∃ w',
    calcular_kpis df w = Some (kpis_de d, w')
    ∧ marcos w' !! df = Some (asignar_mes d)
    ∧ columnas (asignar_mes d) = con_columna "mes" (columnas d)
    ∧ length (filas (asignar_mes d)) = length (filas d)
    ∧ map (con_mes None) (filas (asignar_mes d)) = map (con_mes None) (filas d)
    ∧ map mes (filas (asignar_mes d))
      = map (λ r, to_period_M <$> fecha r) (filas d)
    ∧ (∀ r, r ≠ df → marcos w' !! r = marcos w !! r)
    ∧ length (marcos w') = length (marcos w)
    ∧ archivos w' = archivos w
    ∧ consola w' = consola w ++ [MsgCalculando; MsgKpisCalculados].
Proof.
  eexists. split; [by apply calcular_kpis_run|]. simpl.
  split; [apply list_lookup_insert_eq; by eapply lookup_lt_Some|].
  split; [done|]. split; [by rewrite length_map|].
  split; [by rewrite List.map_map|]. split; [by rewrite List.map_map|].
  split; [intros r Hr; by apply list_lookup_insert_ne|].
  split; [apply length_insert|done].
Qed.

Lemma calcular_kpis_efecto_witness :
  let d := limpiar (marco_de movimientos_ejemplo) in
  ∃ w',
    calcular_kpis 0%nat (mundo_con d) = Some (kpis_de d, w')
    ∧ marcos w' !! 0%nat = Some (asignar_mes d)
    ∧ columnas (asignar_mes d) = con_columna "mes" (columnas d)
    ∧ length (filas (asignar_mes d)) = length (filas d)
    ∧ map (con_mes None) (filas (asignar_mes d)) = map (con_mes None) (filas d)
    ∧ map mes (filas (asignar_mes d))
      = map (λ r, to_period_M <$> fecha r) (filas d)
    ∧ (∀ r, r ≠ 0%nat → marcos w' !! r = marcos (mundo_con d) !! r)
    ∧ length (marcos w') = length (marcos (mundo_con d))
    ∧ archivos w' = archivos (mundo_con d)
    ∧ consola w' = consola (mundo_con d) ++ [MsgCalculando; MsgKpisCalculados].
Proof.
  intros d. exact (calcular_kpis_efecto (mundo_con d) 0%nat d eq_refl).
Defined.

(** C4 as worded fails: on the cleaned example table the call adds the
    column [mes] to the caller's frame. *)
Lemma calcular_kpis_muta :
  let d := limpiar (marco_de movimientos_ejemplo) in
  ¬ calcular_kpis_puro (mundo_con d) 0%nat
  ∧ ("mes"%string ∉ columnas d)
  ∧ ∃ k w' d', calcular_kpis 0%nat (mundo_con d) = Some (k, w')
               ∧ marcos w' !! 0%nat = Some d'
               ∧ "mes"%string ∈ columnas d'
               ∧ map mes (filas d') = [Some (2024, 1); Some (2024, 1); Some (2024, 1)].
Proof.
  intros d. split; [|split].
  - intros H.
    specialize (H _ _ (calcular_kpis_run (mundo_con d) 0%nat d eq_refl)).
    revert H. vm_compute. discriminate.
  - intros H. apply list_elem_of_In in H. revert H. vm_compute.
    intuition discriminate.
  - eexists _, _, _. split; [apply (calcular_kpis_run (mundo_con d) 0%nat d eq_refl)|].
    split; [reflexivity|]. split; [|by vm_compute].
    apply list_elem_of_In. vm_compute. tauto.
Qed.

(** ** The exported workbook *)

Lemma exportar_excel_run FECHA_HOY w df d fd pp top al rm :
  marcos w !! df = Some d →
  exportar_excel FECHA_HOY df fd pp top al rm w
  = Some (tt,
          {| marcos := marcos w;
             consola := consola w ++
               [MsgExportando (NOMBRE_REPORTE FECHA_HOY); MsgExportado];
             archivos := archivos w ++
               [(NOMBRE_REPORTE FECHA_HOY,
                 [hoja_flujo_diario "Flujo Diario" fd;
                  hoja_resumen_mensual "Resumen Mensual" rm;
                  hoja_por_producto "Por Producto" pp;
                  hoja_top_contrapartes "Top Contrapartes" top;
                  match al with
                  | [] => hoja_sin_alertas "Alertas Liquidez"
                  | _ => hoja_alertas "Alertas Liquidez" al
                  end;
                  hoja_datos "Data Completa" d])] |}).
Proof.
  intros Hd. unfold exportar_excel, mbind, M_bind, mret, M_ret, print, leer,
    guardar, to_excel. simpl. rewrite Hd. simpl.
  rewrite <- app_assoc. simpl.
  destruct al; simpl; reflexivity.
Qed.

(** C10. The workbook has six sheets, in the order Flujo Diario (Daily
    Flow), Resumen Mensual (Monthly Summary), Por Producto (By Product),
    Top Contrapartes (Top Counterparties), Alertas Liquidez (Liquidity
    Alerts), Data Completa (Full Data); without alerts the fifth sheet is
    there all the same and holds one row, the message. *)
Theorem exportar_excel_seis_hojas (FECHA_HOY : string) (w : Mundo) (df : ref)
    (d : DataFrame) (fd : list FlujoDiario) (pp : list PorProducto)
    (top : list TopContraparte) (al : list Alerta) (rm : list ResumenMensual)
    (Hdf : marcos w !! df = Some d) :
  ∃ w' hojas,
    exportar_excel FECHA_HOY df fd pp top al rm w = Some (tt, w')
    ∧ archivos w' = archivos w ++ [(NOMBRE_REPORTE FECHA_HOY, hojas)]
    ∧ length hojas = 6%nat
    ∧ map sheet_name hojas = map fst HOJAS_DEL_REPORTE
    ∧ hojas !! 0%nat = Some (hoja_flujo_diario "Flujo Diario" fd)
    ∧ hojas !! 1%nat = Some (hoja_resumen_mensual "Resumen Mensual" rm)
    ∧ hojas !! 2%nat = Some (hoja_por_producto "Por Producto" pp)
    ∧ hojas !! 3%nat = Some (hoja_top_contrapartes "Top Contrapartes" top)
    ∧ hojas !! 5%nat = Some (hoja_datos "Data Completa" d)
    ∧ (al ≠ [] → hojas !! 4%nat = Some (hoja_alertas "Alertas Liquidez" al))
    ∧ (al = [] →
       ∃ h, hojas !! 4%nat = Some h
            ∧ sheet_name h = "Alertas Liquidez"%string
            ∧ encabezado h = ["mensaje"%string]
            ∧ cuerpo h = [[VTexto "Sin alertas en el período"]]
            ∧ length (cuerpo h) = 1%nat).
Proof.
  eexists _, _. split; [by apply exportar_excel_run|]. simpl.
  split; [done|]. split; [done|].
  split; [by destruct al|]. repeat (split; [done|]).
  split.
  - intros Hal. by destruct al.
  - intros ->. eexists. repeat split.
Qed.

Lemma exportar_excel_seis_hojas_witness :
  let d := limpiar (marco_de movimientos_ejemplo) in
  let k := kpis_de d in
  ∃ w' hojas,
    exportar_excel "2024-01-05" 0%nat (k_flujo_diario k) (k_por_producto k)
      (k_top_contrapartes k) (k_alertas k) (k_resumen_mensual k)
      (mundo_con (asignar_mes d)) = Some (tt, w')
    ∧ archivos w' = [("reporte_tesoreria_2024-01-05.xlsx"%string, hojas)]
    ∧ map sheet_name hojas = map fst HOJAS_DEL_REPORTE
    ∧ ∃ h, hojas !! 4%nat = Some h
           ∧ cuerpo h = [[VTexto "Sin alertas en el período"]].
Proof.
  intros d k.
  destruct (exportar_excel_seis_hojas "2024-01-05" (mundo_con (asignar_mes d))
              0%nat (asignar_mes d) (k_flujo_diario k) (k_por_producto k)
              (k_top_contrapartes k) (k_alertas k) (k_resumen_mensual k)
              eq_refl)
    as (w' & hojas & H1 & H2 & _ & H4 & _ & _ & _ & _ & _ & _ & H11).
  exists w', hojas. split; [exact H1|]. split; [exact H2|]. split; [exact H4|].
  destruct (H11 ltac:(by vm_compute)) as (h & Hh & _ & _ & Hc & _).
  exists h. split; [exact Hh | exact Hc].
Defined.

(** ** Loading: the left join *)

Lemma elem_of_merge_left movs prods r' :
  r' ∈ merge_left movs prods ↔
  ∃ r, r ∈ movs
       ∧ r' ∈ match filter (λ p, p_producto_id p = producto_id r) prods with
              | [] => [con_nombre_producto None r]
              | ps => map (λ p, con_nombre_producto (p_nombre_producto p) r) ps
              end.
Proof.
  unfold merge_left. rewrite list_elem_of_In, in_flat_map.
  split; intros (r & Hr & H); exists r; by rewrite ?list_elem_of_In in *.
Qed.

Lemma length_flat_map_ge {A B} (f : A → list B) (l : list A) :
  (∀ x, (1 ≤ length (f x))%nat) → (length l ≤ length (flat_map f l))%nat.
Proof.
  intros H. induction l as [|a l IH]; simpl; [lia|].
  rewrite length_app. specialize (H a). lia.
Qed.

(** X1. The join loses no transaction and invents none: the frame has at
    least as many rows as the transactions table; every row is a
    transaction with a product name attached, missing or taken from a
    catalogue entry with the same [producto_id]; a transaction whose
    [producto_id] is not in the catalogue appears with a missing name. *)
Theorem merge_left_conserva (movs : list Fila) (prods : list Producto) :
  (length movs ≤ length (merge_left movs prods))%nat
  ∧ (∀ r, r ∈ movs →
       ∃ r', r' ∈ merge_left movs prods
             ∧ con_nombre_producto None r' = con_nombre_producto None r)
  ∧ (∀ r', r' ∈ merge_left movs prods →
       ∃ r, r ∈ movs
            ∧ con_nombre_producto None r' = con_nombre_producto None r
            ∧ (nombre_producto r' = None
               ∨ ∃ p, p ∈ prods ∧ p_producto_id p = producto_id r
                      ∧ nombre_producto r' = p_nombre_producto p))
  ∧ (∀ r, r ∈ movs →
       (∀ p, p ∈ prods → p_producto_id p ≠ producto_id r) →
       con_nombre_producto None r ∈ merge_left movs prods).
Proof.
  split; [|split; [|split]].
  - apply length_flat_map_ge. intros r.
    destruct (filter _ prods); simpl; lia.
  - intros r Hr.
    destruct (filter (λ p, p_producto_id p = producto_id r) prods)
      as [|p ps] eqn:E.
    + exists (con_nombre_producto None r). split; [|done].
      apply elem_of_merge_left. exists r. rewrite E. split; [done|by left].
    + exists (con_nombre_producto (p_nombre_producto p) r). split; [|done].
      apply elem_of_merge_left. exists r. rewrite E. split; [done|by left].
  - intros r' (r & Hr & H)%elem_of_merge_left. exists r. split; [done|].
    destruct (filter (λ p, p_producto_id p = producto_id r) prods)
      as [|p ps] eqn:E.
    + apply list_elem_of_singleton in H as ->. split; [done|by left].
    + apply elem_of_map in H as (q & -> & Hq). split; [done|]. right.
      rewrite <- E in Hq. apply list_elem_of_filter in Hq as [? ?]. eauto.
  - intros r Hr Hno. apply elem_of_merge_left. exists r. split; [done|].
    destruct (filter (λ p, p_producto_id p = producto_id r) prods)
      as [|p ps] eqn:E; [by left|].
    exfalso. assert (Hp : p ∈ p :: ps) by by left.
    rewrite <- E in Hp. apply list_elem_of_filter in Hp as [? ?].
    by eapply Hno.
Qed.

Lemma filter_clave_unica {A B} `{EqDecision B} (f : A → B) (k : B) (l : list A) :
  NoDup (map f l) → (length (filter (λ x, f x = k) l) ≤ 1)%nat.
Proof.
  induction l as [|x l IH]; simpl; [lia|].
  intros [Hx Hnd]%NoDup_cons. rewrite filter_cons.
  destruct (decide (f x = k)) as [E|E]; [|by apply IH]. simpl.
  destruct (filter (λ y, f y = k) l) as [|y t] eqn:Ef; [simpl; lia|].
  exfalso. assert (Hy : y ∈ filter (λ y, f y = k) l) by (rewrite Ef; by left).
  apply list_elem_of_filter in Hy as [Ey Hy].
  apply Hx. rewrite E, <- Ey. apply elem_of_map. eauto.
Qed.

Lemma map_flat_map_uno {A B C} (f : A → list B) (g : B → C) (h : A → C) l :
  (∀ x, map g (f x) = [h x]) → map g (flat_map f l) = map h l.
Proof.
  intros H. induction l as [|a l IH]; simpl; [done|].
  by rewrite map_app, H, IH.
Qed.

(** X2. When no [producto_id] occurs twice in the catalogue, the frame has
    the transactions themselves, as many and in the same order, each with
    one product name. *)
Theorem merge_left_catalogo_unico (movs : list Fila) (prods : list Producto)
    (Hcat : NoDup (map p_producto_id prods)) :
  map (con_nombre_producto None) (merge_left movs prods)
  = map (con_nombre_producto None) movs
  ∧ length (merge_left movs prods) = length movs.
Proof.
  assert (H : map (con_nombre_producto None) (merge_left movs prods)
              = map (con_nombre_producto None) movs).
  { apply map_flat_map_uno. intros r.
    pose proof (filter_clave_unica p_producto_id (producto_id r) prods Hcat) as Hl.
    destruct (filter _ prods) as [|p [|q ps]]; simpl in *; [done|done|lia]. }
  split; [exact H|].
  apply (f_equal length) in H. by rewrite !length_map in H.
Qed.

Lemma merge_left_catalogo_unico_witness :
  map (con_nombre_producto None) (merge_left movimientos_ejemplo productos_ejemplo)
  = map (con_nombre_producto None) movimientos_ejemplo
  ∧ length (merge_left movimientos_ejemplo productos_ejemplo)
    = length movimientos_ejemplo.
Proof.
  apply (merge_left_catalogo_unico movimientos_ejemplo productos_ejemplo).
  apply NoDup_ListNoDup. repeat constructor; simpl; intuition discriminate.
Defined.

(** ** Cleaning: what the cleaned frame looks like *)

Lemma drop_duplicates_desde_primera vistos l r :
  r ∈ drop_duplicates_desde vistos l ↔
  ∃ i, l !! i = Some r ∧ (id_movimiento r ∉ vistos)
       ∧ ∀ j r', (j < i)%nat → l !! j = Some r' →
                 id_movimiento r' ≠ id_movimiento r.
Proof.
  revert vistos. induction l as [|x l IH]; intros vistos; simpl.
  - split; [by intros ?%elem_of_nil|]. by intros (i & ? & _).
  - destruct (decide (id_movimiento x ∈ vistos)) as [Hx|Hx].
    + rewrite IH. split.
      * intros (i & Hi & Hv & Hp). exists (S i). split; [done|]. split; [done|].
        intros [|j] r' Hj Hr'; simpl in Hr'.
        -- injection Hr' as <-. intros E. apply Hv. by rewrite <- E.
        -- eapply Hp; [|done]. lia.
      * intros ([|i] & Hi & Hv & Hp); simpl in Hi.
        -- injection Hi as <-. done.
        -- exists i. split; [done|]. split; [done|].
           intros j r' Hj Hr'. apply (Hp (S j)); [lia|done].
    + rewrite elem_of_cons, IH. split.
      * intros [->|(i & Hi & Hv & Hp)].
        -- exists 0%nat. split; [done|]. split; [done|]. intros j r' Hj. lia.
        -- exists (S i). split; [done|]. split.
           ++ intros Hin. apply Hv. by right.
           ++ intros [|j] r' Hj Hr'; simpl in Hr'.
              ** injection Hr' as <-. intros E. apply Hv. rewrite <- E. by left.
              ** eapply Hp; [|done]. lia.
      * intros ([|i] & Hi & Hv & Hp); simpl in Hi.
        -- injection Hi as <-. by left.
        -- right. exists i. split; [done|]. split.
           ++ intros [E|Hin]%elem_of_cons; [|done].
              by apply (Hp 0%nat x ltac:(lia) eq_refl).
           ++ intros j r' Hj Hr'. apply (Hp (S j)); [lia|done].
Qed.

(** X3. [drop_duplicates] keeps, of the rows with one identifier, the
    first in the frame and only that one: a row stays exactly when no
    earlier row has its identifier. *)
Theorem drop_duplicates_primera (d : DataFrame) (r : Fila) :
  r ∈ filas (drop_duplicates d) ↔
  ∃ i, filas d !! i = Some r
       ∧ ∀ j r', (j < i)%nat → filas d !! j = Some r' →
                 id_movimiento r' ≠ id_movimiento r.
Proof.
  unfold drop_duplicates. simpl. rewrite drop_duplicates_desde_primera.
  split.
  - intros (i & ? & _ & ?). eauto.
  - intros (i & ? & ?). exists i. split; [done|]. split; [|done].
    apply not_elem_of_nil.
Qed.

Lemma sublist_drop_duplicates_desde vistos l :
  drop_duplicates_desde vistos l `sublist_of` l.
Proof.
  revert vistos. induction l as [|x l IH]; intros vistos; simpl; [done|].
  destruct (decide (id_movimiento x ∈ vistos)).
  - by apply sublist_cons.
  - by apply sublist_skip.
Qed.

Lemma sublist_List_filter {A} (p : A → bool) l : List.filter p l `sublist_of` l.
Proof.
  induction l as [|x l IH]; simpl; [done|].
  destruct (p x); [by apply sublist_skip | by apply sublist_cons].
Qed.

(** X4. In a cleaned frame no identifier occurs twice, every row has its
    date, a numeric amount, an operation type, a currency and its signed
    amount, and the rows are rows of the input in their input order: the
    identifiers form a subsequence of the input's, so cleaning never adds
    or reorders rows. *)
Theorem limpiar_invariantes (d : DataFrame) :
  NoDup (map id_movimiento (filas (limpiar d)))
  ∧ Forall fila_limpia (filas (limpiar d))
  ∧ map id_movimiento (filas (limpiar d)) `sublist_of` map id_movimiento (filas d)
  ∧ (length (filas (limpiar d)) ≤ length (filas d))%nat.
Proof.
  assert (Hs : map id_movimiento (filas (limpiar d))
               `sublist_of` map id_movimiento (filas d)).
  { rewrite filas_limpiar, List.map_map. simpl.
    apply sublist_map. etrans; [apply sublist_List_filter|].
    apply sublist_drop_duplicates_desde. }
  split; [|split; [|split]].
  - rewrite filas_limpiar, List.map_map. simpl.
    apply NoDup_map_List_filter, NoDup_drop_duplicates_desde.
  - apply Forall_forall. intros r. apply limpiar_filas_limpias.
  - exact Hs.
  - apply sublist_length in Hs. by rewrite !length_map in Hs.
Qed.

Lemma str_map_strip_normal (f : ascii → ascii) s :
  (∀ c, es_espacio (f c) = es_espacio c) → (∀ c, f (f c) = f c) →
  str_map f (str_strip (str_map f s)) = str_strip (str_map f s).
Proof.
  intros H1 H2. by rewrite <- (str_strip_map f H1), (str_map_idem f H2).
Qed.

(** X5. In the cleaned frame of a table of ASCII text the operation type
    is in lower case and the currency in upper case, neither with white
    space at its ends: normalising them again changes nothing. *)
Theorem limpiar_texto_normalizado (d : DataFrame) (r : Fila) (t c : string)
    (Hascii : texto_ascii (filas d) = true)
    (Hr : r ∈ filas (limpiar d))
    (Ht : tipo_operacion r = Some t) (Hc : moneda r = Some c) :
  str_lower t = t ∧ str_strip t = t ∧ str_upper c = c ∧ str_strip c = c.
Proof.
  rewrite filas_limpiar in Hr. apply elem_of_map in Hr as (r0 & -> & _).
  unfold normalizar in Ht, Hc. simpl in Ht, Hc.
  destruct (tipo_operacion r0) as [t0|]; [|done].
  destruct (moneda r0) as [c0|]; [|done].
  simpl in Ht, Hc. injection Ht as <-. injection Hc as <-.
  split; [apply str_map_strip_normal;
          [apply es_espacio_lower | apply ascii_lower_idem]|].
  split; [apply str_strip_idem|].
  split; [apply str_map_strip_normal;
          [apply es_espacio_upper | apply ascii_upper_idem]|].
  apply str_strip_idem.
Qed.

Lemma limpiar_texto_normalizado_witness :
  let r := normalizar (fila_csv 1 2024 1 2 1 " Ingreso " 10000 "pen" "BCP") in
  texto_ascii (filas (marco_de movimientos_sucios)) = true
  ∧ r ∈ filas (limpiar (marco_de movimientos_sucios))
  ∧ tipo_operacion r = Some "ingreso"%string
  ∧ moneda r = Some "PEN"%string
  ∧ str_lower "ingreso" = "ingreso"%string
  ∧ str_strip "ingreso" = "ingreso"%string
  ∧ str_upper "PEN" = "PEN"%string
  ∧ str_strip "PEN" = "PEN"%string.
Proof.
  intros r.
  assert (Hr : r ∈ filas (limpiar (marco_de movimientos_sucios))).
  { apply list_elem_of_In. vm_compute. tauto. }
  assert (Ht : tipo_operacion r = Some "ingreso"%string) by (by vm_compute).
  assert (Hc : moneda r = Some "PEN"%string) by (by vm_compute).
  assert (Ha : texto_ascii (filas (marco_de movimientos_sucios)) = true)
    by (by vm_compute).
  split; [exact Ha|].
  split; [exact Hr|]. split; [exact Ht|]. split; [exact Hc|].
  exact (limpiar_texto_normalizado _ r _ _ Ha Hr Ht Hc).
Defined.

(** X6. On a frame without repeated identifiers whose rows all have a
    date, a numeric amount, an operation type and a currency, cleaning
    removes nothing: it returns the rows normalised one by one, in order,
    and reports 0 removed rows. *)
Theorem limpiar_datos_sin_eliminar (w : Mundo) (df : ref) (d : DataFrame)
    (Hdf : marcos w !! df = Some d)
    (Hids : NoDup (map id_movimiento (filas d)))
    (Hok : Forall (λ r, aceptable r = true) (filas d)) :
  ∃ df' w' limpio,
    limpiar_datos df w = Some (df', w')
    ∧ marcos w' !! df' = Some limpio
    ∧ filas limpio = map normalizar (filas d)
    ∧ consola w' = consola w ++ [MsgLimpiando; MsgEliminados 0].
Proof.
  assert (Hf : filas (limpiar d) = map normalizar (filas d)).
  { rewrite filas_limpiar, drop_duplicates_desde_sin_repetidos;
      [|done|intros r _; apply not_elem_of_nil].
    rewrite List_filter_todos; [done|].
    intros r Hr. eapply Forall_forall in Hok; eauto. }
  assert (Ht : columnas_de_texto d = true).
  { destruct (filas d) as [|x l] eqn:E.
    - unfold columnas_de_texto, es_texto. by rewrite E.
    - apply (columnas_de_texto_aceptable d x); [rewrite E; by left|].
      by apply Forall_cons in Hok as [? _]. }
  eexists _, _, (limpiar d). split; [by apply limpiar_datos_run|].
  cbn [marcos consola]. split; [apply lookup_tercero|]. split; [exact Hf|].
  rewrite Hf, length_map, Z.sub_diag. done.
Qed.

Lemma limpiar_datos_sin_eliminar_witness :
  ∃ df' w' limpio,
    limpiar_datos 0%nat (mundo_con (marco_de movimientos_ejemplo)) = Some (df', w')
    ∧ marcos w' !! df' = Some limpio
    ∧ filas limpio = map normalizar (filas (marco_de movimientos_ejemplo))
    ∧ consola w' = consola (mundo_con (marco_de movimientos_ejemplo))
                   ++ [MsgLimpiando; MsgEliminados 0].
Proof.
  apply (limpiar_datos_sin_eliminar (mundo_con (marco_de movimientos_ejemplo))
           0%nat (marco_de movimientos_ejemplo) eq_refl).
  - apply NoDup_ListNoDup. repeat constructor; simpl; intuition discriminate.
  - repeat (constructor; [by vm_compute|]). constructor.
Defined.

(** ** The shape of the grouped views *)

Lemma count_id_suma g :
  Z.of_nat (count_id g)
  = suma (λ r, if decide (id_movimiento r ≠ None) then 1 else 0) g.
Proof.
  unfold count_id. induction g as [|r g IH]; simpl; [done|].
  rewrite filter_cons. destruct (decide (id_movimiento r ≠ None)); simpl; lia.
Qed.

Lemma flujo_diario_claves l :
  map clave_flujo (flujo_diario_base l) ≡ₚ claves clave_fecha_moneda l.
Proof.
  rewrite flujo_diario_base_Permutation. unfold groupby.
  rewrite !List.map_map.
  rewrite (map_ext _ id); [by rewrite map_id|]. by intros [f m].
Qed.

Lemma StronglySorted_map_inv {A B} (R : B → B → Prop) (f : A → B) l :
  StronglySorted R (map f l) → StronglySorted (λ a b, R (f a) (f b)) l.
Proof.
  induction l as [|a l IH]; simpl; intros Hs; [constructor|].
  apply StronglySorted_inv in Hs as [Hs Ha]. constructor; [by apply IH|].
  apply Forall_forall. intros b Hb. eapply Forall_forall in Ha; [exact Ha|].
  apply elem_of_map. eauto.
Qed.

(** X7. The daily flow of a cleaned table has one row for every (date,
    currency) pair that occurs in the table and no other, in strictly
    ascending (date, currency) order, and its operation counts add up to
    the number of transactions that carry an identifier. *)
Theorem flujo_diario_estructura (d : DataFrame) :
  let l := filas (limpiar d) in
  let vista := flujo_diario l in
  StronglySorted
    (λ a b, cle (clave_flujo (fd_base a)) (clave_flujo (fd_base b)) = true
            ∧ clave_flujo (fd_base a) ≠ clave_flujo (fd_base b)) vista
  ∧ NoDup (map (λ v, clave_flujo (fd_base v)) vista)
  ∧ (∀ f m, (f, m) ∈ map (λ v, clave_flujo (fd_base v)) vista ↔
            ∃ r, r ∈ l ∧ fecha r = Some f ∧ moneda r = Some m)
  ∧ suma (λ v, Z.of_nat (fd_n_operaciones (fd_base v))) vista
    = Z.of_nat (count_id l).
Proof.
  intros l vista.
  assert (Hk : map (λ v, clave_flujo (fd_base v)) vista
               = map clave_flujo (flujo_diario_base l)).
  { subst vista. unfold flujo_diario.
    rewrite <- (fd_base_saldo_acumulado ∅ (flujo_diario_base l)) at 2.
    by rewrite List.map_map. }
  split; [|split; [|split]].
  - assert (Hs := flujo_diario_base_ordenado l).
    rewrite <- (fd_base_saldo_acumulado ∅ (flujo_diario_base l)) in Hs.
    by apply StronglySorted_map_inv in Hs.
  - rewrite Hk, flujo_diario_claves. apply NoDup_claves.
  - intros f m. rewrite Hk, flujo_diario_claves, elem_of_claves. split.
    + intros (r & Hr & Hc). exists r. split; [done|].
      unfold clave_fecha_moneda in Hc.
      destruct (fecha r), (moneda r); simpl in Hc; by simplify_eq.
    + intros (r & Hr & Hf & Hm). exists r. split; [done|].
      unfold clave_fecha_moneda. by rewrite Hf, Hm.
  - subst vista. unfold flujo_diario.
    rewrite <- (suma_map fd_base (λ b, Z.of_nat (fd_n_operaciones b))).
    rewrite fd_base_saldo_acumulado.
    rewrite (suma_Permutation _ _ _ (flujo_diario_base_Permutation l)).
    rewrite suma_map, count_id_suma.
    rewrite (suma_ext _ (λ kg, suma (λ r, if decide (id_movimiento r ≠ None)
                                          then 1 else 0) kg.2))
      by (intros kg _; apply count_id_suma).
    unfold groupby. rewrite suma_map. simpl.
    rewrite (suma_ext _
      (λ k, if decide ((λ _, True) k)
            then suma (λ r, if decide (id_movimiento r ≠ None) then 1 else 0)
                   (grupo clave_fecha_moneda k l)
            else 0)) by done.
    rewrite (suma_grupos clave_fecha_moneda (λ _, True)); cycle 1.
    { apply NoDup_claves. }
    { intros r k Hr Hc. apply elem_of_claves. eauto. }
    apply suma_ext. intros r Hr.
    destruct (clave_fecha_moneda_limpia r (limpiar_filas_limpias d r Hr))
      as (k & -> & _). done.
Qed.

Lemma neto_flujo_diario v l :
  v ∈ flujo_diario l →
  fd_flujo_neto (fd_base v)
  = sum_monto_neto (grupo clave_fecha_moneda (clave_flujo (fd_base v)) l).
Proof.
  intros Hv.
  assert (Hb : fd_base v ∈ flujo_diario_base l).
  { rewrite <- (fd_base_saldo_acumulado ∅ (flujo_diario_base l)).
    apply elem_of_map. eauto. }
  rewrite flujo_diario_base_Permutation in Hb.
  apply elem_of_map in Hb as ([[f m] g] & E & [_ Hg]%elem_of_groupby).
  simpl in Hg. subst g. rewrite E. simpl. done.
Qed.

(** X8. When every row of the cleaned table is an [ingreso] or an
    [egreso] and binary64 adds the amounts without rounding, the net flow
    of each daily row is its income total minus its expense total. *)
Theorem flujo_neto_ingresos_menos_egresos (d : DataFrame) (v : FlujoDiario)
    (Hexactos : montos_exactos (filas (limpiar d)) = true)
    (Htipos : ∀ r, r ∈ filas (limpiar d) →
                tipo_operacion r = Some "ingreso"%string
                ∨ tipo_operacion r = Some "egreso"%string)
    (Hv : v ∈ flujo_diario (filas (limpiar d))) :
  fd_flujo_neto (fd_base v)
  = fd_total_ingresos (fd_base v) - fd_total_egresos (fd_base v).
Proof.
  rewrite (neto_flujo_diario v _ Hv).
  destruct (totales_flujo_diario v _ Hv) as [-> ->].
  generalize (clave_flujo (fd_base v)). intros k.
  rewrite !total_tipo_suma. unfold sum_monto_neto.
  assert (Hg : ∀ r, r ∈ grupo clave_fecha_moneda k (filas (limpiar d)) →
                 r ∈ filas (limpiar d)).
  { intros r Hr. by apply elem_of_grupo in Hr as [? _]. }
  revert Hg. generalize (grupo clave_fecha_moneda k (filas (limpiar d))).
  intros g Hg. induction g as [|r g IH]; simpl; [done|].
  rewrite IH by (intros; apply Hg; by right).
  assert (Hr : r ∈ filas (limpiar d)) by (apply Hg; by left).
  destruct (limpiar_filas_limpias d r Hr) as [_ _ _ _ ->]. simpl.
  unfold signo.
  destruct (Htipos r Hr) as [E|E]; rewrite E; repeat case_decide;
    try congruence; lia.
Qed.

Lemma flujo_neto_ingresos_menos_egresos_witness :
  let v := {| fd_base := {| fd_fecha := {| year := 2024; month := 1; day := 2 |};
                            fd_moneda := "PEN"; fd_total_ingresos := 10000;
                            fd_total_egresos := 4000; fd_flujo_neto := 6000;
                            fd_n_operaciones := 2 |};
              fd_saldo_acumulado := 6000 |} in
  montos_exactos (filas (limpiar (marco_de movimientos_ejemplo))) = true
  ∧ v ∈ flujo_diario (filas (limpiar (marco_de movimientos_ejemplo)))
  ∧ fd_flujo_neto (fd_base v)
    = fd_total_ingresos (fd_base v) - fd_total_egresos (fd_base v).
Proof.
  intros v.
  assert (Hv : v ∈ flujo_diario (filas (limpiar (marco_de movimientos_ejemplo)))).
  { apply list_elem_of_In. vm_compute. tauto. }
  assert (He : montos_exactos (filas (limpiar (marco_de movimientos_ejemplo)))
               = true) by (by vm_compute).
  split; [exact He|]. split; [exact Hv|].
  apply (flujo_neto_ingresos_menos_egresos (marco_de movimientos_ejemplo) v);
    [exact He| |exact Hv].
  assert (E : map tipo_operacion (filas (limpiar (marco_de movimientos_ejemplo)))
              = [Some "ingreso"; Some "egreso"; Some "ingreso"]%string)
    by (by vm_compute).
  intros r Hr.
  assert (Ht : tipo_operacion r
               ∈ map tipo_operacion (filas (limpiar (marco_de movimientos_ejemplo)))).
  { apply elem_of_map. eauto. }
  rewrite E in Ht.
  repeat (apply elem_of_cons in Ht as [->|Ht]); auto.
  by apply elem_of_nil in Ht.
Defined.

(** ** How the views relate *)

Lemma suma_flujo_diario_sel (sel : Timestamp * string → Prop)
    `{∀ k, Decision (sel k)} (vtot : FlujoBase → Z) (h : Fila → Z) l :
  (∀ kg, vtot (agg_flujo kg) = suma h kg.2) →
  suma (λ v, vtot (fd_base v))
    (filter (λ v, sel (clave_flujo (fd_base v))) (flujo_diario l))
  = suma (λ r, match clave_fecha_moneda r with
               | Some k => if decide (sel k) then h r else 0
               | None => 0
               end) l.
Proof.
  intros Ht. unfold flujo_diario. rewrite suma_filter. cbv beta.
  transitivity
    (suma (λ b, if decide (sel (clave_flujo b)) then vtot b else 0)
       (map fd_base (saldo_acumulado ∅ (flujo_diario_base l)))).
  { by rewrite suma_map. }
  rewrite fd_base_saldo_acumulado.
  rewrite (suma_Permutation _ _ _ (flujo_diario_base_Permutation l)).
  rewrite suma_map, <- (suma_groupby clave_fecha_moneda sel h l), suma_filter.
  apply suma_ext. intros [[f m] g] _. simpl. by rewrite (Ht ((f, m), g)).
Qed.

Lemma suma_grupo_clave {K} `{EqDecision K} (key : Fila → option K) k
    (h : Fila → Z) l :
  suma h (grupo key k l)
  = suma (λ r, if decide (key r = Some k) then h r else 0) l.
Proof. unfold grupo. apply suma_filter. Qed.

Lemma elem_of_resumen_mensual_agg m l :
  m ∈ resumen_mensual l →
  m = agg_mes ((rm_mes m, rm_moneda m),
               grupo clave_mes_moneda (rm_mes m, rm_moneda m) l).
Proof.
  unfold resumen_mensual.
  intros ([[p c] g] & E & [_ Hg]%elem_of_groupby)%elem_of_map.
  simpl in Hg. subst g. by rewrite E.
Qed.

(** X9. On a table whose amounts binary64 adds without rounding, the
    monthly summary is the daily flow added up by month: the income,
    expense and net flow of a monthly row are the sums of those columns
    over the daily rows of its currency whose date falls in its month. *)
Theorem resumen_mensual_suma_diaria (d : DataFrame) (m : ResumenMensual)
    (Hexactos : montos_exactos (filas (limpiar d)) = true)
    (Hm : m ∈ resumen_mensual (filas (asignar_mes (limpiar d)))) :
  let del_mes := filter (λ v, to_period_M (fd_fecha (fd_base v)) = rm_mes m
                              ∧ fd_moneda (fd_base v) = rm_moneda m)
                   (flujo_diario (filas (limpiar d))) in
  rm_total_ingresos m = suma (λ v, fd_total_ingresos (fd_base v)) del_mes
  ∧ rm_total_egresos m = suma (λ v, fd_total_egresos (fd_base v)) del_mes
  ∧ rm_flujo_neto m = suma (λ v, fd_flujo_neto (fd_base v)) del_mes.
Proof.
  intros del_mes. set (l := filas (limpiar d)).
  set (f := λ r, con_mes (to_period_M <$> fecha r) r).
  change (filas (asignar_mes (limpiar d))) with (map f l) in Hm.
  assert (Hg : ∀ h : Fila → Z, (∀ r, h (f r) = h r) →
    suma h (grupo clave_mes_moneda (rm_mes m, rm_moneda m) (map f l))
    = suma (λ r, match clave_fecha_moneda r with
                 | Some k => if decide (to_period_M k.1 = rm_mes m
                                        ∧ k.2 = rm_moneda m)
                             then h r else 0
                 | None => 0
                 end) l).
  { intros h Hh. rewrite suma_grupo_clave, suma_map.
    apply suma_ext. intros r Hr. rewrite Hh.
    apply (limpiar_filas_limpias d) in Hr as [[t Ht] _ _ [c Hc] _].
    unfold clave_mes_moneda, clave_fecha_moneda, f. simpl.
    rewrite Ht, Hc. simpl. repeat case_decide; try done.
    - exfalso. simplify_eq. tauto.
    - exfalso. destruct_and?. apply H. congruence. }
  assert (Hd : ∀ (vtot : FlujoBase → Z) (h : Fila → Z),
    (∀ kg, vtot (agg_flujo kg) = suma h kg.2) →
    suma (λ v, vtot (fd_base v)) del_mes
    = suma (λ r, match clave_fecha_moneda r with
                 | Some k => if decide (to_period_M k.1 = rm_mes m
                                        ∧ k.2 = rm_moneda m)
                             then h r else 0
                 | None => 0
                 end) l).
  { intros vtot h Ht. subst del_mes.
    rewrite <- (suma_flujo_diario_sel
                  (λ k, to_period_M k.1 = rm_mes m ∧ k.2 = rm_moneda m)
                  vtot h l Ht).
    apply suma_filter_iff. intros v _. done. }
  pose proof (elem_of_resumen_mensual_agg m (map f l) Hm) as E.
  split; [|split].
  - rewrite (Hd fd_total_ingresos
               (λ r, if decide (tipo_operacion r = Some "ingreso"%string)
                     then valor (monto r) else 0))
      by (intros; apply total_tipo_suma).
    rewrite <- Hg by done. rewrite <- total_tipo_suma. rewrite E at 1. done.
  - rewrite (Hd fd_total_egresos
               (λ r, if decide (tipo_operacion r = Some "egreso"%string)
                     then valor (monto r) else 0))
      by (intros; apply total_tipo_suma).
    rewrite <- Hg by done. rewrite <- total_tipo_suma. rewrite E at 1. done.
  - rewrite (Hd fd_flujo_neto (λ r, default 0 (monto_neto r))) by done.
    rewrite <- Hg by done. rewrite E at 1. done.
Qed.

Lemma resumen_mensual_suma_diaria_witness :
  let d := marco_de movimientos_sucios in
  let m := {| rm_mes := (2024, 1); rm_moneda := "PEN";
              rm_total_ingresos := 10000; rm_total_egresos := 0;
              rm_flujo_neto := 3000 |} in
  let del_mes := filter (λ v, to_period_M (fd_fecha (fd_base v)) = rm_mes m
                              ∧ fd_moneda (fd_base v) = rm_moneda m)
                   (flujo_diario (filas (limpiar d))) in
  montos_exactos (filas (limpiar d)) = true
  ∧ m ∈ resumen_mensual (filas (asignar_mes (limpiar d)))
  ∧ rm_total_ingresos m = suma (λ v, fd_total_ingresos (fd_base v)) del_mes
  ∧ rm_total_egresos m = suma (λ v, fd_total_egresos (fd_base v)) del_mes
  ∧ rm_flujo_neto m = suma (λ v, fd_flujo_neto (fd_base v)) del_mes.
Proof.
  intros d m del_mes.
  assert (Hm : m ∈ resumen_mensual (filas (asignar_mes (limpiar d)))).
  { apply list_elem_of_In. vm_compute. tauto. }
  assert (He : montos_exactos (filas (limpiar d)) = true) by (by vm_compute).
  split; [exact He|].
  split; [exact Hm|]. exact (resumen_mensual_suma_diaria d m He Hm).
Defined.

(** X10. The product summary has one row per (product name, currency)
    pair, and its rows come with income totals that never increase. *)
Theorem por_producto_ordenado (l : list Fila) :
  StronglySorted (λ a b, pp_total_ingresos b ≤ pp_total_ingresos a)
    (por_producto l)
  ∧ NoDup (map (λ v, (pp_nombre_producto v, pp_moneda v)) (por_producto l))
  ∧ (∀ p c, (p, c) ∈ map (λ v, (pp_nombre_producto v, pp_moneda v))
                        (por_producto l) ↔
            ∃ r, r ∈ l ∧ nombre_producto r = Some p ∧ moneda r = Some c).
Proof.
  assert (Hk : map (λ v, (pp_nombre_producto v, pp_moneda v)) (por_producto l)
               ≡ₚ claves clave_producto_moneda l).
  { rewrite por_producto_Permutation. unfold groupby. rewrite !List.map_map.
    rewrite (map_ext _ id); [by rewrite map_id|]. by intros [p c]. }
  split; [|split].
  - unfold por_producto.
    eapply StronglySorted_impl;
      [|apply (sort_values_desc_estable pp_total_ingresos (λ _ _, True)),
          StronglySorted_True].
    intros a b [H _]. simpl in H. lia.
  - rewrite Hk. apply NoDup_claves.
  - intros p c. rewrite Hk, elem_of_claves. split.
    + intros (r & Hr & Hc). exists r. split; [done|].
      unfold clave_producto_moneda in Hc.
      destruct (nombre_producto r), (moneda r); simpl in Hc; by simplify_eq.
    + intros (r & Hr & Hp & Hc). exists r. split; [done|].
      unfold clave_producto_moneda. by rewrite Hp, Hc.
Qed.

(** X11. [head(10)] keeps the largest volumes: a counterparty of the table
    that the view does not list has a volume no larger than that of any
    counterparty listed; the view has ten rows when the table has at least
    ten counterparties, and lists every counterparty otherwise. *)
Theorem top_contrapartes_mayores (l : list Fila) :
  let top := top_contrapartes l in
  length top = min 10 (length (claves contraparte l))
  ∧ (∀ k v, k ∈ claves contraparte l → k ∉ map tc_contraparte top →
            v ∈ top →
            sum_monto (grupo contraparte k l) ≤ tc_volumen_total v)
  ∧ ((length (claves contraparte l) ≤ 10)%nat →
     ∀ k, k ∈ claves contraparte l → k ∈ map tc_contraparte top).
Proof.
  intros top. subst top. unfold top_contrapartes.
  set (todos := sort_values_desc tc_volumen_total
                  (map agg_contraparte (groupby contraparte l))).
  assert (Hp : todos ≡ₚ map agg_contraparte (groupby contraparte l))
    by apply sort_values_desc_Permutation.
  assert (Hlen : length todos = length (claves contraparte l)).
  { rewrite Hp. unfold groupby. by rewrite !length_map. }
  assert (Hs : StronglySorted
                 (λ a b, tc_volumen_total b ≤ tc_volumen_total a) todos).
  { eapply StronglySorted_impl;
      [|apply (sort_values_desc_estable tc_volumen_total (λ _ _, True)),
          StronglySorted_True].
    intros a b [H _]. simpl in H. lia. }
  assert (Hin : ∀ k, k ∈ claves contraparte l →
                  agg_contraparte (k, grupo contraparte k l) ∈ todos).
  { intros k Hk. rewrite Hp. apply elem_of_map.
    exists (k, grupo contraparte k l). split; [done|].
    by apply elem_of_groupby. }
  split; [by rewrite length_take, Hlen|]. split.
  - intros k v Hk Hno Hv.
    apply elem_of_take in Hv as (i & Hi & Hlt).
    destruct (proj1 (list_elem_of_lookup _ _) (Hin k Hk)) as [j Hj].
    destruct (decide (j < 10)%nat) as [Hj10|Hj10].
    + exfalso. apply Hno. apply elem_of_map.
      exists (agg_contraparte (k, grupo contraparte k l)). split; [done|].
      apply elem_of_take. eauto.
    + assert (Hij : (i < j)%nat) by lia.
      exact (StronglySorted_lookup _ _ _ _ _ _ Hs Hi Hj Hij).
  - intros Hle k Hk. rewrite take_ge by lia.
    apply elem_of_map. exists (agg_contraparte (k, grupo contraparte k l)).
    split; [done|]. by apply Hin.
Qed.

(** ** Calling [calcular_kpis] again *)

Section SoloMes.
(** A column assignment that touches the column [mes] only. *)
Variable f : Fila → Fila.
Hypothesis f_solo_mes : ∀ r, con_mes None (f r) = con_mes None r.

Lemma solo_mes_campos r :
  id_movimiento (f r) = id_movimiento r ∧ fecha (f r) = fecha r
  ∧ tipo_operacion (f r) = tipo_operacion r ∧ monto (f r) = monto r
  ∧ moneda (f r) = moneda r ∧ contraparte (f r) = contraparte r
  ∧ nombre_producto (f r) = nombre_producto r
  ∧ monto_neto (f r) = monto_neto r.
Proof.
  pose proof (f_solo_mes r) as E.
  repeat split;
    [exact (f_equal id_movimiento E) | exact (f_equal fecha E)
    | exact (f_equal tipo_operacion E) | exact (f_equal monto E)
    | exact (f_equal moneda E) | exact (f_equal contraparte E)
    | exact (f_equal nombre_producto E) | exact (f_equal monto_neto E)].
Qed.

Lemma omap_map_clave {K} (key : Fila → option K) l :
  (∀ r, key (f r) = key r) → omap key (map f l) = omap key l.
Proof.
  intros H. induction l as [|r l IH]; simpl; [done|].
  rewrite H. destruct (key r); simpl; [f_equal|]; exact IH.
Qed.

Lemma grupo_map_clave {K} `{EqDecision K} (key : Fila → option K) k l :
  (∀ r, key (f r) = key r) → grupo key k (map f l) = map f (grupo key k l).
Proof.
  intros H. unfold grupo. induction l as [|r l IH]; simpl; [done|].
  rewrite !filter_cons, H. case_decide; simpl; by rewrite IH.
Qed.

Lemma groupby_map_clave {K} `{Clave K} (key : Fila → option K) l :
  (∀ r, key (f r) = key r) →
  groupby key (map f l) = map (λ kg, (kg.1, map f kg.2)) (groupby key l).
Proof.
  intros Hk. unfold groupby, claves. rewrite (omap_map_clave key l Hk).
  rewrite List.map_map. apply map_ext. intros k. simpl.
  by rewrite (grupo_map_clave key k l Hk).
Qed.

Lemma total_tipo_solo_mes t g : total_tipo t (map f g) = total_tipo t g.
Proof.
  rewrite !total_tipo_suma, suma_map. apply suma_ext. intros r _.
  destruct (solo_mes_campos r) as (_ & _ & -> & -> & _). done.
Qed.

Lemma sum_monto_neto_solo_mes g : sum_monto_neto (map f g) = sum_monto_neto g.
Proof.
  unfold sum_monto_neto. rewrite suma_map. apply suma_ext. intros r _.
  destruct (solo_mes_campos r) as (_ & _ & _ & _ & _ & _ & _ & ->). done.
Qed.

Lemma sum_monto_solo_mes g : sum_monto (map f g) = sum_monto g.
Proof.
  unfold sum_monto. rewrite suma_map. apply suma_ext. intros r _.
  destruct (solo_mes_campos r) as (_ & _ & _ & -> & _). done.
Qed.

Lemma count_id_solo_mes g : count_id (map f g) = count_id g.
Proof.
  apply Nat2Z.inj. rewrite !count_id_suma, suma_map. apply suma_ext.
  intros r _. destruct (solo_mes_campos r) as (-> & _). done.
Qed.

Lemma mean_monto_solo_mes g : mean_monto (map f g) = mean_monto g.
Proof.
  unfold mean_monto.
  assert (E : filter (λ r, es_nulo (monto r) = false) (map f g)
              = map f (filter (λ r, es_nulo (monto r) = false) g)).
  { induction g as [|r g IH]; simpl; [done|].
    rewrite !filter_cons.
    destruct (solo_mes_campos r) as (_ & _ & _ & -> & _).
    case_decide; simpl; by rewrite IH. }
  rewrite E, sum_monto_solo_mes, length_map.
  by destruct (filter _ g).
Qed.

Lemma flujo_diario_solo_mes l : flujo_diario (map f l) = flujo_diario l.
Proof.
  unfold flujo_diario, flujo_diario_base. do 2 f_equal.
  rewrite groupby_map_clave, List.map_map.
  - apply map_ext. intros [k g]. unfold agg_flujo. simpl.
    by rewrite !total_tipo_solo_mes, sum_monto_neto_solo_mes, count_id_solo_mes.
  - intros r. unfold clave_fecha_moneda.
    destruct (solo_mes_campos r) as (_ & -> & _ & _ & -> & _). done.
Qed.

Lemma por_producto_solo_mes l : por_producto (map f l) = por_producto l.
Proof.
  unfold por_producto. f_equal.
  rewrite groupby_map_clave, List.map_map.
  - apply map_ext. intros [k g]. unfold agg_producto. simpl.
    by rewrite !total_tipo_solo_mes, mean_monto_solo_mes, count_id_solo_mes.
  - intros r. unfold clave_producto_moneda.
    destruct (solo_mes_campos r) as (_ & _ & _ & _ & -> & _ & -> & _). done.
Qed.

Lemma top_contrapartes_solo_mes l :
  top_contrapartes (map f l) = top_contrapartes l.
Proof.
  unfold top_contrapartes. do 2 f_equal.
  rewrite groupby_map_clave, List.map_map.
  - apply map_ext. intros [k g]. unfold agg_contraparte. simpl.
    by rewrite sum_monto_solo_mes, mean_monto_solo_mes, count_id_solo_mes.
  - intros r. by destruct (solo_mes_campos r) as (_ & _ & _ & _ & _ & -> & _).
Qed.
End SoloMes.

Lemma asignar_mes_idem d : asignar_mes (asignar_mes d) = asignar_mes d.
Proof.
  unfold asignar_mes, asignar. simpl. f_equal.
  - apply con_columna_presente. apply elem_of_con_columna. by left.
  - rewrite List.map_map. apply map_ext. by intros [].
Qed.

Lemma kpis_de_asignar_mes d : kpis_de (asignar_mes d) = kpis_de d.
Proof.
  unfold kpis_de. rewrite asignar_mes_idem.
  change (filas (asignar_mes d))
    with (map (λ r, con_mes (to_period_M <$> fecha r) r) (filas d)).
  rewrite flujo_diario_solo_mes, por_producto_solo_mes,
    top_contrapartes_solo_mes by done.
  reflexivity.
Qed.

(** X12. Calling [calcular_kpis] a second time on the same frame returns
    the same five views and leaves every frame as the first call left it:
    the column [mes] that the first call added is read by no view but the
    monthly one and is assigned the same values again. *)
Theorem calcular_kpis_dos_veces (w : Mundo) (df : ref) (d : DataFrame)
    (Hdf : marcos w !! df = Some d) :
  ∃ k w1 w2,
    calcular_kpis df w = Some (k, w1)
    ∧ calcular_kpis df w1 = Some (k, w2)
    ∧ marcos w2 = marcos w1
    ∧ archivos w2 = archivos w1.
Proof.
  pose proof (calcular_kpis_run w df d Hdf) as H1.
  set (w1 := {| marcos := _ |}) in H1.
  assert (Hdf1 : marcos w1 !! df = Some (asignar_mes d)).
  { apply list_lookup_insert_eq. by eapply lookup_lt_Some. }
  pose proof (calcular_kpis_run w1 df _ Hdf1) as H2.
  fold (kpis_de d) in H1. fold (kpis_de (asignar_mes d)) in H2.
  rewrite kpis_de_asignar_mes in H2.
  eexists _, w1, _. split; [exact H1|]. split; [exact H2|].
  cbn [marcos archivos]. split; [|done].
  rewrite asignar_mes_idem. subst w1. cbn [marcos].
  apply list_insert_insert_eq.
Qed.

Lemma calcular_kpis_dos_veces_witness :
  ∃ k w1 w2,
    calcular_kpis 0%nat (mundo_con (limpiar (marco_de movimientos_ejemplo)))
      = Some (k, w1)
    ∧ calcular_kpis 0%nat w1 = Some (k, w2)
    ∧ marcos w2 = marcos w1
    ∧ archivos w2 = archivos w1.
Proof.
  exact (calcular_kpis_dos_veces
           (mundo_con (limpiar (marco_de movimientos_ejemplo))) 0%nat _ eq_refl).
Defined.

(** ** The full-data sheet *)

Lemma celda_de_sin_derivadas r c :
  c ∉ COLUMNAS_DERIVADAS → celda_de (sin_derivadas r) c = celda_de r c.
Proof.
  intros Hc. unfold celda_de. repeat case_decide; try done; subst;
    exfalso; apply Hc; unfold COLUMNAS_DERIVADAS; set_solver.
Qed.

Lemma hoja_datos_sin_derivadas nombre d1 d2 :
  drop_columns COLUMNAS_DERIVADAS (columnas d1)
    = drop_columns COLUMNAS_DERIVADAS (columnas d2) →
  map sin_derivadas (filas d1) = map sin_derivadas (filas d2) →
  hoja_datos nombre d1 = hoja_datos nombre d2.
Proof.
  intros Hc Hf. unfold hoja_datos. fold COLUMNAS_DERIVADAS. rewrite Hc.
  f_equal.
  set (cols := drop_columns COLUMNAS_DERIVADAS (columnas d2)).
  assert (Hr : ∀ l, map (λ r, map (celda_de r) cols) l
                    = map (λ r, map (celda_de r) cols) (map sin_derivadas l)).
  { intros l. rewrite List.map_map. apply map_ext. intros r.
    apply map_ext_in. intros c Hin. symmetry. apply celda_de_sin_derivadas.
    apply list_elem_of_In in Hin. subst cols. unfold drop_columns in Hin.
    by apply list_elem_of_filter in Hin as [? _]. }
  by rewrite (Hr (filas d1)), (Hr (filas d2)), Hf.
Qed.

(** X13. The export writes to no frame, and its full-data sheet shows the
    frame without the columns [monto_neto] and [mes]: its header is the
    other columns in their order, it has one line per row, each as long as
    the header, and it is the same for any frame that differs from this
    one in the two derived columns only. *)
Theorem exportar_excel_datos (FECHA_HOY : string) (w : Mundo) (df : ref)
    (d : DataFrame) (fd : list FlujoDiario) (pp : list PorProducto)
    (top : list TopContraparte) (al : list Alerta) (rm : list ResumenMensual)
    (Hdf : marcos w !! df = Some d) :
  ∃ w' hojas h,
    exportar_excel FECHA_HOY df fd pp top al rm w = Some (tt, w')
    ∧ marcos w' = marcos w
    ∧ archivos w' = archivos w ++ [(NOMBRE_REPORTE FECHA_HOY, hojas)]
    ∧ hojas !! 5%nat = Some h
    ∧ ("monto_neto"%string ∉ encabezado h) ∧ ("mes"%string ∉ encabezado h)
    ∧ encabezado h `sublist_of` columnas d
    ∧ (∀ c, c ∈ columnas d → c ∉ COLUMNAS_DERIVADAS → c ∈ encabezado h)
    ∧ length (cuerpo h) = length (filas d)
    ∧ Forall (λ linea, length linea = length (encabezado h)) (cuerpo h)
    ∧ (∀ d', drop_columns COLUMNAS_DERIVADAS (columnas d')
               = drop_columns COLUMNAS_DERIVADAS (columnas d) →
             map sin_derivadas (filas d') = map sin_derivadas (filas d) →
             hoja_datos "Data Completa" d' = h).
Proof.
  eexists _, _, (hoja_datos "Data Completa" d).
  split; [by apply exportar_excel_run|]. cbn [marcos archivos].
  split; [done|]. split; [done|]. split; [done|].
  unfold hoja_datos. cbn [encabezado cuerpo]. fold COLUMNAS_DERIVADAS.
  unfold drop_columns.
  split; [intros [H _]%list_elem_of_filter; apply H;
          unfold COLUMNAS_DERIVADAS; set_solver|].
  split; [intros [H _]%list_elem_of_filter; apply H;
          unfold COLUMNAS_DERIVADAS; set_solver|].
  split; [apply sublist_filter|].
  split; [intros c Hc Hn; by apply list_elem_of_filter|].
  split; [by rewrite length_map|].
  split.
  - apply Forall_forall. intros linea (r & -> & _)%elem_of_map.
    by rewrite length_map.
  - intros d' Hc Hf. by apply hoja_datos_sin_derivadas.
Qed.

Lemma exportar_excel_datos_witness :
  let d := asignar_mes (limpiar (marco_de movimientos_ejemplo)) in
  ∃ w' hojas h,
    exportar_excel "2024-01-05" 0%nat [] [] [] [] [] (mundo_con d) = Some (tt, w')
    ∧ marcos w' = marcos (mundo_con d)
    ∧ archivos w' = archivos (mundo_con d)
                    ++ [(NOMBRE_REPORTE "2024-01-05", hojas)]
    ∧ hojas !! 5%nat = Some h
    ∧ ("monto_neto"%string ∉ encabezado h) ∧ ("mes"%string ∉ encabezado h)
    ∧ encabezado h `sublist_of` columnas d
    ∧ (∀ c, c ∈ columnas d → c ∉ COLUMNAS_DERIVADAS → c ∈ encabezado h)
    ∧ length (cuerpo h) = length (filas d)
    ∧ Forall (λ linea, length linea = length (encabezado h)) (cuerpo h)
    ∧ (∀ d', drop_columns COLUMNAS_DERIVADAS (columnas d')
               = drop_columns COLUMNAS_DERIVADAS (columnas d) →
             map sin_derivadas (filas d') = map sin_derivadas (filas d) →
             hoja_datos "Data Completa" d' = h).
Proof.
  intros d.
  exact (exportar_excel_datos "2024-01-05" (mundo_con d) 0%nat d
           [] [] [] [] [] eq_refl).
Defined.

(** ** The main program *)

Lemma M_bind_Some {A B} (m : M A) (k : A → M B) w a w1 :
  m w = Some (a, w1) → (m ≫= k) w = k a w1.
Proof. intros E. unfold mbind, M_bind. by rewrite E. Qed.

Lemma cargar_datos_run movs prods w :
  cargar_datos movs prods w
  = Some (length (marcos w),
          {| marcos := marcos w ++ [marco_de (merge_left movs prods)];
             consola := consola w ++
               [MsgCargando; MsgCargados (length (merge_left movs prods))];
             archivos := archivos w |}).
Proof.
  unfold cargar_datos, mbind, M_bind, mret, M_ret, print, leer, nuevo. simpl.
  rewrite lookup_nuevo. simpl. by rewrite <- app_assoc.
Qed.

Lemma lookup_cuarto (l : list DataFrame) a b c e :
  (l ++ [a; b; c; e]) !! S (S (S (length l))) = Some e.
Proof.
  rewrite lookup_app_r by lia.
  replace (S (S (S (length l))) - length l)%nat with 3%nat by lia. done.
Qed.

Lemma imprimir_resumen_run FECHA_HOY df d fd al w :
  marcos w !! df = Some d →
  imprimir_resumen FECHA_HOY df fd al w
  = Some (tt, {| marcos := marcos w;
                 consola := consola w ++ [MsgResumen (resumen_de FECHA_HOY d fd al)];
                 archivos := archivos w |}).
Proof.
  intros Hd. unfold imprimir_resumen, mbind, M_bind, mret, M_ret, leer, print.
  by rewrite Hd.
Qed.

(** What one run of the main program does when the two text columns of
    the joined tables hold text, [limpio] being the cleaned frame. *)
Lemma main_run FECHA_HOY movs prods w :
  let d0 := marco_de (merge_left movs prods) in
  let limpio := limpiar d0 in
  let k := kpis_de limpio in
  columnas_de_texto d0 = true →
  ∃ intermedio hojas,
    main FECHA_HOY movs prods w
    = Some (tt,
            {| marcos := marcos w ++
                 [d0; drop_duplicates d0; intermedio; asignar_mes limpio];
               consola := consola w ++
                 [MsgCargando; MsgCargados (length (filas d0));
                  MsgLimpiando;
                  MsgEliminados (Z.of_nat (length (filas d0))
                                 - Z.of_nat (length (filas limpio)));
                  MsgCalculando; MsgKpisCalculados;
                  MsgExportando (NOMBRE_REPORTE FECHA_HOY); MsgExportado;
                  MsgResumen (resumen_de FECHA_HOY (asignar_mes limpio)
                                (k_flujo_diario k) (k_alertas k));
                  MsgTiempo; MsgCompletado];
               archivos := archivos w ++ [(NOMBRE_REPORTE FECHA_HOY, hojas)] |})
    ∧ map sheet_name hojas = map fst HOJAS_DEL_REPORTE
    ∧ hojas !! 5%nat = Some (hoja_datos "Data Completa" (asignar_mes limpio)).
Proof.
  intros d0 limpio k Htexto. unfold main.
  pose (w1 := {| marcos := marcos w ++ [d0];
                 consola := consola w ++
                   [MsgCargando; MsgCargados (length (merge_left movs prods))];
                 archivos := archivos w |}).
  assert (E1 : cargar_datos movs prods w = Some (length (marcos w), w1))
    by apply cargar_datos_run.
  rewrite (M_bind_Some _ _ _ _ _ E1).
  assert (H1 : marcos w1 !! length (marcos w) = Some d0) by apply lookup_nuevo.
  pose proof (limpiar_datos_run w1 _ d0 H1 Htexto) as E2.
  fold limpio in E2. set (w2 := {| marcos := marcos w1 ++ _ |}) in E2.
  rewrite (M_bind_Some _ _ _ _ _ E2).
  assert (H2 : marcos w2 !! S (S (length (marcos w1))) = Some limpio)
    by apply lookup_tercero.
  pose proof (calcular_kpis_run w2 _ limpio H2) as E3.
  fold (kpis_de limpio) in E3. fold k in E3.
  set (w3 := {| marcos := <[_ := _]> (marcos w2) |}) in E3.
  rewrite (M_bind_Some _ _ _ _ _ E3).
  assert (H3 : marcos w3 !! S (S (length (marcos w1))) = Some (asignar_mes limpio)).
  { apply list_lookup_insert_eq. by eapply lookup_lt_Some. }
  pose proof (exportar_excel_run FECHA_HOY w3 _ _ (k_flujo_diario k)
                (k_por_producto k) (k_top_contrapartes k) (k_alertas k)
                (k_resumen_mensual k) H3) as E4.
  set (w4 := {| marcos := marcos w3 |}) in E4.
  rewrite (M_bind_Some _ _ _ _ _ E4).
  assert (H4 : marcos w4 !! S (S (length (marcos w1))) = Some (asignar_mes limpio))
    by exact H3.
  assert (Em : marcos w4
               = marcos w ++ [d0; drop_duplicates d0;
                  asignar "fecha" (λ r, con_fecha (to_datetime (fecha r)) r)
                    (asignar "monto" (λ r, con_monto (to_numeric (monto r)) r)
                       (dropna_criticas (drop_duplicates d0)));
                  asignar_mes limpio]).
  { subst w4 w3 w2 w1. cbn [marcos]. rewrite <- !app_assoc. simpl.
    rewrite length_app. simpl.
    replace (S (S (length (marcos w) + 1)))
      with (length (marcos w) + 3)%nat by lia.
    rewrite insert_app_r. reflexivity. }
  assert (Ec : consola w4
               = consola w ++
                 [MsgCargando; MsgCargados (length (filas d0));
                  MsgLimpiando;
                  MsgEliminados (Z.of_nat (length (filas d0))
                                 - Z.of_nat (length (filas limpio)));
                  MsgCalculando; MsgKpisCalculados;
                  MsgExportando (NOMBRE_REPORTE FECHA_HOY); MsgExportado]).
  { subst w4 w3 w2 w1. cbn [consola]. rewrite <- !app_assoc. reflexivity. }
  pose proof (imprimir_resumen_run FECHA_HOY _ _ (k_flujo_diario k)
                (k_alertas k) w4 H4) as E5.
  rewrite (M_bind_Some _ _ _ _ _ E5).
  unfold mbind, M_bind, print. cbn [marcos consola archivos].
  eexists _, _. split.
  - f_equal. f_equal. rewrite Em, Ec, <- !app_assoc. subst w4. reflexivity.
  - split; [by destruct (k_alertas k)|done].
Qed.

(** Otherwise the run stops in [limpiar_datos]: no workbook is written. *)
Lemma main_falla FECHA_HOY movs prods w :
  columnas_de_texto (marco_de (merge_left movs prods)) = false →
  main FECHA_HOY movs prods w = None.
Proof.
  intros Htexto. unfold main.
  rewrite (M_bind_Some _ _ _ _ _ (cargar_datos_run movs prods w)).
  unfold mbind at 1, M_bind at 1.
  rewrite (limpiar_datos_falla _ _ (marco_de (merge_left movs prods)));
    [done|apply lookup_nuevo|done].
Qed.

(** X14. One run of the main program on tables whose operation types and
    currencies hold text ends normally: it writes one workbook, under the
    report's name, with the six sheets; it prints the eight progress
    lines in order, with the number of rows loaded and the number removed,
    then the summary and the two closing lines; it creates four frames and
    leaves every earlier frame as it was; and the full-data sheet has one
    line per cleaned row.  On other tables the run stops in
    [limpiar_datos] and returns nothing. *)
Theorem main_efectos (FECHA_HOY : string) (movs : list Fila)
    (prods : list Producto) (w : Mundo) :
  let d0 := marco_de (merge_left movs prods) in
  let limpio := limpiar d0 in
  (columnas_de_texto d0 = true →
   ∃ w' hojas h res,
     main FECHA_HOY movs prods w = Some (tt, w')
     ∧ archivos w' = archivos w ++ [(NOMBRE_REPORTE FECHA_HOY, hojas)]
     ∧ map sheet_name hojas = map fst HOJAS_DEL_REPORTE
     ∧ hojas !! 5%nat = Some h
     ∧ length (cuerpo h) = length (filas limpio)
     ∧ consola w' = consola w ++
         [MsgCargando; MsgCargados (length (merge_left movs prods));
          MsgLimpiando;
          MsgEliminados (Z.of_nat (length (merge_left movs prods))
                         - Z.of_nat (length (filas limpio)));
          MsgCalculando; MsgKpisCalculados;
          MsgExportando (NOMBRE_REPORTE FECHA_HOY); MsgExportado;
          MsgResumen res; MsgTiempo; MsgCompletado]
     ∧ length (marcos w') = (length (marcos w) + 4)%nat
     ∧ (∀ r d, marcos w !! r = Some d → marcos w' !! r = Some d))
  ∧ (columnas_de_texto d0 = false → main FECHA_HOY movs prods w = None).
Proof.
  intros d0 limpio. split; [|apply main_falla].
  intros Htexto.
  destruct (main_run FECHA_HOY movs prods w Htexto) as (x & hojas & E & Hn & Hh).
  eexists _, hojas, _, _. split; [exact E|]. cbn [archivos consola marcos].
  split; [done|]. split; [exact Hn|]. split; [exact Hh|].
  split; [unfold hoja_datos, asignar_mes, asignar; cbn [cuerpo filas];
          by rewrite !length_map|].
  split; [done|]. split; [rewrite length_app; simpl; lia|].
  intros r d Hr. by apply lookup_app_l_Some.
Qed.

Lemma main_efectos_witness :
  ∃ w' hojas,
    main "2024-01-05" movimientos_ejemplo productos_ejemplo MUNDO_INICIAL
      = Some (tt, w')
    ∧ archivos w' = [("reporte_tesoreria_2024-01-05.xlsx"%string, hojas)]
    ∧ map sheet_name hojas = map fst HOJAS_DEL_REPORTE
    ∧ length (consola w') = 11%nat
    ∧ length (marcos w') = 4%nat.
Proof.
  destruct (main_efectos "2024-01-05" movimientos_ejemplo productos_ejemplo
              MUNDO_INICIAL) as [H _].
  destruct (H ltac:(by vm_compute))
    as (w' & hojas & h & res & E & Ha & Hn & _ & _ & Hc & Hm & _).
  exists w', hojas. split; [exact E|]. split; [exact Ha|]. split; [exact Hn|].
  split; [by rewrite Hc|exact Hm].
Defined.

(** X15. When the run ends normally and binary64 adds the amounts without
    rounding, the totals of the console summary are those of the cleaned
    transactions: for PEN and for USD the income, expense and net flow
    printed are the sums of [monto] over the cleaned incomes and expenses
    of that currency and of [monto_neto] over its cleaned rows; the
    operation count is the number of cleaned rows and the alert count the
    length of the alerts view.  The summary is followed by the two closing
    lines. *)
Theorem main_resumen (FECHA_HOY : string) (movs : list Fila)
    (prods : list Producto) (w : Mundo)
    (Htexto : columnas_de_texto (marco_de (merge_left movs prods)) = true)
    (Hexactos : montos_exactos
                  (filas (limpiar (marco_de (merge_left movs prods)))) = true) :
  let l := filas (limpiar (marco_de (merge_left movs prods))) in
  ∃ w' antes res,
    main FECHA_HOY movs prods w = Some (tt, w')
    ∧ consola w' = antes ++ [MsgResumen res; MsgTiempo; MsgCompletado]
    ∧ r_total_operaciones res = length l
    ∧ r_pen_ingresos res = total_global "ingreso" "PEN" l
    ∧ r_pen_egresos res = total_global "egreso" "PEN" l
    ∧ r_pen_flujo_neto res = neto_global "PEN" l
    ∧ r_usd_ingresos res = total_global "ingreso" "USD" l
    ∧ r_usd_egresos res = total_global "egreso" "USD" l
    ∧ r_usd_flujo_neto res = neto_global "USD" l
    ∧ r_alertas res = length (alertas_de (flujo_diario l))
    ∧ r_reporte res = NOMBRE_REPORTE FECHA_HOY.
Proof.
  intros l.
  destruct (main_run FECHA_HOY movs prods w Htexto) as (x & hojas & E & _).
  eexists _, (consola w ++ _), _. split; [exact E|]. cbn [consola].
  split.
  { rewrite <- app_assoc. f_equal.
    change (?a :: ?b :: ?c :: ?d :: ?e :: ?f :: ?g :: ?h :: ?t)
      with ([a; b; c; d; e; f; g; h] ++ t). reflexivity. }
  destruct (flujo_diario_concilia (marco_de (merge_left movs prods)) "PEN")
    as (P1 & P2 & P3).
  destruct (flujo_diario_concilia (marco_de (merge_left movs prods)) "USD")
    as (U1 & U2 & U3).
  unfold resumen_de, kpis_de. cbn [r_total_operaciones r_pen_ingresos
    r_pen_egresos r_pen_flujo_neto r_usd_ingresos r_usd_egresos
    r_usd_flujo_neto r_alertas r_reporte k_flujo_diario k_alertas].
  split; [unfold asignar_mes, asignar; cbn [filas]; by rewrite length_map|].
  repeat split; assumption.
Qed.

Lemma main_resumen_witness :
  ∃ w' antes res,
    main "2024-01-05" movimientos_ejemplo productos_ejemplo MUNDO_INICIAL
      = Some (tt, w')
    ∧ consola w' = antes ++ [MsgResumen res; MsgTiempo; MsgCompletado]
    ∧ r_total_operaciones res = 3%nat
    ∧ r_pen_ingresos res = 10000
    ∧ r_pen_egresos res = 4000
    ∧ r_pen_flujo_neto res = 6000
    ∧ r_usd_ingresos res = 5000
    ∧ r_usd_egresos res = 0
    ∧ r_usd_flujo_neto res = 5000
    ∧ r_alertas res = 0%nat.
Proof.
  destruct (main_resumen "2024-01-05" movimientos_ejemplo productos_ejemplo
              MUNDO_INICIAL ltac:(by vm_compute) ltac:(by vm_compute))
    as (w' & antes & res & E & Hc & H1 & H2 & H3 & H4 & H5 & H6 & H7 & H8 & _).
  exists w', antes, res. split; [exact E|]. split; [exact Hc|].
  split; [rewrite H1; by vm_compute|]. split; [rewrite H2; by vm_compute|].
  split; [rewrite H3; by vm_compute|]. split; [rewrite H4; by vm_compute|].
  split; [rewrite H5; by vm_compute|]. split; [rewrite H6; by vm_compute|].
  split; [rewrite H7; by vm_compute|]. rewrite H8. by vm_compute.
Defined.

(** ** The period of the summary *)

Lemma fecha_min_menor l :
  match fecha_min l with
  | None => omap fecha l = []
  | Some lo => lo ∈ omap fecha l ∧ ∀ f, f ∈ omap fecha l → cle lo f = true
  end.
Proof.
  unfold fecha_min. induction (omap fecha l) as [|f fs IH]; cbn [foldr]; [done|].
  destruct (foldr _ None fs) as [g|].
  - destruct IH as [Hg Hle]. destruct (cle f g) eqn:E.
    + split; [by left|]. intros f' [->|Hf']%elem_of_cons; [apply cle_refl|].
      eapply cle_trans; eauto.
    + split; [by right|]. intros f' [->|Hf']%elem_of_cons; [|by apply Hle].
      destruct (cle_total f g); congruence.
  - rewrite IH. split; [by left|].
    intros f' [->|Hf']%elem_of_cons; [apply cle_refl|by apply elem_of_nil in Hf'].
Qed.

Lemma fecha_max_mayor l :
  match fecha_max l with
  | None => omap fecha l = []
  | Some hi => hi ∈ omap fecha l ∧ ∀ f, f ∈ omap fecha l → cle f hi = true
  end.
Proof.
  unfold fecha_max. induction (omap fecha l) as [|f fs IH]; cbn [foldr]; [done|].
  destruct (foldr _ None fs) as [g|].
  - destruct IH as [Hg Hle]. destruct (cle f g) eqn:E.
    + split; [by right|]. intros f' [->|Hf']%elem_of_cons; [done|by apply Hle].
    + split; [by left|]. intros f' [->|Hf']%elem_of_cons; [apply cle_refl|].
      eapply cle_trans; [by apply Hle|]. destruct (cle_total f g); congruence.
  - rewrite IH. split; [by left|].
    intros f' [->|Hf']%elem_of_cons; [apply cle_refl|by apply elem_of_nil in Hf'].
Qed.

Lemma length_remove_dups_le {A} `{EqDecision A} (l : list A) :
  (length (remove_dups l) ≤ length l)%nat.
Proof.
  induction l as [|x l IH]; simpl; [lia|].
  destruct (decide_rel elem_of x l); simpl; lia.
Qed.

Lemma length_omap_le {A B} (f : A → option B) (l : list A) :
  (length (omap f l) ≤ length l)%nat.
Proof.
  induction l as [|x l IH]; [simpl; lia|].
  change (omap f (x :: l))
    with (match f x with Some y => y :: omap f l | None => omap f l end).
  destruct (f x); simpl length; lia.
Qed.

(** X16. The period that the summary prints covers the data: when the
    frame has a row with a date, the summary shows a first and a last
    date, both dates of rows of the frame, and the date of every row lies
    between them; the number of operating days is at least one and at most
    the number of rows. *)
Theorem resumen_periodo (FECHA_HOY : string) (d : DataFrame)
    (fd : list FlujoDiario) (al : list Alerta) (r : Fila) (f : Timestamp)
    (Hr : r ∈ filas d) (Hf : fecha r = Some f) :
  let res := resumen_de FECHA_HOY d fd al in
  ∃ lo hi,
    r_periodo_desde res = Some lo ∧ r_periodo_hasta res = Some hi
    ∧ (∃ r1, r1 ∈ filas d ∧ fecha r1 = Some lo)
    ∧ (∃ r2, r2 ∈ filas d ∧ fecha r2 = Some hi)
    ∧ (∀ r' f', r' ∈ filas d → fecha r' = Some f' →
         cle lo f' = true ∧ cle f' hi = true)
    ∧ (1 ≤ r_dias_operativos res ≤ r_total_operaciones res)%nat.
Proof.
  intros res. subst res. unfold resumen_de.
  cbn [r_periodo_desde r_periodo_hasta r_dias_operativos r_total_operaciones].
  assert (Hin : f ∈ omap fecha (filas d)) by (apply list_elem_of_omap; eauto).
  pose proof (fecha_min_menor (filas d)) as Hmin.
  pose proof (fecha_max_mayor (filas d)) as Hmax.
  destruct (fecha_min (filas d)) as [lo|];
    [|rewrite Hmin in Hin; by apply elem_of_nil in Hin].
  destruct (fecha_max (filas d)) as [hi|];
    [|rewrite Hmax in Hin; by apply elem_of_nil in Hin].
  destruct Hmin as [Hlo Hmin], Hmax as [Hhi Hmax].
  exists lo, hi. split; [done|]. split; [done|].
  split; [by apply list_elem_of_omap in Hlo|].
  split; [by apply list_elem_of_omap in Hhi|].
  split.
  - intros r' f' Hr' Hf'.
    assert (f' ∈ omap fecha (filas d)) by (apply list_elem_of_omap; eauto).
    split; [by apply Hmin | by apply Hmax].
  - unfold nunique_fecha. split.
    + assert (Hd : f ∈ remove_dups (omap fecha (filas d)))
        by by apply elem_of_remove_dups.
      destruct (remove_dups (omap fecha (filas d)));
        [by apply elem_of_nil in Hd | simpl; lia].
    + etrans; [apply length_remove_dups_le|]. apply length_omap_le.
Qed.

Lemma resumen_periodo_witness :
  let d := marco_de movimientos_ejemplo in
  let res := resumen_de "2024-01-05" d [] [] in
  ∃ lo hi,
    r_periodo_desde res = Some lo ∧ r_periodo_hasta res = Some hi
    ∧ (∃ r1, r1 ∈ filas d ∧ fecha r1 = Some lo)
    ∧ (∃ r2, r2 ∈ filas d ∧ fecha r2 = Some hi)
    ∧ (∀ r' f', r' ∈ filas d → fecha r' = Some f' →
         cle lo f' = true ∧ cle f' hi = true)
    ∧ (1 ≤ r_dias_operativos res ≤ r_total_operaciones res)%nat.
Proof.
  intros d.
  apply (resumen_periodo "2024-01-05" d [] []
           (fila_csv 1 2024 1 2 1 "ingreso" 10000 "PEN" "BCP")
           {| year := 2024; month := 1; day := 2 |}); [|reflexivity].
  apply list_elem_of_In. vm_compute. tauto.
Defined.

(** ** The generator *)

Import Generador.

(** *** The loop that collects the business days *)

Lemma bind_inr {A B} (m : G A) (k : A → G B) s a s' :
  m s = (inr a, s') → (m ≫= k) s = k a s'.
Proof. intros E. unfold mbind, G_bind. by rewrite E. Qed.

Lemma bind_inl {A B} (m : G A) (k : A → G B) s e s' :
  m s = (inl e, s') → (m ≫= k) s = (inl e, s').
Proof. intros E. unfold mbind, G_bind. by rewrite E. Qed.

(** With a bound above the number of days left, the loop ends by its
    condition and returns the business days up to [fin], provided the
    step from the last day exists. *)
Lemma bucle_fechas_retorna n fin d acc s :
  (Z.to_nat (fin - d + 1) < n)%nat → fin < date_max ∨ fin < d →
  bucle_fechas n fin d acc s
  = (inr (acc ++ dias_habiles d (Z.to_nat (fin - d + 1))), s).
Proof.
  revert d acc. induction n as [|n IH]; intros d acc Hn Hfin; [lia|].
  cbn [bucle_fechas]. destruct (decide (d ≤ fin)) as [Hd|Hd].
  - assert (E : mas_un_dia d s = (inr (d + 1), s)).
    { unfold mas_un_dia. rewrite decide_True by lia. done. }
    rewrite (bind_inr _ _ _ _ _ E), IH by lia.
    replace (Z.to_nat (fin - d + 1))
      with (S (Z.to_nat (fin - (d + 1) + 1))) by lia.
    cbn [dias_habiles].
    destruct (weekday d <? 5); by rewrite <- ?app_assoc.
  - replace (Z.to_nat (fin - d + 1)) with 0%nat by lia.
    simpl. by rewrite app_nil_r.
Qed.

(** When the range reaches [date.max] the step from the last day raises. *)
Lemma bucle_fechas_desborda n fin d acc s :
  (Z.to_nat (fin - d + 1) < n)%nat → d ≤ fin → date_max ≤ fin →
  bucle_fechas n fin d acc s = (inl OverflowError, s).
Proof.
  revert d acc. induction n as [|n IH]; intros d acc Hn Hd Hfin; [lia|].
  cbn [bucle_fechas]. rewrite decide_True by done.
  destruct (decide (d < date_max)) as [Hlt|Hge].
  - assert (E : mas_un_dia d s = (inr (d + 1), s)).
    { unfold mas_un_dia. by rewrite decide_True. }
    rewrite (bind_inr _ _ _ _ _ E). apply IH; lia.
  - apply bind_inl. unfold mas_un_dia. by rewrite decide_False.
Qed.

Lemma generar_fechas_retorna c s :
  ¬ desborda c → generar_fechas c s = (inr (fechas_habiles c), s).
Proof.
  unfold desborda, generar_fechas, fechas_habiles. intros H.
  rewrite bucle_fechas_retorna; [done|lia|lia].
Qed.

Lemma generar_fechas_desborda c s :
  desborda c → generar_fechas c s = (inl OverflowError, s).
Proof.
  unfold desborda, generar_fechas. intros [H1 H2].
  apply bucle_fechas_desborda; lia.
Qed.

Lemma weekday_rango d : 0 ≤ weekday d < 7.
Proof. unfold weekday. apply Z.mod_pos_bound. lia. Qed.

Lemma elem_of_dias_habiles d0 n d :
  d ∈ dias_habiles d0 n ↔ d0 ≤ d < d0 + Z.of_nat n ∧ weekday d < 5.
Proof.
  revert d0. induction n as [|n IH]; intros d0.
  - simpl. split; [by intros ?%elem_of_nil | lia].
  - cbn [dias_habiles]. rewrite elem_of_app, IH.
    destruct (weekday d0 <? 5) eqn:E.
    + rewrite list_elem_of_singleton. apply Z.ltb_lt in E.
      split; [intros [->|?]; lia|]. intros [? ?].
      destruct (decide (d = d0)); [by left|right; lia].
    + apply Z.ltb_ge in E. split.
      * intros [?%elem_of_nil|?]; [done|lia].
      * intros [? ?]. right. split; [|done].
        destruct (decide (d = d0)) as [->|]; lia.
Qed.

Lemma dias_habiles_ascendente d0 n : StronglySorted Z.lt (dias_habiles d0 n).
Proof.
  revert d0. induction n as [|n IH]; intros d0; [constructor|].
  cbn [dias_habiles].
  assert (Hd : Forall (Z.lt d0) (dias_habiles (d0 + 1) n)).
  { apply Forall_forall. intros d [? _]%elem_of_dias_habiles. lia. }
  destruct (weekday d0 <? 5); simpl; [by constructor|apply IH].
Qed.

Lemma elem_of_fechas_habiles c d :
  d ∈ fechas_habiles c ↔
  FECHA_INICIO c ≤ d ≤ FECHA_FIN c ∧ 0 ≤ weekday d < 5.
Proof.
  unfold fechas_habiles. rewrite elem_of_dias_habiles.
  pose proof (weekday_rango d). lia.
Qed.

(** X17. The loop that collects the business days.  On a range that is
    inverted or ends before [date.max] it returns, without writing or
    printing, exactly the days from [FECHA_INICIO] to [FECHA_FIN], both
    included, that fall on Monday to Friday, each once and in ascending
    order.  On a range that is not inverted and ends on [date.max] it
    raises [OverflowError]: the step from the last day does not exist. *)
Theorem fechas_habiles_exactas (c : Config) (s : Estado) :
  (¬ desborda c →
   ∃ fechas,
     generar_fechas c s = (inr fechas, s)
     ∧ (∀ d, d ∈ fechas ↔
             FECHA_INICIO c ≤ d ≤ FECHA_FIN c ∧ 0 ≤ weekday d < 5)
     ∧ StronglySorted Z.lt fechas)
  ∧ (desborda c → generar_fechas c s = (inl OverflowError, s)).
Proof.
  split; [|apply generar_fechas_desborda].
  intros H. exists (fechas_habiles c).
  split; [by apply generar_fechas_retorna|].
  split; [apply elem_of_fechas_habiles|apply dias_habiles_ascendente].
Qed.

Lemma fechas_habiles_exactas_witness :
  ∃ fechas,
    generar_fechas CONFIG_FIN_DE_SEMANA_LARGO ESTADO_INICIAL
      = (inr fechas, ESTADO_INICIAL)
    ∧ fechas = [date_2024_01_05; date_2024_01_08]
    ∧ StronglySorted Z.lt fechas.
Proof.
  destruct (fechas_habiles_exactas CONFIG_FIN_DE_SEMANA_LARGO ESTADO_INICIAL)
    as [H _].
  destruct H as (fechas & E & _ & Hs).
  { unfold desborda. vm_compute. intros [_ H]. by apply H. }
  exists fechas. split; [exact E|]. split; [|exact Hs].
  revert E. vm_compute. congruence.
Defined.

(** The range that ends on [date.max]: the loop raises after its two
    days, and the generator with it. *)
Lemma generar_desborda_ejemplo :
  generar_fechas CONFIG_DATE_MAX ESTADO_INICIAL
    = (inl OverflowError, ESTADO_INICIAL)
  ∧ generar (λ _, 0%nat) CONFIG_DATE_MAX ESTADO_INICIAL
    = (inl OverflowError, ESTADO_INICIAL).
Proof. by vm_compute. Qed.

(** *** The records *)

Section GeneradorLemas.
Variable azar : nat → nat.

Lemma exito_ret {A} (a : A) (P : A → Prop) : P a → exito (mret a) P.
Proof. intros H s. by exists a, s. Qed.

Lemma exito_bind {A B} (m : G A) (k : A → G B) (P : A → Prop) (Q : B → Prop) :
  exito m P → (∀ a, P a → exito (k a) Q) → exito (m ≫= k) Q.
Proof.
  intros Hm Hk s. destruct (Hm s) as (a & s1 & E & He & Hi & Ha).
  destruct (Hk a Ha s1) as (b & s2 & E2 & He2 & Hi2 & Hb).
  exists b, s2. unfold mbind, G_bind. rewrite E.
  repeat split; [done|congruence|congruence|done].
Qed.

Lemma exito_impl {A} (m : G A) (P Q : A → Prop) :
  exito m P → (∀ a, P a → Q a) → exito m Q.
Proof.
  intros Hm H s. destruct (Hm s) as (a & s1 & ? & ? & ? & ?).
  exists a, s1. eauto.
Qed.

Lemma fallo_raise {A} e : fallo (raise (A := A) e) e.
Proof. intros s. by exists s. Qed.

Lemma fallo_bind_l {A B} (m : G A) (k : A → G B) e :
  fallo m e → fallo (m ≫= k) e.
Proof.
  intros Hm s. destruct (Hm s) as (s1 & E & ? & ?).
  exists s1. unfold mbind, G_bind. by rewrite E.
Qed.

Lemma fallo_bind_r {A B} (m : G A) (k : A → G B) (P : A → Prop) e :
  exito m P → (∀ a, P a → fallo (k a) e) → fallo (m ≫= k) e.
Proof.
  intros Hm Hk s. destruct (Hm s) as (a & s1 & E & He & Hi & Ha).
  destruct (Hk a Ha s1) as (s2 & E2 & He2 & Hi2).
  exists s2. unfold mbind, G_bind. rewrite E.
  repeat split; [done|congruence|congruence].
Qed.

Lemma exito_extraer : exito (extraer azar) (λ _, True).
Proof. intros s. by eexists _, _. Qed.

Lemma exito_choice {A} (seq : list A) :
  seq ≠ [] → exito (choice azar seq) (λ x, x ∈ seq).
Proof.
  intros Hne. destruct seq as [|x seq]; [done|]. unfold choice.
  eapply exito_bind; [apply exito_extraer|]. intros u _.
  apply exito_ret. apply list_elem_of_In, nth_In.
  apply Nat.mod_upper_bound. done.
Qed.

Lemma fallo_choice_vacio {A} : fallo (choice azar (@nil A)) IndexError.
Proof. apply fallo_raise. Qed.

Lemma exito_uniform_rango a b :
  a ≤ b → exito (uniform azar a b) (λ v, a * 100 ≤ v ∧ v ≤ b * 100).
Proof.
  intros Hab. eapply exito_bind; [apply exito_extraer|]. intros u _.
  apply exito_ret.
  pose proof (Z.mod_pos_bound (Z.of_nat u) ((b - a) * 100 + 1)). lia.
Qed.

Lemma exito_choices_moneda_valida :
  exito (choices_moneda azar) (λ m, m ∈ MONEDAS).
Proof.
  eapply exito_bind; [apply exito_extraer|]. intros u _. apply exito_ret.
  unfold MONEDAS. destruct (u mod 10 <? 6)%nat; set_solver.
Qed.

Lemma exito_producto_nombre c k :
  k ∈ map fst (PRODUCTOS c) →
  exito (producto c k) (λ n, (k, n) ∈ PRODUCTOS c).
Proof.
  intros ([k' n'] & -> & Hin)%elem_of_map. unfold producto.
  destruct (filter _ _) as [|kv rest] eqn:E.
  - exfalso. eapply (not_elem_of_nil (k', n')). rewrite <- E.
    by apply list_elem_of_filter.
  - apply exito_ret.
    assert (Hkv : kv ∈ filter (λ kv, kv.1 = (k', n').1) (PRODUCTOS c))
      by (rewrite E; by left).
    apply list_elem_of_filter in Hkv as [Hk Hkv].
    destruct kv as [k n]. simpl in *. by subst.
Qed.

Lemma rango_monto_ordenado k : (rango_monto k).1 ≤ (rango_monto k).2.
Proof. unfold rango_monto. repeat case_decide; simpl; lia. Qed.

(** One record is built when there is a business day and a product; it is
    valid and carries the identifier it was asked for. *)
Lemma exito_registro_valido c fechas i :
  fechas ≠ [] → PRODUCTOS c ≠ [] →
  (∀ d, d ∈ fechas → FECHA_INICIO c ≤ d ≤ FECHA_FIN c ∧ 0 ≤ weekday d < 5) →
  exito (registro azar c fechas i)
    (λ r, registro_valido c r ∧ g_id_movimiento r = i).
Proof.
  intros Hf Hp Hd. unfold registro.
  eapply exito_bind; [by apply exito_choice|]. intros fecha Hfecha.
  eapply exito_bind.
  { apply exito_choice. by destruct (PRODUCTOS c). }
  intros producto_id Hid.
  eapply exito_bind; [by apply exito_choice|]. intros tipo_op Htipo.
  eapply exito_bind; [apply exito_choices_moneda_valida|]. intros moneda Hmon.
  eapply (exito_bind _ _
            (λ v, (rango_monto producto_id).1 * 100 ≤ v
                  ∧ v ≤ (rango_monto producto_id).2 * 100)).
  { unfold rango_monto. repeat case_decide; simpl;
      apply exito_uniform_rango; lia. }
  intros monto Hmonto.
  eapply exito_bind; [by apply exito_choice|]. intros contraparte Hcp.
  eapply exito_bind; [by apply exito_producto_nombre|]. intros nombre Hn.
  apply exito_ret. split; [|done].
  split; simpl; try done.
  - by apply Hd.
  - by exists nombre.
Qed.

(** Building a record raises [IndexError] when there is no business day
    or no product. *)
Lemma fallo_registro c fechas i :
  fechas = [] ∨ PRODUCTOS c = [] →
  fallo (registro azar c fechas i) IndexError.
Proof.
  intros H. unfold registro.
  destruct fechas as [|f fs].
  - apply fallo_bind_l, fallo_choice_vacio.
  - destruct H as [?|Hp]; [done|].
    eapply fallo_bind_r; [by apply exito_choice|]. intros fecha _.
    rewrite Hp. apply fallo_bind_l, fallo_choice_vacio.
Qed.

Lemma exito_construir_valido c fechas ids registros :
  fechas ≠ [] → PRODUCTOS c ≠ [] →
  (∀ d, d ∈ fechas → FECHA_INICIO c ≤ d ≤ FECHA_FIN c ∧ 0 ≤ weekday d < 5) →
  exito (construir azar c fechas ids registros)
    (λ out, ∃ nuevos, out = registros ++ nuevos
                      ∧ map g_id_movimiento nuevos = ids
                      ∧ Forall (registro_valido c) nuevos).
Proof.
  intros Hf Hp Hd. revert registros.
  induction ids as [|i ids IH]; intros registros; simpl.
  - apply exito_ret. exists []. by rewrite app_nil_r.
  - eapply exito_bind; [by apply exito_registro_valido|]. intros r [Hr Hi].
    eapply exito_impl; [apply IH|]. intros out (nuevos & -> & Hids & Hv).
    exists (r :: nuevos). rewrite <- app_assoc. split; [done|].
    split; [simpl; by rewrite Hi, Hids|by constructor].
Qed.

Lemma fallo_construir c fechas ids registros :
  fechas = [] ∨ PRODUCTOS c = [] → ids ≠ [] →
  fallo (construir azar c fechas ids registros) IndexError.
Proof.
  intros H Hids. destruct ids as [|i ids]; [done|]. simpl.
  by apply fallo_bind_l, fallo_registro.
Qed.

Lemma range_1_vacio n : n ≤ 0 → range_1 n = [].
Proof. intros H. unfold range_1. by replace (Z.to_nat n) with 0%nat by lia. Qed.

Lemma length_range_1 n : length (range_1 n) = Z.to_nat n.
Proof. unfold range_1. by rewrite length_map, length_seq. Qed.

(** An inverted range has no business day. *)
Lemma fechas_habiles_invertido c : rango_invertido c → fechas_habiles c = [].
Proof.
  unfold rango_invertido, fechas_habiles. intros H.
  by replace (Z.to_nat _) with 0%nat by lia.
Qed.

(** The generator fails, with nothing written or printed: with the
    [OverflowError] of the loop when the range reaches [date.max], and
    else with [IndexError] or [KeyError] when no record is asked for, when
    the range has no business day or when the catalogue is empty. *)
Lemma generar_falla c s :
  desborda c ∨ N_REGISTROS c ≤ 0 ∨ fechas_habiles c = [] ∨ PRODUCTOS c = [] →
  ∃ e s', generar azar c s = (inl e, s')
          ∧ (desborda c ∧ e = OverflowError
             ∨ ¬ desborda c ∧ (e = IndexError ∨ e = KeyError "fecha"))
          ∧ escritos s' = escritos s ∧ impreso s' = impreso s.
Proof.
  intros H. unfold generar.
  destruct (decide (desborda c)) as [Hd|Hd].
  { exists OverflowError, s.
    rewrite (bind_inl _ _ _ _ _ (generar_fechas_desborda c s Hd)).
    split; [done|]. split; [by left|done]. }
  rewrite (bind_inr _ _ _ _ _ (generar_fechas_retorna c s Hd)).
  destruct (decide (N_REGISTROS c ≤ 0)) as [Hn|Hn].
  - rewrite (range_1_vacio _ Hn). simpl.
    exists (KeyError "fecha"), s. unfold mbind, G_bind. simpl. eauto 10.
  - assert (Hc : fechas_habiles c = [] ∨ PRODUCTOS c = []) by tauto.
    assert (Hr : range_1 (N_REGISTROS c) ≠ []).
    { intros E. apply (f_equal length) in E.
      rewrite length_range_1 in E. simpl in E. lia. }
    destruct (fallo_bind_l _
                (λ registros,
                   df ← ordenar_por_fecha registros;
                   to_csv "data/movimientos.csv" (CsvMovimientos df) ;;
                   to_csv "data/productos.csv" (CsvProductos (PRODUCTOS c)) ;;
                   print (LineaMovimientos (length df)) ;;
                   print (LineaProductos (length (PRODUCTOS c))) ;;
                   print (LineaPrimerasFilas (take 5 df)))
                _ (fallo_construir c _ _ [] Hc Hr) s)
      as (s' & E & ? & ?).
    exists IndexError, s'. eauto 10.
Qed.

Lemma ordenar_por_fecha_filas registros s :
  registros ≠ [] →
  ordenar_por_fecha registros s = (inr (sort_values g_fecha registros), s).
Proof. by destruct registros. Qed.

(** A run that does not raise: the state it ends in. *)
Lemma generar_exito_valido c s :
  ¬ desborda c → 0 < N_REGISTROS c → fechas_habiles c ≠ [] →
  PRODUCTOS c ≠ [] →
  ∃ s1 registros,
    generar azar c s
    = (inr tt,
       {| extraidos := extraidos s1;
          escritos := escritos s ++
            [("data/movimientos.csv"%string,
              CsvMovimientos (sort_values g_fecha registros));
             ("data/productos.csv"%string, CsvProductos (PRODUCTOS c))];
          impreso := impreso s ++
            [LineaMovimientos (length (sort_values g_fecha registros));
             LineaProductos (length (PRODUCTOS c));
             LineaPrimerasFilas (take 5 (sort_values g_fecha registros))] |})
    ∧ map g_id_movimiento registros = range_1 (N_REGISTROS c)
    ∧ Forall (registro_valido c) registros.
Proof.
  intros Hd Hn Hf Hp. unfold generar.
  rewrite (bind_inr _ _ _ _ _ (generar_fechas_retorna c s Hd)).
  destruct (exito_construir_valido c (fechas_habiles c)
              (range_1 (N_REGISTROS c)) [] Hf Hp
              (λ d, proj1 (elem_of_fechas_habiles c d)) s)
    as (registros & s1 & E & He & Hi & (nuevos & Hr & Hids & Hv)).
  simpl in Hr. subst nuevos.
  assert (Hne : registros ≠ []).
  { intros ->. apply (f_equal length) in Hids.
    rewrite length_range_1 in Hids. simpl in Hids. lia. }
  rewrite (bind_inr _ _ _ _ _ E).
  rewrite (bind_inr _ _ _ _ _ (ordenar_por_fecha_filas registros s1 Hne)).
  exists s1, registros. split; [|done].
  unfold mbind, G_bind, to_csv, print. simpl.
  rewrite He, Hi, <- !app_assoc. reflexivity.
Qed.

Lemma generar_retorna c s u s' :
  generar azar c s = (inr u, s') →
  ¬ desborda c ∧ 0 < N_REGISTROS c ∧ fechas_habiles c ≠ []
  ∧ PRODUCTOS c ≠ [].
Proof.
  intros E.
  destruct (decide (desborda c ∨ N_REGISTROS c ≤ 0 ∨ fechas_habiles c = []
                    ∨ PRODUCTOS c = []))
    as [Hmal|Hbien]; [|repeat split; [tauto|lia|tauto|tauto]].
  destruct (generar_falla c s Hmal) as (e & s0 & E0 & _).
  rewrite E in E0. discriminate E0.
Qed.
End GeneradorLemas.

(** C9, as the code has it.  The generator raises exactly when the date
    range is not inverted and ends on [date.max], when no record is asked
    for, when the date range holds no business day, which an inverted
    range never does, or when the catalogue is empty.  It then raises the
    [OverflowError] of the date step, the [IndexError] of [random.choice]
    or the [KeyError] of [sort_values], before any file is written or line
    printed.  When it does not raise, the transactions file it writes has
    [N_REGISTROS] records and is not empty. *)
Theorem generar_errores (azar : nat → nat) (c : Config) (s : Estado) :
  (catalogo_vacio c ∨ rango_invertido c →
     ∃ e s', generar azar c s = (inl e, s')
             ∧ (e = OverflowError ∨ e = IndexError ∨ e = KeyError "fecha")
             ∧ escritos s' = escritos s ∧ impreso s' = impreso s)
  ∧ ((∃ e s', generar azar c s = (inl e, s')) ↔
     desborda c ∨ N_REGISTROS c ≤ 0 ∨ fechas_habiles c = []
     ∨ PRODUCTOS c = [])
  ∧ (∀ e s', generar azar c s = (inl e, s') →
       (desborda c ∧ e = OverflowError
        ∨ ¬ desborda c ∧ (e = IndexError ∨ e = KeyError "fecha"))
       ∧ escritos s' = escritos s ∧ impreso s' = impreso s)
  ∧ (∀ u s', generar azar c s = (inr u, s') →
       ∃ df, escritos s' = escritos s ++
               [("data/movimientos.csv"%string, CsvMovimientos df);
                ("data/productos.csv"%string, CsvProductos (PRODUCTOS c))]
             ∧ length df = Z.to_nat (N_REGISTROS c)
             ∧ df ≠ []).
Proof.
  destruct (decide (desborda c ∨ N_REGISTROS c ≤ 0 ∨ fechas_habiles c = []
                    ∨ PRODUCTOS c = []))
    as [Hmal|Hbien].
  - destruct (generar_falla azar c s Hmal) as (e & s' & E & He & Hw & Hp).
    split; [|split; [split; eauto|split]].
    + intros _. exists e, s'. split; [done|]. split; [|done]. tauto.
    + intros e0 s0 E0. rewrite E in E0. injection E0 as <- <-. done.
    + intros u s0 E0. rewrite E in E0. discriminate E0.
  - assert (Hd : ¬ desborda c) by tauto.
    assert (Hn : 0 < N_REGISTROS c) by lia.
    assert (Hf : fechas_habiles c ≠ []) by tauto.
    assert (Hp : PRODUCTOS c ≠ []) by tauto.
    destruct (generar_exito_valido azar c s Hd Hn Hf Hp)
      as (s1 & registros & E & Hids & _).
    split; [|split; [|split]].
    + intros [Hc|Hr]; [done|]. by apply fechas_habiles_invertido in Hr.
    + split; [|done]. intros (e & s0 & E0). rewrite E in E0. discriminate E0.
    + intros e s0 E0. rewrite E in E0. discriminate E0.
    + intros u s0 E0. rewrite E in E0. injection E0 as _ <-.
      exists (sort_values g_fecha registros). cbn [escritos].
      assert (Hl : length (sort_values g_fecha registros)
                   = Z.to_nat (N_REGISTROS c)).
      { rewrite sort_values_Permutation, <- (length_map g_id_movimiento), Hids.
        apply length_range_1. }
      split; [reflexivity|]. split; [exact Hl|].
      intros E1. rewrite E1 in Hl. simpl in Hl. lia.
Qed.

Lemma generar_errores_witness :
  ∃ e s', generar (λ _, 0%nat) CONFIG_SIN_CATALOGO ESTADO_INICIAL = (inl e, s')
          ∧ (e = OverflowError ∨ e = IndexError ∨ e = KeyError "fecha")
          ∧ escritos s' = escritos ESTADO_INICIAL
          ∧ impreso s' = impreso ESTADO_INICIAL.
Proof.
  destruct (generar_errores (λ _, 0%nat) CONFIG_SIN_CATALOGO ESTADO_INICIAL)
    as (H & _).
  apply H. left. reflexivity.
Defined.

(** C9, as the specification words it, fails on a range that is not
    inverted: the week-end of 6 and 7 January 2024, with the original
    catalogue, makes the generator raise [IndexError]. *)
Lemma generar_falla_en_fin_de_semana :
  ¬ catalogo_vacio CONFIG_FIN_DE_SEMANA
  ∧ ¬ rango_invertido CONFIG_FIN_DE_SEMANA
  ∧ generar (λ _, 0%nat) CONFIG_FIN_DE_SEMANA ESTADO_INICIAL
    = (inl IndexError, ESTADO_INICIAL)
  ∧ ¬ solo_mal_uso (λ _, 0%nat) CONFIG_FIN_DE_SEMANA.
Proof.
  assert (E : generar (λ _, 0%nat) CONFIG_FIN_DE_SEMANA ESTADO_INICIAL
              = (inl IndexError, ESTADO_INICIAL)) by (by vm_compute).
  assert (Hc : ¬ catalogo_vacio CONFIG_FIN_DE_SEMANA) by (by vm_compute).
  assert (Hr : ¬ rango_invertido CONFIG_FIN_DE_SEMANA).
  { unfold rango_invertido. vm_compute. discriminate. }
  split; [exact Hc|]. split; [exact Hr|]. split; [exact E|].
  intros H. destruct (H _ _ _ E); done.
Qed.

(** *** The files written *)

(** X18. Whenever the generator returns, every transaction of the file it
    wrote has a business day of the configured range as its date, a
    product of the catalogue, an operation type, a currency and a
    counterparty of the fixed lists, an amount within the bounds of its
    product, and the description made of the product name and the
    counterparty. *)
Theorem generar_registros_validos (azar : nat → nat) (c : Config)
    (s s' : Estado) (u : unit)
    (Hgen : generar azar c s = (inr u, s')) :
  ∃ df,
    escritos s' = escritos s ++
      [("data/movimientos.csv"%string, CsvMovimientos df);
       ("data/productos.csv"%string, CsvProductos (PRODUCTOS c))]
    ∧ Forall (registro_valido c) df.
Proof.
  destruct (generar_retorna azar c s u s' Hgen) as (Hd & Hn & Hf & Hp).
  destruct (generar_exito_valido azar c s Hd Hn Hf Hp)
    as (s1 & registros & E & _ & Hv).
  rewrite E in Hgen. injection Hgen as _ <-.
  exists (sort_values g_fecha registros). split; [done|].
  by rewrite sort_values_Permutation.
Qed.

Lemma generar_registros_validos_witness :
  let s' := (generar (λ n, n) CONFIG_TRES ESTADO_INICIAL).2 in
  ∃ df,
    escritos s' = escritos ESTADO_INICIAL ++
      [("data/movimientos.csv"%string, CsvMovimientos df);
       ("data/productos.csv"%string, CsvProductos (PRODUCTOS CONFIG_TRES))]
    ∧ Forall (registro_valido CONFIG_TRES) df.
Proof.
  intros s'.
  apply (generar_registros_validos (λ n, n) CONFIG_TRES ESTADO_INICIAL s' tt).
  by vm_compute.
Defined.

Lemma NoDup_range_1 n : NoDup (range_1 n).
Proof.
  unfold range_1. apply NoDup_ListNoDup, Finite.Injective_map_NoDup.
  - intros a b. lia.
  - apply seq_NoDup.
Qed.

(** X19. Whenever the generator returns, it has written two files and
    printed three lines: the transactions file holds [N_REGISTROS]
    records, whose identifiers are 1 to [N_REGISTROS], each once, in
    ascending date order; the products file is the catalogue. *)
Theorem generar_salida (azar : nat → nat) (c : Config)
    (s s' : Estado) (u : unit)
    (Hgen : generar azar c s = (inr u, s')) :
  ∃ df,
    escritos s' = escritos s ++
      [("data/movimientos.csv"%string, CsvMovimientos df);
       ("data/productos.csv"%string, CsvProductos (PRODUCTOS c))]
    ∧ impreso s' = impreso s ++
        [LineaMovimientos (Z.to_nat (N_REGISTROS c));
         LineaProductos (length (PRODUCTOS c));
         LineaPrimerasFilas (take 5 df)]
    ∧ length df = Z.to_nat (N_REGISTROS c)
    ∧ map g_id_movimiento df ≡ₚ range_1 (N_REGISTROS c)
    ∧ NoDup (map g_id_movimiento df)
    ∧ StronglySorted (λ a b, g_fecha a ≤ g_fecha b) df.
Proof.
  destruct (generar_retorna azar c s u s' Hgen) as (Hd & Hn & Hf & Hp).
  destruct (generar_exito_valido azar c s Hd Hn Hf Hp)
    as (s1 & registros & E & Hids & _).
  rewrite E in Hgen. injection Hgen as _ <-.
  assert (Hperm : map g_id_movimiento (sort_values g_fecha registros)
                  ≡ₚ range_1 (N_REGISTROS c)).
  { rewrite <- Hids. apply Permutation_map, sort_values_Permutation. }
  assert (Hlen : length (sort_values g_fecha registros)
                 = Z.to_nat (N_REGISTROS c)).
  { rewrite <- (length_map g_id_movimiento), Hperm. apply length_range_1. }
  exists (sort_values g_fecha registros). cbn [escritos impreso].
  split; [done|]. split; [by rewrite Hlen|]. split; [exact Hlen|].
  split; [exact Hperm|]. split; [rewrite Hperm; apply NoDup_range_1|].
  eapply StronglySorted_impl;
    [|apply (sort_values_estable g_fecha (λ _ _, True)), StronglySorted_True].
  intros a b [H _]. simpl in H. lia.
Qed.

Lemma generar_salida_witness :
  let s' := (generar (λ n, n) CONFIG_TRES ESTADO_INICIAL).2 in
  ∃ df,
    escritos s' = escritos ESTADO_INICIAL ++
      [("data/movimientos.csv"%string, CsvMovimientos df);
       ("data/productos.csv"%string, CsvProductos (PRODUCTOS CONFIG_TRES))]
    ∧ impreso s' = impreso ESTADO_INICIAL ++
        [LineaMovimientos (Z.to_nat (N_REGISTROS CONFIG_TRES));
         LineaProductos (length (PRODUCTOS CONFIG_TRES));
         LineaPrimerasFilas (take 5 df)]
    ∧ length df = Z.to_nat (N_REGISTROS CONFIG_TRES)
    ∧ map g_id_movimiento df ≡ₚ range_1 (N_REGISTROS CONFIG_TRES)
    ∧ NoDup (map g_id_movimiento df)
    ∧ StronglySorted (λ a b, g_fecha a ≤ g_fecha b) df.
Proof.
  intros s'.
  apply (generar_salida (λ n, n) CONFIG_TRES ESTADO_INICIAL s' tt).
  by vm_compute.
Defined.
